(** * PiTiVi timeline media widget (src/pitivi-timelinemedia.c)

    A shallow embedding of the clip widget of the PiTiVi timeline: the
    widget records, the heap of widgets, tracks, source descriptors and
    composition-engine objects they live in, the construction of a clip,
    its property accessors, its pointer, keyboard and popup handlers and
    the passthrough operations on the composition engine, followed by the
    properties of these functions.  The paint routines and the geometry
    negotiation of the widget (expose, realize, size request and
    allocation) are not embedded. *)

From Stdlib Require Import ZArith QArith Qreduction DecimalString DecimalZ Lia.
From stdpp Require Import base option gmap strings list.

Local Open Scope Z_scope.

(** ** Outcomes

    A C function of the file either returns, or stops the process in
    [g_assert (FALSE)], or has no behaviour that this development
    defines: C leaves it undefined (a NULL or dangling pointer
    dereferenced, a signed overflow, a buffer overrun, a conversion out
    of range), or a binary64 operation of it yields an infinity, which
    the rationals that model binary64 values do not hold. *)

Inductive result (A : Type) : Type :=
| Ok (a : A)
| Abort
| Undefined.

Arguments Ok {A} a.
Arguments Abort {A}.
Arguments Undefined {A}.

#[global] Instance result_ret : MRet result := fun A a => Ok a.
#[global] Instance result_bind : MBind result := fun A B f r =>
  match r with
  | Ok a => f a
  | Abort => Abort
  | Undefined => Undefined
  end.
#[global] Instance result_fmap : FMap result := fun A B f r =>
  match r with
  | Ok a => Ok (f a)
  | Abort => Abort
  | Undefined => Undefined
  end.

(** A pointer that must not be NULL (or dangling) where it is dereferenced. *)
Definition deref {A : Type} (o : option A) : result A :=
  match o with
  | Some a => Ok a
  | None => Undefined
  end.

(** ** Machine integers *)

Definition in_gint (z : Z) : bool := (- 2 ^ 31 <=? z) && (z <? 2 ^ 31).
Definition in_guint (z : Z) : bool := (0 <=? z) && (z <? 2 ^ 32).
Definition G_MAXINT64 : Z := 2 ^ 63 - 1.
Definition G_MININT64 : Z := - 2 ^ 63.
Definition in_gint64 (z : Z) : bool := (G_MININT64 <=? z) && (z <=? G_MAXINT64).

(** Signed 64-bit addition and subtraction: overflow is undefined. *)
Definition gint64_add (a b : Z) : result Z :=
  if in_gint64 (a + b) then Ok (a + b) else Undefined.
Definition gint64_sub (a b : Z) : result Z :=
  if in_gint64 (a - b) then Ok (a - b) else Undefined.

(** A [guint] handed to a [gint] parameter: reduced modulo 2^32. *)
Definition guint_to_gint (u : Z) : Z :=
  if u <? 2 ^ 31 then u else u - 2 ^ 32.

(** ** gdouble

    A finite binary64 value is modelled by the rational it denotes, in
    lowest terms.  An operation of C computes the exact rational result
    and rounds it to the nearest binary64 value, a tie going to the value
    with the even significand (the rounding mode a C program starts in):
    53 significant bits, the least exponent of the last bit being -1074.
    A result whose magnitude reaches 2^1024 - 2^970 rounds to an
    infinity, which no rational denotes: such a result, which no sum of a
    finite binary64 value and a [gint] has, is outside the model, and so
    is the sign of a zero. *)

Definition gdouble : Type := Q.

(** The greatest finite binary64 value. *)
Definition G_MAXDOUBLE : Z := (2 ^ 53 - 1) * 2 ^ 971.

(** The magnitude of [q] is at most [G_MAXDOUBLE], as the magnitude of
    every finite binary64 value is. *)
Definition in_gdouble (q : Q) : bool :=
  Z.abs (Qnum q) <=? G_MAXDOUBLE * Zpos (Qden q).

(** [d * 2^e <= n], for an exponent [e] of either sign. *)
Definition pow2_le (n d e : Z) : bool :=
  d * 2 ^ Z.max 0 e <=? n * 2 ^ Z.max 0 (- e).

(** The exponent [e] with [2^e <= n / d < 2^(e+1)], for positive [n], [d]. *)
Definition floor_log2 (n d : Z) : Z :=
  let e0 := Z.log2 n - Z.log2 d in
  if pow2_le n d e0 then e0 else e0 - 1.

(** The integer nearest to [n / d], the even one of two that are equally
    near. *)
Definition round_half_even (n d : Z) : Z :=
  let fl := n / d in
  let r := n mod d in
  if 2 * r <? d then fl
  else if d <? 2 * r then fl + 1
  else if Z.even fl then fl else fl + 1.

(** The binary64 value nearest to [n / d], for positive [n] and [d]: a
    multiple [m * 2^u] of the unit in the last place [2^u] of the binade
    of [n / d]. *)
Definition round64_pos (n d : Z) : Q :=
  let e := floor_log2 n d in
  let u := Z.max (e - 52) (- 1074) in
  let m := round_half_even (n * 2 ^ Z.max 0 (- u)) (d * 2 ^ Z.max 0 u) in
  Qred (Qmake (m * 2 ^ Z.max 0 u) (Z.to_pos (2 ^ Z.max 0 (- u)))).

(** The rounding reaches an infinity: the magnitude is at least
    [G_MAXDOUBLE] and half a unit in its last place. *)
Definition overflows (q : Q) : bool :=
  (2 ^ 1024 - 2 ^ 970) * Zpos (Qden q) <=? Z.abs (Qnum q).

Definition round64 (q : Q) : option Q :=
  if overflows q then None
  else Some match Qnum q with
            | 0 => 0%Q
            | Zpos n => round64_pos (Zpos n) (Zpos (Qden q))
            | Zneg n => Qopp (round64_pos (Zpos n) (Zpos (Qden q)))
            end.

(** The exact result [q] of an operation, as the binary64 value the
    operation returns. *)
Definition dbl (q : Q) : result gdouble :=
  match round64 q with
  | Some r => Ok r
  | None => Undefined
  end.

Definition gdouble_add (a b : gdouble) : result gdouble := dbl (a + b)%Q.
Definition gdouble_sub (a b : gdouble) : result gdouble := dbl (a - b)%Q.
Definition gdouble_of_gint (z : Z) : gdouble := inject_Z z.

(** Conversion to an integer type discards the fraction (towards zero);
    a value that does not fit the type is undefined. *)
Definition Qtrunc (q : Q) : Z := Z.quot (Qnum q) (Zpos (Qden q)).
Definition gdouble_to_guint (d : gdouble) : result Z :=
  let t := Qtrunc d in if in_guint t then Ok t else Undefined.
Definition gdouble_to_gint (d : gdouble) : result Z :=
  let t := Qtrunc d in if in_gint t then Ok t else Undefined.

(** ** Enumerations *)

(** Modelled from the spec: [PitiviLayerType], declared in
    pitivi-timelinecellrenderer.h, with the track kinds this file names
    (audio, video, effects, transition, and no track). *)
Inductive PitiviLayerType : Type :=
| PITIVI_NO_TRACK
| PITIVI_VIDEO_TRACK
| PITIVI_AUDIO_TRACK
| PITIVI_EFFECTS_TRACK
| PITIVI_TRANSITION_TRACK.

#[global] Instance PitiviLayerType_eq_dec : EqDecision PitiviLayerType.
Proof. solve_decision. Defined.

(** Modelled from the spec: [PitiviCursorType], declared in
    pitivi-cursor.h, the current tool mode (select, cut, etc.); the two
    modes this file names, every other mode is [PITIVI_CURSOR_OTHER]. *)
Inductive PitiviCursorType : Type :=
| PITIVI_CURSOR_SELECT
| PITIVI_CURSOR_CUT
| PITIVI_CURSOR_OTHER (code : Z).

(** typedef enum { PROP_MEDIA_TYPE = 1, PROP_SOURCEFILE, PROP_CELL } *)
Definition PROP_MEDIA_TYPE : Z := 1.
Definition PROP_SOURCEFILE : Z := 2.
Definition PROP_CELL : Z := 3.

(** ** Heap objects *)

(** A non-NULL address; a C pointer is an [option ptr]. *)
Definition ptr : Type := positive.

(** Modelled from the spec: [PitiviSourceFile], declared in
    pitivi-sourcefile.h, the source descriptor (file name, media kind tag,
    duration, render-pipeline handle, thumbnail handle), with the members
    this file reads.  [filename] and [mediatype] are handed to [strlen]
    and to "%s": they are [gchar *], addresses of character buffers. *)
Record PitiviSourceFile : Type := mkSourceFile {
  sf_filename : option ptr;
  sf_mediatype : option ptr;
  sf_length : Z;
  sf_pipeline : option ptr;
  sf_thumbs_effect : option ptr
}.

(** Modelled from the spec: [PitiviSourceItem], declared in
    pitivi-sourceitem.h, with the members this file writes: the
    identifier, the clip's copy of the descriptor, the composition-engine
    object and the audio flag. *)
Record PitiviSourceItem : Type := mkSourceItem {
  si_id : Z;
  si_srcfile : option ptr;
  si_gnlsource : option ptr;
  si_isaudio : bool
}.

(** A composition-engine (GNonLin) object: the values last handed to it.
    [None] is a value this file has not set. *)
Record GnlObject : Type := mkGnl {
  gnl_name : string;
  gnl_pipeline : option ptr;
  gnl_start_stop : option (Z * Z);
  gnl_media_start_stop : option (Z * Z);
  gnl_priority : option Z
}.

Record GtkAllocation : Type := mkAlloc {
  alloc_x : Z;
  alloc_y : Z;
  alloc_width : Z;
  alloc_height : Z
}.

(** An entry of the popup table and the callback it is wired to. *)
Inductive PopupCallback : Type :=
| popup_dissociate
| popup_destroy
| popup_none.

Record GtkItemFactoryEntry : Type := mkEntry {
  entry_path : string;
  entry_callback : PopupCallback;
  entry_action : Z;
  entry_type : string
}.

Definition TimeItemPopup : list GtkItemFactoryEntry :=
  [ mkEntry "/Dissociate" popup_dissociate 0 "<Item>";
    mkEntry "/Delete" popup_destroy 1 "<Item>";
    mkEntry "/Sep1" popup_none 0 "<Separator>";
    mkEntry "/Copy" popup_none 0 "<Item>";
    mkEntry "/Paste" popup_none 0 "<Item>";
    mkEntry "/Sep1" popup_none 0 "<Separator>";
    mkEntry "/Properties" popup_none 0 "<Item>" ].

(** struct _PitiviTimelineMediaPrivate *)
Record PitiviTimelineMediaPrivate : Type := mkPrivate {
  cursor_type : option PitiviCursorType;
  cell : option ptr;
  sf : option ptr;
  gcs : option ptr;
  menu : option (list GtkItemFactoryEntry);
  media_type : Z;
  original_width : Z;
  original_height : Z;
  dispose_has_run : bool
}.

(** Modelled from the spec: [PitiviTimelineMedia], declared in
    pitivi-timelinemedia.h: the GtkWidget part this file touches
    ([allocation], [parent], the size request) and the members
    [selected], [linked], [sourceitem] and [private]. *)
Record PitiviTimelineMedia : Type := mkMedia {
  allocation : GtkAllocation;
  parent : option ptr;
  size_request : Z * Z;
  selected : bool;
  linked : option ptr;
  sourceitem : option PitiviSourceItem;
  private : PitiviTimelineMediaPrivate
}.

(** Modelled from the spec: [PitiviTimelineCellRenderer], declared in
    pitivi-timelinecellrenderer.h, the track container (a GtkLayout) with
    its kind, its insertion counter [nb_added[0]] and the track linked to
    it, and the children the layout holds with their place. *)
Record PitiviTimelineCellRenderer : Type := mkCell {
  track_type : PitiviLayerType;
  nb_added : Z;
  linked_track : option ptr;
  children : list (ptr * Z * Z)
}.

Record GdkEventButton : Type := mkButton {
  button : Z;
  button_x : gdouble;
  button_time : Z
}.

Record GdkEventKey : Type := mkKey {
  keyval : Z;
  key_time : Z
}.

(** ** The world *)

(** A signal this file emits on another object. *)
Inductive Signal : Type :=
| toplevel_deselect (widget : ptr)
| source_cut (container : option ptr) (x : gdouble) (self : ptr).

(** A toolkit call that leaves no trace in the modelled state. *)
Inductive Call : Type :=
| DragSourceSet (widget : ptr)
| SignalConnect (widget : ptr) (detailed_signal : string)
| ShowAll (widget : ptr)
| ShowWidget (widget : ptr)
| GrabFocus (widget : ptr)
| Expose (widget : ptr)
| Destroy (widget : ptr)
| MenuPopup (widget : ptr) (button : Z) (time : Z)
| Emit (s : Signal).

(** The heaps of clip widgets, tracks, source descriptors, character
    buffers and engine objects, the calls made so far, and [cursor].
    Modelled from the spec: [cursor] is the process-wide current tool,
    what [pitivi_getcursor_id (widget)->type] reads. *)
Record World : Type := mkWorld {
  medias : gmap ptr PitiviTimelineMedia;
  cells : gmap ptr PitiviTimelineCellRenderer;
  srcfiles : gmap ptr PitiviSourceFile;
  chars : gmap ptr string;
  gnl : gmap ptr GnlObject;
  cursor : PitiviCursorType;
  calls : list Call
}.

Definition with_medias (f : gmap ptr PitiviTimelineMedia → gmap ptr PitiviTimelineMedia)
    (w : World) : World :=
  mkWorld (f (medias w)) (cells w) (srcfiles w) (chars w) (gnl w) (cursor w) (calls w).
Definition with_cells
    (f : gmap ptr PitiviTimelineCellRenderer → gmap ptr PitiviTimelineCellRenderer)
    (w : World) : World :=
  mkWorld (medias w) (f (cells w)) (srcfiles w) (chars w) (gnl w) (cursor w) (calls w).
Definition with_srcfiles (f : gmap ptr PitiviSourceFile → gmap ptr PitiviSourceFile)
    (w : World) : World :=
  mkWorld (medias w) (cells w) (f (srcfiles w)) (chars w) (gnl w) (cursor w) (calls w).
Definition with_chars (f : gmap ptr string → gmap ptr string) (w : World) : World :=
  mkWorld (medias w) (cells w) (srcfiles w) (f (chars w)) (gnl w) (cursor w) (calls w).
Definition with_gnl (f : gmap ptr GnlObject → gmap ptr GnlObject) (w : World) : World :=
  mkWorld (medias w) (cells w) (srcfiles w) (chars w) (f (gnl w)) (cursor w) (calls w).

(** Record a toolkit call. *)
Definition log (c : Call) (w : World) : World :=
  mkWorld (medias w) (cells w) (srcfiles w) (chars w) (gnl w) (cursor w) (calls w ++ [c]).

(** Field updates of the widget records. *)
Definition set_selected (b : bool) (m : PitiviTimelineMedia) : PitiviTimelineMedia :=
  mkMedia (allocation m) (parent m) (size_request m) b (linked m) (sourceitem m) (private m).
Definition set_linked (l : option ptr) (m : PitiviTimelineMedia) : PitiviTimelineMedia :=
  mkMedia (allocation m) (parent m) (size_request m) (selected m) l (sourceitem m) (private m).
Definition set_sourceitem (s : option PitiviSourceItem) (m : PitiviTimelineMedia)
    : PitiviTimelineMedia :=
  mkMedia (allocation m) (parent m) (size_request m) (selected m) (linked m) s (private m).
Definition set_parent (p : option ptr) (m : PitiviTimelineMedia) : PitiviTimelineMedia :=
  mkMedia (allocation m) p (size_request m) (selected m) (linked m) (sourceitem m) (private m).
Definition set_size (r : Z * Z) (m : PitiviTimelineMedia) : PitiviTimelineMedia :=
  mkMedia (allocation m) (parent m) r (selected m) (linked m) (sourceitem m) (private m).
Definition set_private (f : PitiviTimelineMediaPrivate → PitiviTimelineMediaPrivate)
    (m : PitiviTimelineMedia) : PitiviTimelineMedia :=
  mkMedia (allocation m) (parent m) (size_request m) (selected m) (linked m) (sourceitem m)
    (f (private m)).

Definition set_media_type (t : Z) (p : PitiviTimelineMediaPrivate) :=
  mkPrivate (cursor_type p) (cell p) (sf p) (gcs p) (menu p) t
    (original_width p) (original_height p) (dispose_has_run p).
Definition set_sf (s : option ptr) (p : PitiviTimelineMediaPrivate) :=
  mkPrivate (cursor_type p) (cell p) s (gcs p) (menu p) (media_type p)
    (original_width p) (original_height p) (dispose_has_run p).
Definition set_cell (c : option ptr) (p : PitiviTimelineMediaPrivate) :=
  mkPrivate (cursor_type p) c (sf p) (gcs p) (menu p) (media_type p)
    (original_width p) (original_height p) (dispose_has_run p).
Definition set_menu (m : option (list GtkItemFactoryEntry)) (p : PitiviTimelineMediaPrivate) :=
  mkPrivate (cursor_type p) (cell p) (sf p) (gcs p) m (media_type p)
    (original_width p) (original_height p) (dispose_has_run p).
Definition set_cursor_type (c : option PitiviCursorType) (p : PitiviTimelineMediaPrivate) :=
  mkPrivate c (cell p) (sf p) (gcs p) (menu p) (media_type p)
    (original_width p) (original_height p) (dispose_has_run p).
Definition set_dispose_has_run (b : bool) (p : PitiviTimelineMediaPrivate) :=
  mkPrivate (cursor_type p) (cell p) (sf p) (gcs p) (menu p) (media_type p)
    (original_width p) (original_height p) b.

Definition set_nb_added (n : Z) (c : PitiviTimelineCellRenderer) :=
  mkCell (track_type c) n (linked_track c) (children c).
Definition add_child (ch : ptr * Z * Z) (c : PitiviTimelineCellRenderer) :=
  mkCell (track_type c) (nb_added c) (linked_track c) (children c ++ [ch]).

(** Reads and writes through a widget pointer. *)
Definition get_media (p : ptr) (w : World) : result PitiviTimelineMedia :=
  deref (medias w !! p).
Definition put_media (p : ptr) (m : PitiviTimelineMedia) (w : World) : World :=
  with_medias (insert p m) w.
Definition update_media (p : ptr) (f : PitiviTimelineMedia → PitiviTimelineMedia)
    (w : World) : result World :=
  m ← get_media p w; Ok (put_media p (f m) w).

Definition get_cell (p : option ptr) (w : World) : result PitiviTimelineCellRenderer :=
  c ← deref p; deref (cells w !! c).
Definition update_cell (p : option ptr)
    (f : PitiviTimelineCellRenderer → PitiviTimelineCellRenderer) (w : World)
    : result World :=
  c ← deref p; r ← deref (cells w !! c); Ok (with_cells (insert c (f r)) w).

(** A NUL-terminated string read through a [gchar *]. *)
Definition get_chars (p : option ptr) (w : World) : result string :=
  a ← deref p; deref (chars w !! a).

(** ** What the file is linked against

    [FIXED_HEIGHT] is a macro of pitivi-timelinecellrenderer.h,
    [layer_code] the integer a [PitiviLayerType] enumerator stands for,
    [check_media_type] a function of another file, and [signal_handlers]
    what the handlers connected to an emitted signal do to the world. *)

Class Externals : Type := {
  FIXED_HEIGHT : Z;
  layer_code : PitiviLayerType → Z;
  check_media_type : World → ptr → PitiviLayerType;
  signal_handlers : Signal → World → World
}.

(** ** Toolkit and engine calls *)

(** Modelled from the spec: [pitivi_send_expose_event], a function of
    another file, forces a repaint of the widget; the paint routine
    draws and changes no state. *)
Definition pitivi_send_expose_event (widget : ptr) (w : World) : World :=
  log (Expose widget) w.

Definition gtk_widget_grab_focus (widget : ptr) (w : World) : World :=
  log (GrabFocus widget) w.

Definition gtk_widget_show (widget : ptr) (w : World) : World :=
  log (ShowWidget widget) w.

(** The request is stored as it is passed. *)
Definition gtk_widget_set_size_request (widget : ptr) (width height : Z) (w : World)
    : result World :=
  update_media widget (set_size (width, height)) w.

(** [gtk_layout_put]: the child is added to the layout at (x, y).  A NULL
    layout fails the toolkit's own argument check and nothing happens. *)
Definition gtk_layout_put (layout : option ptr) (child : ptr) (x y : Z) (w : World)
    : result World :=
  match layout with
  | None => Ok w
  | Some l =>
      w ← update_cell (Some l) (add_child (child, x, y)) w;
      update_media child (set_parent (Some l)) w
  end.

(** [gtk_container_remove] on a track: the child leaves the children of
    the layout. *)
Definition remove_child (child : ptr) (c : PitiviTimelineCellRenderer) :=
  mkCell (track_type c) (nb_added c) (linked_track c)
         (filter (λ ch, ch.1.1 ≠ child) (children c)).

(** The dispose handler of the parent class, GtkWidget: a widget that
    has a parent is removed from it, which takes it out of the children
    of the container and clears its parent.  A parent that is no track
    of the heap is a container of another kind, of which only the
    widget's side is kept here. *)
Definition gtk_widget_dispose (widget : ptr) (w : World) : World :=
  match medias w !! widget with
  | Some m =>
      match parent m with
      | Some c =>
          put_media widget (set_parent None m)
            (with_cells (alter (remove_child widget) c) w)
      | None => w
      end
  | None => w
  end.

Definition g_signal_emit_by_name `{Externals} (s : Signal) (w : World) : World :=
  signal_handlers s (log (Emit s) w).

Definition with_gnl_start_stop (v : Z * Z) (o : GnlObject) : GnlObject :=
  mkGnl (gnl_name o) (gnl_pipeline o) (Some v) (gnl_media_start_stop o) (gnl_priority o).
Definition with_gnl_media_start_stop (v : Z * Z) (o : GnlObject) : GnlObject :=
  mkGnl (gnl_name o) (gnl_pipeline o) (gnl_start_stop o) (Some v) (gnl_priority o).
Definition with_gnl_priority (v : Z) (o : GnlObject) : GnlObject :=
  mkGnl (gnl_name o) (gnl_pipeline o) (gnl_start_stop o) (gnl_media_start_stop o) (Some v).

Definition update_gnl (object : option ptr) (f : GnlObject → GnlObject) (w : World)
    : result World :=
  g ← deref object; o ← deref (gnl w !! g); Ok (with_gnl (insert g (f o)) w).

Definition gnl_source_new (name : string) (pipeline : option ptr) (w : World)
    : ptr * World :=
  let g := fresh (dom (gnl w)) in
  (g, with_gnl (insert g (mkGnl name pipeline None None None)) w).

Definition gnl_object_set_start_stop (object : option ptr) (start stop : Z) :=
  update_gnl object (with_gnl_start_stop (start, stop)).
Definition gnl_object_set_media_start_stop (object : option ptr) (start stop : Z) :=
  update_gnl object (with_gnl_media_start_stop (start, stop)).
Definition gnl_object_set_priority (object : option ptr) (priority : Z) :=
  update_gnl object (with_gnl_priority priority).
Definition gnl_object_get_media_start_stop (object : option ptr) (w : World)
    : result (Z * Z) :=
  g ← deref object; o ← deref (gnl w !! g); deref (gnl_media_start_stop o).

(** The engine object of a clip: [media->sourceitem->gnlsource]. *)
Definition gnlsource_of (media : ptr) (w : World) : result (option ptr) :=
  m ← get_media media w; si ← deref (sourceitem m); Ok (si_gnlsource si).

(** ** GObject properties *)

Inductive GValue : Type :=
| GInt (n : Z)
| GPointer (p : option ptr).

Definition g_value_get_int (v : GValue) : Z :=
  match v with GInt n => n | GPointer _ => 0 end.
Definition g_value_get_pointer (v : GValue) : option ptr :=
  match v with GPointer p => p | GInt _ => None end.

Record GParamSpec : Type := mkPspec {
  pspec_id : Z;
  pspec_name : string;
  pspec_readable : bool;
  pspec_writable : bool;
  pspec_construct : bool;
  pspec_construct_only : bool
}.

(** The properties [pitivi_timelinemedia_class_init] installs. *)
Definition pitivi_timelinemedia_class_init : list GParamSpec :=
  [ mkPspec PROP_MEDIA_TYPE "media_type" true true false false;
    mkPspec PROP_SOURCEFILE "source_file" true true true false;
    mkPspec PROP_CELL "cell" true true false true ].

Definition find_property (name : string) : option GParamSpec :=
  List.find (fun ps => String.eqb (pspec_name ps) name) pitivi_timelinemedia_class_init.

Definition at_construction (ps : GParamSpec) : bool :=
  pspec_construct ps || pspec_construct_only ps.

Definition pitivi_timelinemedia_set_property (object : ptr) (property_id : Z)
    (value : GValue) (w : World) : result World :=
  if decide (property_id = PROP_MEDIA_TYPE) then
    update_media object (set_private (set_media_type (g_value_get_int value))) w
  else if decide (property_id = PROP_SOURCEFILE) then
    update_media object (set_private (set_sf (g_value_get_pointer value))) w
  else if decide (property_id = PROP_CELL) then
    update_media object (set_private (set_cell (g_value_get_pointer value))) w
  else Abort.

(** The switch has the default case only. *)
Definition pitivi_timelinemedia_get_property (object : ptr) (property_id : Z)
    (w : World) : result (GValue * World) :=
  match property_id with
  | _ => Abort
  end.

Fixpoint set_properties (object : ptr) (props : list (Z * GValue)) (w : World)
    : result World :=
  match props with
  | [] => Ok w
  | (id, v) :: rest =>
      w ← pitivi_timelinemedia_set_property object id v w;
      set_properties object rest w
  end.

(** ** Construction *)

(** The instance as the toolkit hands it to [instance_init]: zero-filled
    members, the allocation and size request of a new GtkWidget. *)
Definition new_instance : PitiviTimelineMedia :=
  mkMedia (mkAlloc (-1) (-1) 1 1) None (-1, -1) false None None
    (mkPrivate None None None None None 0 0 0 false).

Definition pitivi_timelinemedia_instance_init (instance : ptr) (w : World) : World :=
  let w := put_media instance new_instance w in
  let w := log (DragSourceSet instance) w in
  let w := log (SignalConnect instance "drag_begin") w in
  let w := log (SignalConnect instance "drag_data_get") w in
  let w := log (SignalConnect instance "drag_data_delete") w in
  log (ShowAll instance) w.

(** sprintf (name, "%s_%s_%lld", filename, mediatype, id) *)
Definition sprintf_name (filename mediatype : string) (id : Z) : string :=
  filename +:+ "_" +:+ mediatype +:+ "_" +:+ NilZero.string_of_int (Z.to_int id).

(** The name and its NUL fit the [strlen + strlen + 10] bytes allocated. *)
Definition name_fits (filename mediatype : string) (id : Z) : bool :=
  (String.length (sprintf_name filename mediatype id) + 1
   <=? String.length filename + String.length mediatype + 10)%nat.

(** The parent class's constructor allocates the instance, runs
    [instance_init] and sets the construct properties; the rest is the
    body of the function. *)
Definition pitivi_timelinemedia_constructor (construct_properties : list (Z * GValue))
    (w : World) : result (ptr * World) :=
  let object := fresh (dom (medias w)) in
  let w := pitivi_timelinemedia_instance_init object w in
  w ← set_properties object construct_properties w;
  self ← get_media object w;
  (* g_new0 and memcpy of the descriptor *)
  original ← deref (sf (private self));
  copy ← deref (srcfiles w !! original);
  let srcfile := fresh (dom (srcfiles w)) in
  let w := with_srcfiles (insert srcfile copy) w in
  c ← get_cell (cell (private self)) w;
  let id := nb_added c in
  let isaudio := bool_decide (track_type c = PITIVI_AUDIO_TRACK) in
  if decide (track_type c ≠ PITIVI_TRANSITION_TRACK) then
    filename ← get_chars (sf_filename copy) w;
    mediatype ← get_chars (sf_mediatype copy) w;
    if name_fits filename mediatype id then
      let '(gnlsource, w) :=
        gnl_source_new (sprintf_name filename mediatype id) (sf_pipeline copy) w in
      w ← gnl_object_set_media_start_stop (Some gnlsource) 0 (sf_length copy) w;
      w ← update_media object
            (set_sourceitem (Some (mkSourceItem id (Some srcfile) (Some gnlsource) isaudio))) w;
      Ok (object, w)
    else Undefined
  else
    w ← update_media object
          (set_sourceitem (Some (mkSourceItem id (Some srcfile) None isaudio))) w;
    Ok (object, w).

(** [g_object_new]: the construct properties go through the constructor,
    the others are set on the constructed object. *)
Definition g_object_new (args : list (string * GValue)) (w : World)
    : result (ptr * World) :=
  let known := omap (fun '(name, v) => (fun ps => (ps, v)) <$> find_property name) args in
  let ids := List.map (fun '(ps, v) => (pspec_id ps, v)) in
  let early := List.filter (fun '(ps, _) => at_construction ps) known in
  let late := List.filter (fun '(ps, _) => negb (at_construction ps)) known in
  '(object, w) ← pitivi_timelinemedia_constructor (ids early) w;
  w ← set_properties object (ids late) w;
  Ok (object, w).

Section Media.
Context `{Externals}.

Definition pitivi_timelinemedia_new (sf cell : option ptr) (w : World)
    : result (ptr * World) :=
  let type :=
    match sf with
    | Some s => check_media_type w s
    | None => PITIVI_NO_TRACK
    end in
  '(timelinemedia, w) ←
    g_object_new [ ("source_file", GPointer sf);
                   ("media_type", GInt (layer_code type));
                   ("cell", GPointer cell) ] w;
  w ← update_cell cell (fun c => set_nb_added (nb_added c + 1) c) w;
  Ok (timelinemedia, w).

(** ** Timeline passthrough *)

Definition pitivi_timelinemedia_set_start_stop (media : ptr) (start stop : Z)
    (w : World) : result World :=
  g ← gnlsource_of media w;
  gnl_object_set_start_stop g start stop w.

Definition pitivi_timelinemedia_put (media : ptr) (start : Z) (w : World)
    : result World :=
  g ← gnlsource_of media w;
  '(mstart, mstop) ← gnl_object_get_media_start_stop g w;
  t ← gint64_add start mstop;
  stop ← gint64_sub t mstart;
  gnl_object_set_start_stop g start stop w.

Definition pitivi_timelinemedia_set_media_start_stop (media : ptr) (start stop : Z)
    (w : World) : result World :=
  g ← gnlsource_of media w;
  gnl_object_set_media_start_stop g start stop w.

Definition pitivi_timelinemedia_set_priority (media : ptr) (priority : Z)
    (w : World) : result World :=
  g ← gnlsource_of media w;
  gnl_object_set_priority g priority w.

(** ** Destruction *)

(** The flag makes the handler run once; the first run chains to the
    dispose handler of the parent class. *)
Definition pitivi_timelinemedia_dispose (object : ptr) (w : World) : World :=
  match medias w !! object with
  | Some self =>
      if dispose_has_run (private self) then w
      else
        let w := put_media object (set_private (set_dispose_has_run true) self) w in
        gtk_widget_dispose object w
  | None => w
  end.


(** [gtk_widget_destroy] runs the dispose handler of the widget's class.
    The finalize handler runs when the last reference to the widget is
    dropped.  The references are counted by the toolkit and are no part
    of the state here: the count reaches zero at the end of the call
    when the container held the only reference, and later when another
    holder remains, as the dispatcher of an event is while its handler
    runs.  [gtk_widget_destroy] returns the state after dispose, in which
    the destroyed clip is disposed and still allocated;
    [pitivi_timelinemedia_finalize] is the step that follows it. *)
Definition gtk_widget_destroy (widget : ptr) (w : World) : World :=
  pitivi_timelinemedia_dispose widget (log (Destroy widget) w).

(** ** Pointer and keyboard events *)

(** self->selected = b; if (self->linked) linked->selected = b; *)
Definition select_pair (widget : ptr) (b : bool) (w : World) : result World :=
  w ← update_media widget (set_selected b) w;
  self ← get_media widget w;
  match linked self with
  | Some l => update_media l (set_selected b) w
  | None => Ok w
  end.

(** Modelled from the spec: [create_menupopup], a function of another
    file, builds the context menu of the table it is given; the menu is
    kept as that table. *)
Definition pitivi_timelinemedia_button_press_event (widget : ptr)
    (event : GdkEventButton) (w : World) : result (bool * World) :=
  match cursor w with
  | PITIVI_CURSOR_SELECT =>
      if decide (button event = 1) then
        self ← get_media widget w;
        w ← (if negb (selected self) then
               let w := g_signal_emit_by_name (toplevel_deselect widget) w in
               select_pair widget true w
             else select_pair widget false w);
        let w := gtk_widget_grab_focus widget w in
        let w := pitivi_send_expose_event widget w in
        self ← get_media widget w;
        match linked self with
        | Some l => Ok (true, pitivi_send_expose_event l w)
        | None => Ok (true, w)
        end
      else
        w ← update_media widget (set_private (set_menu (Some TimeItemPopup))) w;
        Ok (true, log (MenuPopup widget (button event) (button_time event)) w)
  | _ => Ok (true, w)
  end.

Definition bump_nb_added (container : option ptr) (w : World) : result World :=
  update_cell container (fun c => set_nb_added (nb_added c + 1) c) w.

(** The mirrored half of a split, on [container->linked_track]. *)
Definition split_linked (container : option ptr) (media0 l : ptr)
    (pos width : Z) (cut : gdouble) (w : World) : result World :=
  sibling ← get_media l w;
  si ← deref (sourceitem sibling);
  '(media1, w) ← pitivi_timelinemedia_new (si_srcfile si) container w;
  c ← get_cell container w;
  w ← gtk_layout_put (linked_track c) media1 (guint_to_gint pos) 0 w;
  w ← gtk_widget_set_size_request media1 (guint_to_gint width) FIXED_HEIGHT w;
  let w := gtk_widget_show media1 w in
  cutw ← gdouble_to_gint cut;
  w ← gtk_widget_set_size_request l cutw FIXED_HEIGHT w;
  w ← update_media media1 (set_linked (Some media0)) w;
  w ← update_media media0 (set_linked (Some media1)) w;
  bump_nb_added container w.

(** The new half on the clip's own track, and the clip cut short. *)
Definition split_self (container : option ptr) (widget : ptr) (srcfile : option ptr)
    (pos width : Z) (cut : gdouble) (w : World) : result (ptr * World) :=
  '(media0, w) ← pitivi_timelinemedia_new srcfile container w;
  w ← gtk_layout_put container media0 (guint_to_gint pos) 0 w;
  w ← gtk_widget_set_size_request media0 (guint_to_gint width) FIXED_HEIGHT w;
  let w := gtk_widget_show media0 w in
  cutw ← gdouble_to_gint cut;
  w ← gtk_widget_set_size_request widget cutw FIXED_HEIGHT w;
  w ← bump_nb_added container w;
  Ok (media0, w).

(** The body of the cut branch, up to the emission of "source-cut". *)
Definition split (container : option ptr) (widget : ptr) (event : GdkEventButton)
    (w : World) : result World :=
  self ← get_media widget w;
  t ← gdouble_add (gdouble_of_gint (alloc_x (allocation self))) (button_x event);
  t ← gdouble_add t 2%Q;
  pos ← gdouble_to_guint t;
  cut ← gdouble_add (button_x event) 2%Q;
  t ← gdouble_sub (gdouble_of_gint (alloc_width (allocation self))) cut;
  width ← gdouble_to_guint t;
  si ← deref (sourceitem self);
  '(media0, w) ← split_self container widget (si_srcfile si) pos width cut w;
  self ← get_media widget w;
  match linked self with
  | Some l => split_linked container media0 l pos width cut w
  | None => Ok w
  end.

Definition pitivi_timelinemedia_button_release_event (widget : ptr)
    (event : GdkEventButton) (w : World) : result (bool * World) :=
  match cursor w with
  | PITIVI_CURSOR_CUT =>
      self ← get_media widget w;
      let container := parent self in
      w ← split container widget event w;
      Ok (true, g_signal_emit_by_name (source_cut container (button_x event) widget) w)
  | _ => Ok (true, w)
  end.

(** ** Signal handlers and popup callbacks

    The [data] argument of the popup callbacks is never read and is left
    out; so is the event of the key-release handler's call to the delete
    callback. *)

Definition pitivi_timelinemedia_callb_select (self : ptr) (w : World) : result World :=
  Ok w.

Definition pitivi_timelinemedia_callb_deselect (self : ptr) (w : World) : result World :=
  w ← update_media self (set_selected false) w;
  Ok (pitivi_send_expose_event self w).

(** [PITIVI_IS_TIMELINEMEDIA (self)] holds of the live clip widgets. *)
Definition pitivi_timelinemedia_callb_dissociate (self : ptr) (w : World)
    : result World :=
  match medias w !! self with
  | Some s =>
      match linked s with
      | Some l =>
          if selected s then
            w ← update_media l (set_selected false) w;
            let w := pitivi_send_expose_event l w in
            w ← update_media l (set_linked None) w;
            update_media self (set_linked None) w
          else Ok w
      | None => Ok w
      end
  | None => Ok w
  end.

Definition pitivi_timelinemedia_callb_destroy (self : ptr) (w : World) : result World :=
  s ← get_media self w;
  if selected s then
    let w :=
      match linked s with
      | Some l => gtk_widget_destroy l w
      | None => w
      end in
    Ok (gtk_widget_destroy self w)
  else Ok w.

Definition pitivi_timelinemedia_callb_key_release_event (widget : ptr)
    (event : GdkEventKey) (w : World) : result (bool * World) :=
  w ← pitivi_timelinemedia_callb_destroy widget w;
  Ok (true, w).

End Media.

(** ** Motion and configure events *)

Record GdkEventMotion : Type := mkMotion {
  motion_x : gdouble;
  motion_time : Z
}.

(** event->x += widget->allocation.x; the event is changed in place and
    handed on. *)
Definition pitivi_timelinemedia_motion_notify_event (widget : ptr)
    (event : GdkEventMotion) (w : World) : result (bool * GdkEventMotion) :=
  self ← get_media widget w;
  x ← gdouble_add (motion_x event) (gdouble_of_gint (alloc_x (allocation self)));
  Ok (false, mkMotion x (motion_time event)).

(** self->private->cursor_type = cursor->type; *)
Definition pitivi_timelinemedia_configure_event (widget : ptr) (w : World)
    : result (bool * World) :=
  w ← update_media widget (set_private (set_cursor_type (Some (cursor w)))) w;
  Ok (false, w).

(** ** Stand-ins for the externals

    A concrete [Externals] to run the handlers on: the source descriptor
    is classified by its media tag, "deselect" on the toplevel clears the
    selection of every clip, "source-cut" finds no handler. *)

Definition layer_position (t : PitiviLayerType) : Z :=
  match t with
  | PITIVI_NO_TRACK => 0
  | PITIVI_VIDEO_TRACK => 1
  | PITIVI_AUDIO_TRACK => 2
  | PITIVI_EFFECTS_TRACK => 3
  | PITIVI_TRANSITION_TRACK => 4
  end.

Definition classify_by_tag (w : World) (s : ptr) : PitiviLayerType :=
  let tag :=
    match srcfiles w !! s with
    | Some d => match sf_mediatype d with Some a => chars w !! a | None => None end
    | None => None
    end in
  match tag with
  | Some tag =>
      if String.eqb tag "video" then PITIVI_VIDEO_TRACK
      else if String.eqb tag "audio" then PITIVI_AUDIO_TRACK
      else if String.eqb tag "effect" then PITIVI_EFFECTS_TRACK
      else if String.eqb tag "transition" then PITIVI_TRANSITION_TRACK
      else PITIVI_NO_TRACK
  | None => PITIVI_NO_TRACK
  end.

Definition deselect_all (w : World) : World :=
  with_medias (fmap (set_selected false)) w.

Definition demo_handlers (s : Signal) (w : World) : World :=
  match s with
  | toplevel_deselect _ => deselect_all w
  | source_cut _ _ _ => w
  end.

Definition demo_externals : Externals :=
  Build_Externals 50 layer_position classify_by_tag demo_handlers.

(** A video track (1) and an audio track (2) linked to each other, a
    transition track (3); the file "a.avi" imported as "video"
    (descriptor 1) and as "transition" (descriptor 2). *)
Definition demo_cells : gmap ptr PitiviTimelineCellRenderer :=
  <[1%positive := mkCell PITIVI_VIDEO_TRACK 0 (Some 2%positive) []]>
    (<[2%positive := mkCell PITIVI_AUDIO_TRACK 0 (Some 1%positive) []]>
       (<[3%positive := mkCell PITIVI_TRANSITION_TRACK 0 None []]> ∅)).

Definition demo_chars : gmap ptr string :=
  <[1%positive := "a.avi"]> (<[2%positive := "video"]> (<[3%positive := "transition"]> ∅)).

Definition demo_srcfiles : gmap ptr PitiviSourceFile :=
  <[1%positive := mkSourceFile (Some 1%positive) (Some 2%positive) 1000 (Some 7%positive) None]>
    (<[2%positive := mkSourceFile (Some 1%positive) (Some 3%positive) 1000 None None]> ∅).

Definition empty_timeline (c : PitiviCursorType) : World :=
  mkWorld ∅ demo_cells demo_srcfiles demo_chars ∅ c [].

(** A clip of the given geometry, selection and link, on track [track],
    with engine object [g]. *)
Definition demo_clip (x width : Z) (track : ptr) (sel : bool) (l : option ptr) (g : ptr)
    : PitiviTimelineMedia :=
  mkMedia (mkAlloc x 0 width 50) (Some track) (width, 50) sel l
    (Some (mkSourceItem 0 (Some 1%positive) (Some g) false))
    (mkPrivate None (Some track) (Some 1%positive) None None 1 0 0 false).

Definition demo_gnl : gmap ptr GnlObject :=
  <[1%positive := mkGnl "a.avi_video_0" (Some 7%positive) None (Some (0, 1000)) None]>
    (<[2%positive := mkGnl "a.avi_video_0" (Some 7%positive) None (Some (0, 1000)) None]> ∅).

(** Clip 1 on the video track and clip 2 on the audio track, linked to
    each other, both with the selection [sel]. *)
Definition linked_pair (sel : bool) (c : PitiviCursorType) : World :=
  mkWorld
    (<[1%positive := demo_clip 0 100 1%positive sel (Some 2%positive) 1%positive]>
       (<[2%positive := demo_clip 0 100 2%positive sel (Some 1%positive) 2%positive]> ∅))
    demo_cells demo_srcfiles demo_chars demo_gnl c [].

(** Clip 1 alone on the video track. *)
Definition single_clip (sel : bool) (c : PitiviCursorType) : World :=
  mkWorld (<[1%positive := demo_clip 0 100 1%positive sel None 1%positive]> ∅)
    demo_cells demo_srcfiles demo_chars demo_gnl c [].

(** Clips 1 and 2 linked and unselected, clip 3 alone and selected. *)
Definition three_clips : World :=
  mkWorld
    (<[1%positive := demo_clip 0 100 1%positive false (Some 2%positive) 1%positive]>
       (<[2%positive := demo_clip 0 100 2%positive false (Some 1%positive) 2%positive]>
          (<[3%positive := demo_clip 200 100 1%positive true None 1%positive]> ∅)))
    demo_cells demo_srcfiles demo_chars demo_gnl PITIVI_CURSOR_SELECT [].


(** The linked pair of [linked_pair], in cut mode, on tracks of which the
    video track is linked to the transition track and not to the audio
    track, where clip 2 sits. *)
Definition crossed_tracks : World :=
  mkWorld
    (<[1%positive := demo_clip 0 100 1%positive false (Some 2%positive) 1%positive]>
       (<[2%positive := demo_clip 0 100 2%positive false (Some 1%positive) 2%positive]> ∅))
    (<[1%positive := mkCell PITIVI_VIDEO_TRACK 0 (Some 3%positive) []]> demo_cells)
    demo_srcfiles demo_chars demo_gnl PITIVI_CURSOR_CUT [].

(** The binary64 value nearest to 0.1. *)
Definition tenth : gdouble := 3602879701896397 # 36028797018963968.

(** ** Observations

    What the statements below look at: whether a clip has run its dispose
    handler, the clip and the world a construction leaves, the file name a
    clip reads through its copy of the descriptor, the values a cut
    computes from the pointer offset, and whether every link is answered. *)

Definition disposed (p : ptr) (w : World) : Prop :=
  (dispose_has_run ∘ private) <$> medias w !! p = Some true.


(** The clip [pitivi_timelinemedia_new] builds, and the world it leaves. *)
Definition constructed (sf cell : option ptr) (type : Z) (si : PitiviSourceItem)
    : PitiviTimelineMedia :=
  mkMedia (mkAlloc (-1) (-1) 1 1) None (-1, -1) false None (Some si)
    (mkPrivate None cell sf None None type 0 0 false).

Definition init_calls (p : ptr) : list Call :=
  [ DragSourceSet p; SignalConnect p "drag_begin"; SignalConnect p "drag_data_get";
    SignalConnect p "drag_data_delete"; ShowAll p ].

Definition engine_object (filename mediatype : string) (d : PitiviSourceFile) (id : Z)
    : GnlObject :=
  mkGnl (sprintf_name filename mediatype id) (sf_pipeline d) None
    (Some (0, sf_length d)) None.

Section Shapes.
Context `{Externals}.

Definition new_clip (s cp : ptr) (c : PitiviTimelineCellRenderer) (g : option ptr)
    (w : World) : PitiviTimelineMedia :=
  constructed (Some s) (Some cp) (layer_code (check_media_type w s))
    (mkSourceItem (nb_added c) (Some (fresh (dom (srcfiles w)))) g
       (bool_decide (track_type c = PITIVI_AUDIO_TRACK))).

Definition after_new (s cp : ptr) (d : PitiviSourceFile) (c : PitiviTimelineCellRenderer)
    (g : option ptr) (engine : gmap ptr GnlObject) (w : World) : World :=
  mkWorld (<[fresh (dom (medias w)) := new_clip s cp c g w]> (medias w))
    (<[cp := set_nb_added (nb_added c + 1) c]> (cells w))
    (<[fresh (dom (srcfiles w)) := d]> (srcfiles w))
    (chars w) engine (cursor w)
    (calls w ++ init_calls (fresh (dom (medias w)))).

(** What the values computed from the pointer offset are. *)
Definition cut_values (a : PitiviTimelineMedia) (event : GdkEventButton)
    (pos width cutw : Z) : Prop :=
  ∃ t1 t2 cut t3,
    gdouble_add (gdouble_of_gint (alloc_x (allocation a))) (button_x event) = Ok t1 ∧
    gdouble_add t1 2%Q = Ok t2 ∧ gdouble_to_guint t2 = Ok pos ∧
    gdouble_add (button_x event) 2%Q = Ok cut ∧
    gdouble_sub (gdouble_of_gint (alloc_width (allocation a))) cut = Ok t3 ∧
    gdouble_to_guint t3 = Ok width ∧ gdouble_to_gint cut = Ok cutw.

End Shapes.

(** The file name a clip reads through its own copy of the descriptor:
    self->sourceitem->srcfile->filename. *)
Definition stored_filename (p : ptr) (w : World) : result string :=
  m ← get_media p w;
  si ← deref (sourceitem m);
  a ← deref (si_srcfile si);
  d ← deref (srcfiles w !! a);
  get_chars (sf_filename d) w.

(** Every link is answered: if p is linked to q then q is a live clip
    linked to p. *)
Definition symmetric_links (w : World) : Prop :=
  ∀ p q P, medias w !! p = Some P → linked P = Some q →
           ∃ Q, medias w !! q = Some Q ∧ linked Q = Some p.

(** * Properties *)

(** ** The outcome monad *)

Lemma bind_Ok {A B : Type} (f : A → result B) (r : result A) (b : B) :
  r ≫= f = Ok b ↔ ∃ a, r = Ok a ∧ f a = Ok b.
Proof.
  destruct r as [a| |]; simpl; split.
  - intros Hf. exists a. split; [reflexivity | exact Hf].
  - intros (a' & Ha & Hf). injection Ha as ->. exact Hf.
  - discriminate.
  - intros (a' & Ha & _). discriminate.
  - discriminate.
  - intros (a' & Ha & _). discriminate.
Qed.

Lemma deref_Ok {A : Type} (o : option A) (a : A) : deref o = Ok a ↔ o = Some a.
Proof. destruct o; simpl; split; congruence. Qed.

Lemma get_media_Ok (p : ptr) (w : World) (m : PitiviTimelineMedia) :
  get_media p w = Ok m ↔ medias w !! p = Some m.
Proof. apply deref_Ok. Qed.

Lemma update_cell_Ok (p : option ptr)
    (f : PitiviTimelineCellRenderer → PitiviTimelineCellRenderer) (w w' : World) :
  update_cell p f w = Ok w' ↔
  ∃ a c, p = Some a ∧ cells w !! a = Some c ∧ w' = with_cells (insert a (f c)) w.
Proof.
  unfold update_cell. rewrite bind_Ok. split.
  - intros (a & Ha & Hr). apply deref_Ok in Ha. apply bind_Ok in Hr as (c & Hc & Hw).
    apply deref_Ok in Hc. exists a, c. repeat split; congruence.
  - intros (a & c & -> & Hc & ->). exists a. split; [done |].
    apply bind_Ok. exists c. split; [by apply deref_Ok | done].
Qed.

(** ** Property access *)

(** C10. Reading a property always ends in the assertion failure: for
    every property id [pitivi_timelinemedia_get_property] aborts, and so
    it does on the three properties the class installs, each of them
    readable and writable, with the ids 1, 2 and 3. *)
Theorem get_property_always_aborts :
  (∀ (object : ptr) (property_id : Z) (w : World),
     pitivi_timelinemedia_get_property object property_id w = Abort) ∧
  List.map pspec_name pitivi_timelinemedia_class_init
    = ["media_type"; "source_file"; "cell"] ∧
  List.map pspec_id pitivi_timelinemedia_class_init = [1; 2; 3] ∧
  Forall (fun ps =>
            pspec_readable ps = true ∧ pspec_writable ps = true ∧
            ∀ (object : ptr) (w : World),
              pitivi_timelinemedia_get_property object (pspec_id ps) w = Abort)
         pitivi_timelinemedia_class_init.
Proof.
  split; [reflexivity |].
  split; [reflexivity |].
  split; [reflexivity |].
  repeat constructor.
Qed.

(** ** Destruction *)

Lemma set_parent_None_id (m : PitiviTimelineMedia) :
  parent m = None → set_parent None m = m.
Proof. destruct m. simpl. by intros ->. Qed.

(** The first dispose of a clip, written out. *)
Lemma pitivi_timelinemedia_dispose_first (object : ptr) (m : PitiviTimelineMedia)
    (w : World) :
  medias w !! object = Some m → dispose_has_run (private m) = false →
  pitivi_timelinemedia_dispose object w
  = mkWorld
      (<[object := set_parent None (set_private (set_dispose_has_run true) m)]> (medias w))
      (match parent m with
       | Some c => alter (remove_child object) c (cells w)
       | None => cells w
       end)
      (srcfiles w) (chars w) (gnl w) (cursor w) (calls w).
Proof.
  intros Hm Hd. unfold pitivi_timelinemedia_dispose. rewrite Hm, Hd.
  unfold gtk_widget_dispose, put_media, with_medias, with_cells. simpl.
  rewrite lookup_insert_eq. simpl.
  destruct (parent m) as [c|] eqn:Hp; simpl.
  - by rewrite insert_insert_eq.
  - f_equal. f_equal. symmetry. by apply set_parent_None_id.
Qed.

Lemma pitivi_timelinemedia_dispose_again (object : ptr) (m : PitiviTimelineMedia)
    (w : World) :
  medias w !! object = Some m → dispose_has_run (private m) = true →
  pitivi_timelinemedia_dispose object w = w.
Proof. intros Hm Hd. unfold pitivi_timelinemedia_dispose. by rewrite Hm, Hd. Qed.

Lemma pitivi_timelinemedia_dispose_dangling (object : ptr) (w : World) :
  medias w !! object = None → pitivi_timelinemedia_dispose object w = w.
Proof. intros Hm. unfold pitivi_timelinemedia_dispose. by rewrite Hm. Qed.

(** The three cases of a dispose of [object] in [w], each with the
    disposed world written out: it has run before, it runs now, or
    [object] is no clip of the heap. *)
Ltac dispose_cases object w :=
  let m := fresh "m" in
  let Hm := fresh "Hm" in
  let Hd := fresh "Hd" in
  destruct (medias w !! object) as [m|] eqn:Hm;
  [ destruct (dispose_has_run (private m)) eqn:Hd;
    [ rewrite (pitivi_timelinemedia_dispose_again object m w Hm Hd)
    | rewrite (pitivi_timelinemedia_dispose_first object m w Hm Hd) ]
  | rewrite (pitivi_timelinemedia_dispose_dangling object w Hm) ].

Lemma calls_pitivi_timelinemedia_dispose (p : ptr) (w : World) :
  calls (pitivi_timelinemedia_dispose p w) = calls w.
Proof. dispose_cases p w; reflexivity. Qed.

Lemma calls_gtk_widget_destroy (p : ptr) (w : World) :
  calls (gtk_widget_destroy p w) = calls w ++ [Destroy p].
Proof. unfold gtk_widget_destroy. by rewrite calls_pitivi_timelinemedia_dispose. Qed.

Lemma disposed_gtk_widget_destroy (p : ptr) (w : World) :
  is_Some (medias w !! p) → disposed p (gtk_widget_destroy p w).
Proof.
  intros [m0 Hm0]. unfold disposed, gtk_widget_destroy.
  change (medias w !! p) with (medias (log (Destroy p) w) !! p) in Hm0.
  dispose_cases p (log (Destroy p) w); [| | congruence].
  - rewrite Hm. simpl. by rewrite Hd.
  - simpl. by rewrite lookup_insert_eq.
Qed.

Lemma disposed_stays (p q : ptr) (w : World) :
  disposed q w → disposed q (gtk_widget_destroy p w).
Proof.
  unfold disposed, gtk_widget_destroy. intros Hq.
  change (medias w) with (medias (log (Destroy p) w)) in Hq.
  dispose_cases p (log (Destroy p) w); [exact Hq | | exact Hq]. simpl.
  destruct (decide (p = q)) as [->|Hne].
  - by rewrite lookup_insert_eq.
  - by rewrite lookup_insert_ne.
Qed.

Lemma live_gtk_widget_destroy (p q : ptr) (w : World) :
  is_Some (medias w !! q) → is_Some (medias (gtk_widget_destroy p w) !! q).
Proof.
  unfold gtk_widget_destroy. intros Hq.
  change (medias w) with (medias (log (Destroy p) w)) in Hq.
  dispose_cases p (log (Destroy p) w); [exact Hq | | exact Hq]. simpl.
  destruct (decide (p = q)) as [->|Hne].
  - rewrite lookup_insert_eq. eauto.
  - by rewrite lookup_insert_ne.
Qed.

(** C7. Delete destroys exactly when the clip is selected: on an
    unselected clip the world is returned as it was (no widget is
    destroyed); on a selected clip the toolkit is asked to destroy the
    linked sibling first, when there is one, and then the clip, nothing
    else, and both have then run their dispose handler. *)
Theorem callb_destroy_exactly_when_selected
    (self : ptr) (s : PitiviTimelineMedia) (w : World) :
  medias w !! self = Some s →
  (selected s = false → pitivi_timelinemedia_callb_destroy self w = Ok w) ∧
  (selected s = true →
   ∃ w', pitivi_timelinemedia_callb_destroy self w = Ok w' ∧
     calls w' = calls w
                ++ match linked s with Some l => [Destroy l] | None => [] end
                ++ [Destroy self] ∧
     disposed self w' ∧
     ∀ l, linked s = Some l → is_Some (medias w !! l) → disposed l w').
Proof.
  intros Hs. unfold pitivi_timelinemedia_callb_destroy, get_media.
  rewrite Hs. simpl. split; intros Hsel; rewrite Hsel; [reflexivity |].
  eexists. split; [reflexivity |].
  destruct (linked s) as [l|].
  - rewrite !calls_gtk_widget_destroy, <- app_assoc. split; [reflexivity |].
    split.
    + apply disposed_gtk_widget_destroy, live_gtk_widget_destroy. eauto.
    + intros l' [= <-] Hl. by apply disposed_stays, disposed_gtk_widget_destroy.
  - rewrite calls_gtk_widget_destroy. split; [reflexivity |].
    split; [apply disposed_gtk_widget_destroy; eauto | discriminate].
Qed.

Lemma callb_destroy_exactly_when_selected_witness :
  pitivi_timelinemedia_callb_destroy 1%positive (linked_pair false PITIVI_CURSOR_SELECT)
    = Ok (linked_pair false PITIVI_CURSOR_SELECT) ∧
  ∃ w', pitivi_timelinemedia_callb_destroy 1%positive
          (linked_pair true PITIVI_CURSOR_SELECT) = Ok w' ∧
        calls w' = [Destroy 2%positive; Destroy 1%positive].
Proof.
  split.
  - apply (callb_destroy_exactly_when_selected 1%positive
             (demo_clip 0 100 1%positive false (Some 2%positive) 1%positive)
             (linked_pair false PITIVI_CURSOR_SELECT)); reflexivity.
  - destruct (callb_destroy_exactly_when_selected 1%positive
                (demo_clip 0 100 1%positive true (Some 2%positive) 1%positive)
                (linked_pair true PITIVI_CURSOR_SELECT) eq_refl) as [_ Hsel].
    destruct (Hsel eq_refl) as (w' & Hrun & Hcalls & _).
    exists w'. split; [exact Hrun | exact Hcalls].
Defined.

(** C8. The key-release handler is the delete operation, whatever key
    was released: it leaves the world exactly as
    [pitivi_timelinemedia_callb_destroy] does and, when that returns,
    reports the event as handled. *)
Theorem key_release_is_destroy (widget : ptr) (event : GdkEventKey) (w : World) :
  pitivi_timelinemedia_callb_key_release_event widget event w
  = (fun w' => (true, w')) <$> pitivi_timelinemedia_callb_destroy widget w.
Proof.
  unfold pitivi_timelinemedia_callb_key_release_event.
  destruct (pitivi_timelinemedia_callb_destroy widget w); reflexivity.
Qed.

(** ** Dissociate *)

(** C6. Dissociate changes the world only on a selected clip with a
    linked sibling: there it clears the sibling's selection, repaints the
    sibling (and nothing else) and sets [linked] to NULL on both sides,
    leaving every other clip and the rest of the world as they were; on
    an unselected or unlinked clip it returns the world as it was, so
    nothing is repainted. *)
Theorem callb_dissociate_only_selected_linked
    (self : ptr) (s : PitiviTimelineMedia) (w : World) :
  medias w !! self = Some s →
  (selected s = false ∨ linked s = None →
   pitivi_timelinemedia_callb_dissociate self w = Ok w) ∧
  (∀ l sl, selected s = true → linked s = Some l → medias w !! l = Some sl →
   ∃ w', pitivi_timelinemedia_callb_dissociate self w = Ok w' ∧
     medias w' !! l = Some (set_linked None (set_selected false sl)) ∧
     linked <$> medias w' !! self = Some None ∧
     (self ≠ l → medias w' !! self = Some (set_linked None s)) ∧
     (∀ p, p ≠ self → p ≠ l → medias w' !! p = medias w !! p) ∧
     calls w' = calls w ++ [Expose l] ∧
     cells w' = cells w ∧ srcfiles w' = srcfiles w ∧ chars w' = chars w ∧
     gnl w' = gnl w ∧ cursor w' = cursor w).
Proof.
  intros Hs. unfold pitivi_timelinemedia_callb_dissociate. rewrite Hs. split.
  - intros [Hsel | Hl].
    + rewrite Hsel. by destruct (linked s).
    + by rewrite Hl.
  - intros l sl Hsel Hl Hsl. rewrite Hl, Hsel.
    unfold update_media, get_media. rewrite Hsl. simpl.
    rewrite lookup_insert_eq. simpl.
    destruct (decide (self = l)) as [->|Hne].
    + rewrite lookup_insert_eq. simpl. eexists. split; [reflexivity |]. simpl.
      rewrite !lookup_insert_eq. repeat split; try done.
      intros p Hp _. by rewrite !lookup_insert_ne.
    + rewrite !lookup_insert_ne, Hs by done. simpl. eexists.
      split; [reflexivity |]. simpl.
      rewrite lookup_insert_eq, lookup_insert_ne, lookup_insert_eq by done.
      repeat split; try done.
      intros p Hp Hpl. by rewrite !lookup_insert_ne.
Qed.

Lemma callb_dissociate_only_selected_linked_witness :
  pitivi_timelinemedia_callb_dissociate 1%positive (single_clip true PITIVI_CURSOR_SELECT)
    = Ok (single_clip true PITIVI_CURSOR_SELECT) ∧
  ∃ w', pitivi_timelinemedia_callb_dissociate 1%positive
          (linked_pair true PITIVI_CURSOR_SELECT) = Ok w' ∧
        medias w' !! 2%positive
          = Some (demo_clip 0 100 2%positive false None 2%positive) ∧
        calls w' = [Expose 2%positive].
Proof.
  split.
  - apply (callb_dissociate_only_selected_linked 1%positive
             (demo_clip 0 100 1%positive true None 1%positive)
             (single_clip true PITIVI_CURSOR_SELECT) eq_refl).
    right. reflexivity.
  - destruct (callb_dissociate_only_selected_linked 1%positive
                (demo_clip 0 100 1%positive true (Some 2%positive) 1%positive)
                (linked_pair true PITIVI_CURSOR_SELECT) eq_refl) as [_ Hrun].
    destruct (Hrun 2%positive (demo_clip 0 100 2%positive true (Some 1%positive) 2%positive)
                eq_refl eq_refl eq_refl) as (w' & Hw' & Hl & _ & _ & _ & Hcalls & _).
    exists w'. split; [exact Hw' |]. split; [exact Hl | exact Hcalls].
Defined.

(** ** Timeline passthrough *)

(** The claim of C9 fails where the sum leaves the 64-bit range: the clip
    of [single_clip] has the media offsets (0, 1000), and put at
    G_MAXINT64 would have to set the stop G_MAXINT64 + 1000; the addition
    [start + mstop] overflows and no play interval is set. *)
Lemma put_overflow_counterexample :
  gnl_object_get_media_start_stop (Some 1%positive)
    (single_clip false PITIVI_CURSOR_SELECT) = Ok (0, 1000) ∧
  pitivi_timelinemedia_put 1%positive G_MAXINT64
    (single_clip false PITIVI_CURSOR_SELECT) = Undefined ∧
  ¬ ∃ w', pitivi_timelinemedia_put 1%positive G_MAXINT64
            (single_clip false PITIVI_CURSOR_SELECT) = Ok w' ∧
          gnl_start_stop <$> gnl w' !! 1%positive
            = Some (Some (G_MAXINT64, G_MAXINT64 + (1000 - 0))).
Proof.
  split; [reflexivity |]. split; [reflexivity |].
  intros (w' & Hput & _). discriminate Hput.
Qed.

(** C9 (amended). For a clip whose engine object has the media offsets
    (mstart, mstop) and a position s such that s + mstop and
    s + mstop - mstart fit a signed 64-bit integer, put sets the play
    interval of that object to [s, s + (mstop - mstart)], of length
    mstop - mstart, and changes nothing else: the media offsets, the other
    engine objects and the rest of the world are as before. *)
Theorem put_keeps_media_length
    (media g : ptr) (o : GnlObject) (mstart mstop s : Z) (w : World) :
  gnlsource_of media w = Ok (Some g) →
  gnl w !! g = Some o →
  gnl_media_start_stop o = Some (mstart, mstop) →
  in_gint64 (s + mstop) = true →
  in_gint64 (s + mstop - mstart) = true →
  ∃ w' o',
    pitivi_timelinemedia_put media s w = Ok w' ∧
    gnl w' = <[g := o']> (gnl w) ∧
    gnl_start_stop o' = Some (s, s + (mstop - mstart)) ∧
    (∀ a b, gnl_start_stop o' = Some (a, b) → b - a = mstop - mstart) ∧
    gnl_media_start_stop o' = Some (mstart, mstop) ∧
    gnl_name o' = gnl_name o ∧ gnl_pipeline o' = gnl_pipeline o ∧
    gnl_priority o' = gnl_priority o ∧
    medias w' = medias w ∧ cells w' = cells w ∧ srcfiles w' = srcfiles w ∧
    chars w' = chars w ∧ cursor w' = cursor w ∧ calls w' = calls w.
Proof.
  intros Hg Ho Hm H1 H2.
  exists (with_gnl (insert g (with_gnl_start_stop (s, s + mstop - mstart) o)) w),
         (with_gnl_start_stop (s, s + mstop - mstart) o).
  split.
  - unfold pitivi_timelinemedia_put. rewrite Hg. simpl.
    unfold gnl_object_get_media_start_stop. simpl. rewrite Ho. simpl.
    rewrite Hm. simpl. unfold gint64_add. rewrite H1. simpl.
    unfold gint64_sub. rewrite H2. simpl.
    unfold gnl_object_set_start_stop, update_gnl. simpl. by rewrite Ho.
  - simpl. repeat split; try done.
    + f_equal. f_equal. lia.
    + intros a b [= <- <-]. lia.
Qed.

Lemma put_keeps_media_length_witness :
  ∃ w' o',
    pitivi_timelinemedia_put 1%positive 250 (single_clip false PITIVI_CURSOR_SELECT)
      = Ok w' ∧
    gnl w' !! 1%positive = Some o' ∧
    gnl_start_stop o' = Some (250, 1250) ∧
    gnl_media_start_stop o' = Some (0, 1000).
Proof.
  destruct (put_keeps_media_length 1%positive 1%positive
              (mkGnl "a.avi_video_0" (Some 7%positive) None (Some (0, 1000)) None)
              0 1000 250 (single_clip false PITIVI_CURSOR_SELECT)
              eq_refl eq_refl eq_refl eq_refl eq_refl)
    as (w' & o' & Hput & Hgnl & Hplay & _ & Hmedia & _).
  exists w', o'. split; [exact Hput |]. split.
  - rewrite Hgnl. apply lookup_insert_eq.
  - split; [exact Hplay | exact Hmedia].
Defined.

(** ** Selection of a linked pair *)

(** The claim of C1 fails for the deselect handler: on the linked pair
    (1, 2), both selected, the handler run on clip 1 clears the selection
    of clip 1 and leaves clip 2 selected. *)
Lemma deselect_leaves_sibling_selected :
  linked <$> medias (linked_pair true PITIVI_CURSOR_SELECT) !! 1%positive
    = Some (Some 2%positive) ∧
  ∃ w', pitivi_timelinemedia_callb_deselect 1%positive
          (linked_pair true PITIVI_CURSOR_SELECT) = Ok w' ∧
        selected <$> medias w' !! 1%positive = Some false ∧
        selected <$> medias w' !! 2%positive = Some true.
Proof.
  split; [reflexivity |]. eexists. split; [reflexivity |]. split; reflexivity.
Qed.

Lemma select_pair_Ok (A : ptr) (b : bool) (w w' : World) :
  select_pair A b w = Ok w' →
  ∃ a a', medias w !! A = Some a ∧ medias w' !! A = Some a' ∧
    selected a' = b ∧ linked a' = linked a ∧
    (∀ B, linked a = Some B → ∃ b', medias w' !! B = Some b' ∧ selected b' = b) ∧
    calls w' = calls w.
Proof.
  unfold select_pair, update_media, get_media.
  destruct (medias w !! A) as [a|] eqn:Ha; simpl; [| discriminate].
  rewrite lookup_insert_eq. simpl.
  destruct (linked a) as [l|] eqn:Hl.
  - destruct (decide (l = A)) as [->|Hne].
    + rewrite lookup_insert_eq. simpl. intros [= <-]. simpl.
      eexists _, _. split; [done |]. rewrite lookup_insert_eq. split; [done |].
      repeat split; try done.
      intros B HB. rewrite Hl in HB. injection HB as <-.
      rewrite lookup_insert_eq. eauto.
    + rewrite lookup_insert_ne by done.
      destruct (medias w !! l) as [sl|] eqn:Hsl; simpl; [| discriminate].
      intros [= <-]. simpl.
      eexists _, _. split; [done |].
      rewrite lookup_insert_ne, lookup_insert_eq by done. split; [done |].
      repeat split; try done.
      intros B HB. rewrite Hl in HB. injection HB as <-.
      rewrite lookup_insert_eq. eauto.
  - intros [= <-]. simpl.
    eexists _, _. split; [done |]. rewrite lookup_insert_eq. split; [done |].
    repeat split; try done.
    intros B HB. congruence.
Qed.

Section Selection.
Context `{Externals}.

(** C1 (amended). The deselect handler run on a clip A clears the
    selection of A, repaints A and leaves every other clip, a linked
    sibling included, as it was.  A primary-button press in select mode
    on A toggles the selection of A and gives the clip that A is linked
    to the same selection as A; that clip is the one A was linked to
    before the press when A was selected (no signal is emitted) or when
    the handlers of "deselect" leave the link of A alone. *)
Theorem selected_pair_after_deselect_and_press
    (A : ptr) (a : PitiviTimelineMedia) (w : World) :
  medias w !! A = Some a →
  (∃ w', pitivi_timelinemedia_callb_deselect A w = Ok w' ∧
     medias w' !! A = Some (set_selected false a) ∧
     (∀ p, p ≠ A → medias w' !! p = medias w !! p) ∧
     calls w' = calls w ++ [Expose A]) ∧
  (∀ event r w',
     cursor w = PITIVI_CURSOR_SELECT → button event = 1 →
     pitivi_timelinemedia_button_press_event A event w = Ok (r, w') →
     ∃ a', medias w' !! A = Some a' ∧ selected a' = negb (selected a) ∧
       (∀ B, linked a' = Some B →
             ∃ b', medias w' !! B = Some b' ∧ selected b' = selected a') ∧
       (selected a = true ∨
        linked <$> medias (g_signal_emit_by_name (toplevel_deselect A) w) !! A
          = Some (linked a) →
        linked a' = linked a)).
Proof.
  intros Ha. split.
  - unfold pitivi_timelinemedia_callb_deselect, update_media, get_media.
    rewrite Ha. simpl. eexists. split; [reflexivity |]. simpl.
    rewrite lookup_insert_eq. repeat split; try done.
    intros p Hp. by rewrite lookup_insert_ne.
  - intros event r w' Hcur Hbut.
    unfold pitivi_timelinemedia_button_press_event. rewrite Hcur.
    destruct (decide (button event = 1)) as [_|]; [| done].
    intros Hrun. apply bind_Ok in Hrun as (self & Hself & Hrun).
    apply get_media_Ok in Hself. rewrite Ha in Hself. injection Hself as <-.
    apply bind_Ok in Hrun as (w1 & Hpair & Hrest).
    set (w0 := if selected a then w
               else g_signal_emit_by_name (toplevel_deselect A) w).
    assert (∃ a0 a1, medias w0 !! A = Some a0 ∧
              medias w1 !! A = Some a1 ∧ selected a1 = negb (selected a) ∧
              linked a1 = linked a0 ∧
              ∀ B, linked a0 = Some B →
                   ∃ b', medias w1 !! B = Some b' ∧ selected b' = negb (selected a))
      as (a0 & a1 & Ha0 & Ha1 & Hsel & Hlink & Hsib).
    { unfold w0. destruct (selected a); simpl in Hpair;
        apply select_pair_Ok in Hpair as (a0 & a1 & ? & ? & ? & ? & ? & _);
        exists a0, a1; done. }
    unfold get_media in Hrest. simpl in Hrest. rewrite Ha1 in Hrest. simpl in Hrest.
    exists a1.
    assert (medias w' !! A = Some a1 ∧
            ∀ B, linked a1 = Some B →
                 ∃ b', medias w' !! B = Some b' ∧ selected b' = selected a1)
      as [Hw'A Hw'B].
    { destruct (linked a1) as [l|] eqn:Hl; injection Hrest as _ <-; simpl.
      - split; [done |]. intros B [= <-]. rewrite Hsel. apply Hsib. congruence.
      - split; [done | discriminate]. }
    split; [done |]. split; [done |]. split; [done |].
    intros Hsame. rewrite Hlink. unfold w0 in Ha0.
    destruct Hsame as [Hsel1 | Hkept].
    + rewrite Hsel1 in Ha0. congruence.
    + destruct (selected a); [congruence |].
      rewrite Ha0 in Hkept. by injection Hkept.
Qed.

End Selection.

Lemma selected_pair_after_deselect_and_press_witness :
  (∃ w', pitivi_timelinemedia_callb_deselect 1%positive
           (linked_pair true PITIVI_CURSOR_SELECT) = Ok w' ∧
         selected <$> medias w' !! 2%positive = Some true) ∧
  (∃ r w' a' b',
     pitivi_timelinemedia_button_press_event (H := demo_externals) 1%positive
       (mkButton 1 (5 # 1) 0) (linked_pair false PITIVI_CURSOR_SELECT) = Ok (r, w') ∧
     medias w' !! 1%positive = Some a' ∧ linked a' = Some 2%positive ∧
     medias w' !! 2%positive = Some b' ∧
     selected a' = true ∧ selected b' = true).
Proof.
  split.
  - destruct (selected_pair_after_deselect_and_press (H := demo_externals) 1%positive
                (demo_clip 0 100 1%positive true (Some 2%positive) 1%positive)
                (linked_pair true PITIVI_CURSOR_SELECT) eq_refl)
      as [(w' & Hrun & _ & Hframe & _) _].
    exists w'. split; [exact Hrun |]. by rewrite Hframe.
  - destruct (selected_pair_after_deselect_and_press (H := demo_externals) 1%positive
                (demo_clip 0 100 1%positive false (Some 2%positive) 1%positive)
                (linked_pair false PITIVI_CURSOR_SELECT) eq_refl) as [_ Hpress].
    destruct (pitivi_timelinemedia_button_press_event (H := demo_externals) 1%positive
                (mkButton 1 (5 # 1) 0) (linked_pair false PITIVI_CURSOR_SELECT))
      as [[r w']| |] eqn:Hrun; [| vm_compute in Hrun; discriminate Hrun ..].
    destruct (Hpress (mkButton 1 (5 # 1) 0) r w' eq_refl eq_refl Hrun)
      as (a' & Ha' & Hsel & Hsib & _).
    assert (linked a' = Some 2%positive) as Hl.
    { vm_compute in Hrun. injection Hrun as _ <-. vm_compute in Ha'.
      injection Ha' as <-. reflexivity. }
    destruct (Hsib 2%positive Hl) as (b' & Hb' & Hsb).
    exists r, w', a', b'. split; [reflexivity |].
    split; [exact Ha' |]. split; [exact Hl |]. split; [exact Hb' |].
    split; [exact Hsel | by rewrite Hsb, Hsel].
Defined.

(** ** Construction *)

Ltac world_simpl :=
  unfold put_media, with_medias, with_cells, with_srcfiles, with_chars, with_gnl, log,
    gtk_widget_show, gtk_widget_grab_focus, pitivi_send_expose_event in *;
  simpl in *.

Lemma update_media_hit (p : ptr) (f : PitiviTimelineMedia → PitiviTimelineMedia)
    (m : PitiviTimelineMedia) (w : World) :
  medias w !! p = Some m → update_media p f w = Ok (put_media p (f m) w).
Proof. intros Hm. unfold update_media, get_media. by rewrite Hm. Qed.

Lemma update_cell_hit (a : ptr)
    (f : PitiviTimelineCellRenderer → PitiviTimelineCellRenderer)
    (c : PitiviTimelineCellRenderer) (w : World) :
  cells w !! a = Some c → update_cell (Some a) f w = Ok (with_cells (insert a (f c)) w).
Proof. intros Hc. unfold update_cell. simpl. by rewrite Hc. Qed.

Lemma length_append (a b : string) :
  String.length (a +:+ b) = (String.length a + String.length b)%nat.
Proof. induction a as [|ch a IH]; simpl; [reflexivity | by rewrite IH]. Qed.

(** The name fits exactly when the identifier prints in at most seven
    characters, sign included. *)
Lemma name_fits_digits (filename mediatype : string) (id : Z) :
  name_fits filename mediatype id
  = (String.length (NilZero.string_of_int (Z.to_int id)) <=? 7)%nat.
Proof.
  unfold name_fits, sprintf_name. rewrite !length_append. simpl.
  set (n := String.length (NilZero.string_of_int (Z.to_int id))).
  set (a := String.length filename). set (b := String.length mediatype).
  destruct (Nat.leb_spec n 7);
    destruct (Nat.leb_spec (a + S (b + S n) + 1) (a + b + 10)); (reflexivity || lia).
Qed.

Section Construction.
Context `{Externals}.

Lemma set_construct_properties (p : ptr) (s cp : option ptr) (w : World) :
  set_properties p
    [(PROP_SOURCEFILE, GPointer s); (PROP_CELL, GPointer cp)]
    (pitivi_timelinemedia_instance_init p w)
  = Ok (mkWorld
          (<[p := set_private (set_cell cp)
                    (set_private (set_sf s) new_instance)]> (medias w))
          (cells w) (srcfiles w) (chars w) (gnl w) (cursor w)
          (calls w ++ init_calls p)).
Proof.
  unfold set_properties, pitivi_timelinemedia_set_property. simpl.
  erewrite update_media_hit by (simpl; apply lookup_insert_eq). simpl.
  erewrite update_media_hit by (simpl; apply lookup_insert_eq). simpl.
  unfold put_media, with_medias, log. simpl.
  rewrite !insert_insert_eq, <- !app_assoc. reflexivity.
Qed.

Lemma pitivi_timelinemedia_new_eq (s cp : ptr) (d : PitiviSourceFile)
    (c : PitiviTimelineCellRenderer) (w : World) :
  srcfiles w !! s = Some d →
  cells w !! cp = Some c →
  pitivi_timelinemedia_new (Some s) (Some cp) w =
    if decide (track_type c ≠ PITIVI_TRANSITION_TRACK) then
      filename ← get_chars (sf_filename d) w;
      mediatype ← get_chars (sf_mediatype d) w;
      if name_fits filename mediatype (nb_added c) then
        Ok (fresh (dom (medias w)),
            after_new s cp d c (Some (fresh (dom (gnl w))))
              (<[fresh (dom (gnl w)) := engine_object filename mediatype d (nb_added c)]>
                 (gnl w)) w)
      else Undefined
    else
      Ok (fresh (dom (medias w)), after_new s cp d c None (gnl w) w).
Proof.
  intros Hd Hc.
  unfold pitivi_timelinemedia_new.
  change (g_object_new _ w) with
    ('(object, w1) ← pitivi_timelinemedia_constructor
                       [(PROP_SOURCEFILE, GPointer (Some s)); (PROP_CELL, GPointer (Some cp))] w;
     w2 ← set_properties object
            [(PROP_MEDIA_TYPE, GInt (layer_code (check_media_type w s)))] w1;
     Ok (object, w2)).
  unfold pitivi_timelinemedia_constructor.
  rewrite set_construct_properties. simpl.
  unfold get_media. simpl. rewrite lookup_insert_eq. simpl.
  rewrite Hd. simpl. unfold get_cell. world_simpl. rewrite Hc. simpl.
  destruct (decide (track_type c ≠ PITIVI_TRANSITION_TRACK)) as [Hne|Heq].
  - unfold get_chars. simpl.
    destruct (sf_filename d) as [fa|]; simpl; [| reflexivity].
    destruct (chars w !! fa) as [filename|]; simpl; [| reflexivity].
    destruct (sf_mediatype d) as [ma|]; simpl; [| reflexivity].
    destruct (chars w !! ma) as [mediatype|]; simpl; [| reflexivity].
    destruct (name_fits filename mediatype (nb_added c)); [| reflexivity].
    unfold gnl_object_set_media_start_stop, update_gnl. simpl.
    rewrite lookup_insert_eq. simpl.
    erewrite update_media_hit by (simpl; apply lookup_insert_eq). simpl.
    unfold pitivi_timelinemedia_set_property. simpl.
    erewrite update_media_hit by (simpl; apply lookup_insert_eq). simpl.
    erewrite update_cell_hit by exact Hc. simpl.
    unfold after_new. world_simpl. rewrite !insert_insert_eq. reflexivity.
  - erewrite update_media_hit by (simpl; apply lookup_insert_eq). simpl.
    unfold pitivi_timelinemedia_set_property. simpl.
    erewrite update_media_hit by (simpl; apply lookup_insert_eq). simpl.
    erewrite update_cell_hit by exact Hc. simpl.
    unfold after_new. world_simpl. rewrite !insert_insert_eq. reflexivity.
Qed.

Lemma pitivi_timelinemedia_new_Ok (sf cell : option ptr) (w w' : World) (p : ptr) :
  pitivi_timelinemedia_new sf cell w = Ok (p, w') →
  ∃ s d cp c, sf = Some s ∧ srcfiles w !! s = Some d ∧
              cell = Some cp ∧ cells w !! cp = Some c.
Proof.
  unfold pitivi_timelinemedia_new.
  match goal with |- context [g_object_new [_; (_, GInt ?t); _] w] =>
    change (g_object_new [("source_file", GPointer sf); ("media_type", GInt t);
                          ("cell", GPointer cell)] w)
      with ('(object, w1) ← pitivi_timelinemedia_constructor
                              [(PROP_SOURCEFILE, GPointer sf); (PROP_CELL, GPointer cell)] w;
            w2 ← set_properties object [(PROP_MEDIA_TYPE, GInt t)] w1;
            Ok (object, w2))
  end.
  unfold pitivi_timelinemedia_constructor.
  rewrite set_construct_properties. simpl.
  unfold get_media. simpl. rewrite lookup_insert_eq. simpl.
  destruct sf as [s|]; simpl; [| discriminate].
  destruct (srcfiles w !! s) as [d|] eqn:Hd; simpl; [| discriminate].
  unfold get_cell.
  destruct cell as [cp|]; simpl; [| discriminate]. world_simpl.
  destruct (cells w !! cp) as [c|] eqn:Hc; simpl; [| discriminate].
  intros _. exists s, d, cp, c. done.
Qed.

End Construction.

(** The claim of C2 fails both ways, since the test is on the kind of
    the track and not on the kind of the clip.  A descriptor classified
    as a transition, put on the video track 1, gets an engine object; the
    descriptor classified as video, put on the transition track 3, gets
    none. *)
Lemma engine_object_follows_track_not_clip :
  (∃ p w' m,
     pitivi_timelinemedia_new (H := demo_externals) (Some 2%positive) (Some 1%positive)
       (empty_timeline PITIVI_CURSOR_SELECT) = Ok (p, w') ∧
     medias w' !! p = Some m ∧
     media_type (private m) = layer_position PITIVI_TRANSITION_TRACK ∧
     gnl_name <$> gnl w' !! 1%positive = Some "a.avi_transition_0") ∧
  (∃ p w' m,
     pitivi_timelinemedia_new (H := demo_externals) (Some 1%positive) (Some 3%positive)
       (empty_timeline PITIVI_CURSOR_SELECT) = Ok (p, w') ∧
     medias w' !! p = Some m ∧
     media_type (private m) = layer_position PITIVI_VIDEO_TRACK ∧
     gnl w' = ∅).
Proof.
  split; eexists _, _, _.
  - split; [vm_compute; reflexivity |]. split; [reflexivity |].
    split; reflexivity.
  - split; [vm_compute; reflexivity |]. split; [reflexivity |].
    split; reflexivity.
Qed.

Section EngineObject.
Context `{Externals}.

(** C2 (amended). Construction from a source descriptor on a track: if
    the track is a transition track no engine object is created;
    on any other track, when the name fits the buffer allocated for it,
    exactly one engine object is created, at a fresh address, named
    filename + "_" + mediaKind + "_" + identifier (the identifier of the
    new clip, in decimal), with its media start/stop set to
    [0, descriptor.length].  The kind of the clip plays no part. *)
Theorem engine_object_unless_transition_track
    (s cp : ptr) (d : PitiviSourceFile) (c : PitiviTimelineCellRenderer) (w : World) :
  srcfiles w !! s = Some d →
  cells w !! cp = Some c →
  (track_type c = PITIVI_TRANSITION_TRACK →
   ∃ p w' m,
     pitivi_timelinemedia_new (Some s) (Some cp) w = Ok (p, w') ∧
     gnl w' = gnl w ∧
     medias w' !! p = Some m ∧ si_gnlsource <$> sourceitem m = Some None) ∧
  (track_type c ≠ PITIVI_TRANSITION_TRACK →
   ∀ filename mediatype,
     get_chars (sf_filename d) w = Ok filename →
     get_chars (sf_mediatype d) w = Ok mediatype →
     name_fits filename mediatype (nb_added c) = true →
     ∃ p w' m si g,
       pitivi_timelinemedia_new (Some s) (Some cp) w = Ok (p, w') ∧
       medias w' !! p = Some m ∧ sourceitem m = Some si ∧
       si_id si = nb_added c ∧ si_gnlsource si = Some g ∧
       gnl w !! g = None ∧
       gnl w' = <[g := mkGnl (filename +:+ "_" +:+ mediatype +:+ "_"
                                +:+ NilZero.string_of_int (Z.to_int (si_id si)))
                         (sf_pipeline d) None (Some (0, sf_length d)) None]> (gnl w) ∧
       size (gnl w') = S (size (gnl w))).
Proof.
  intros Hd Hc. split.
  - intros Htr. rewrite (pitivi_timelinemedia_new_eq s cp d c w Hd Hc).
    destruct (decide (track_type c ≠ PITIVI_TRANSITION_TRACK)) as [Hne|_]; [done |].
    eexists _, _, _. split; [reflexivity |]. simpl.
    split; [reflexivity |]. rewrite lookup_insert_eq. split; reflexivity.
  - intros Hne filename mediatype Hf Hm Hfits.
    rewrite (pitivi_timelinemedia_new_eq s cp d c w Hd Hc).
    destruct (decide (track_type c ≠ PITIVI_TRANSITION_TRACK)) as [_|]; [| done].
    rewrite Hf. simpl. rewrite Hm. simpl. rewrite Hfits.
    assert (gnl w !! fresh (dom (gnl w)) = None) as Hfresh.
    { apply not_elem_of_dom, is_fresh. }
    eexists _, _, _, _, (fresh (dom (gnl w))). split; [reflexivity |]. simpl.
    rewrite lookup_insert_eq. split; [reflexivity |].
    split; [reflexivity |]. simpl. split; [reflexivity |].
    split; [reflexivity |]. split; [exact Hfresh |]. split; [reflexivity |].
    by apply map_size_insert_None.
Qed.

End EngineObject.

Lemma engine_object_unless_transition_track_witness :
  (∃ p w', pitivi_timelinemedia_new (H := demo_externals) (Some 1%positive) (Some 3%positive)
             (empty_timeline PITIVI_CURSOR_SELECT) = Ok (p, w') ∧
           gnl w' = ∅) ∧
  (∃ p w' g, pitivi_timelinemedia_new (H := demo_externals) (Some 1%positive)
               (Some 1%positive) (empty_timeline PITIVI_CURSOR_SELECT) = Ok (p, w') ∧
             gnl w' = <[g := mkGnl "a.avi_video_0" (Some 7%positive) None
                                (Some (0, 1000)) None]> ∅).
Proof.
  split.
  - destruct (engine_object_unless_transition_track (H := demo_externals)
                1%positive 3%positive
                (mkSourceFile (Some 1%positive) (Some 2%positive) 1000 (Some 7%positive) None)
                (mkCell PITIVI_TRANSITION_TRACK 0 None [])
                (empty_timeline PITIVI_CURSOR_SELECT) eq_refl eq_refl) as [Htr _].
    destruct (Htr eq_refl) as (p & w' & m & Hrun & Hgnl & _).
    exists p, w'. split; [exact Hrun | exact Hgnl].
  - destruct (engine_object_unless_transition_track (H := demo_externals)
                1%positive 1%positive
                (mkSourceFile (Some 1%positive) (Some 2%positive) 1000 (Some 7%positive) None)
                (mkCell PITIVI_VIDEO_TRACK 0 (Some 2%positive) [])
                (empty_timeline PITIVI_CURSOR_SELECT) eq_refl eq_refl) as [_ Hother].
    destruct (Hother ltac:(discriminate) "a.avi" "video" eq_refl eq_refl eq_refl)
      as (p & w' & m & si & g & Hrun & _ & _ & Hid & _ & _ & Hgnl & _).
    exists p, w', g. split; [exact Hrun |]. rewrite Hgnl, Hid. reflexivity.
Defined.

(** ** The descriptor copy *)

Section Shape.
Context `{Externals}.

(** Every successful construction leaves a world of the form [after_new]. *)
Lemma pitivi_timelinemedia_new_shape (sf cell : option ptr) (w w' : World) (p : ptr) :
  pitivi_timelinemedia_new sf cell w = Ok (p, w') →
  ∃ s d cp c g engine,
    sf = Some s ∧ cell = Some cp ∧
    srcfiles w !! s = Some d ∧ cells w !! cp = Some c ∧
    p = fresh (dom (medias w)) ∧ w' = after_new s cp d c g engine w.
Proof.
  intros Hrun.
  destruct (pitivi_timelinemedia_new_Ok sf cell w w' p Hrun)
    as (s & d & cp & c & -> & Hd & -> & Hc).
  rewrite (pitivi_timelinemedia_new_eq s cp d c w Hd Hc) in Hrun.
  exists s, d, cp, c.
  destruct (decide (track_type c ≠ PITIVI_TRANSITION_TRACK)).
  - apply bind_Ok in Hrun as (filename & _ & Hrun).
    apply bind_Ok in Hrun as (mediatype & _ & Hrun).
    destruct (name_fits filename mediatype (nb_added c)); [| discriminate].
    injection Hrun as <- <-. eexists _, _. done.
  - injection Hrun as <- <-. eexists _, _. done.
Qed.

End Shape.

(** The claim of C5 fails for the string members: the copy is a [memcpy]
    of the structure, so the [filename] of the copy is the address held
    by the original.  After the construction from descriptor 1, writing
    "b.avi" into the buffer of the original's file name changes the file
    name the clip reads from its copy. *)
Lemma descriptor_copy_shares_filename :
  ∃ p w',
    pitivi_timelinemedia_new (H := demo_externals) (Some 1%positive) (Some 1%positive)
      (empty_timeline PITIVI_CURSOR_SELECT) = Ok (p, w') ∧
    sf_filename <$> srcfiles w' !! 1%positive = Some (Some 1%positive) ∧
    stored_filename p w' = Ok "a.avi" ∧
    stored_filename p (with_chars (insert 1%positive "b.avi") w') = Ok "b.avi".
Proof.
  eexists _, _. split; [vm_compute; reflexivity |].
  split; [reflexivity |]. split; reflexivity.
Qed.

Section Copy.
Context `{Externals}.

(** C5 (amended). Construction copies the descriptor structure into
    storage of the clip's own, at a fresh address: the copy holds the
    members of the original, and assigning to the members of the original
    afterwards leaves the copy as it is.  The copy is not deep: a string
    member of the copy is the address the original holds, and what is
    written into that buffer is what the clip reads. *)
Theorem descriptor_copy_is_shallow
    (s : ptr) (d : PitiviSourceFile) (cell : option ptr) (w w' : World) (p : ptr) :
  srcfiles w !! s = Some d →
  pitivi_timelinemedia_new (Some s) cell w = Ok (p, w') →
  ∃ m si a,
    medias w' !! p = Some m ∧ sourceitem m = Some si ∧ si_srcfile si = Some a ∧
    a ≠ s ∧ srcfiles w !! a = None ∧
    srcfiles w' !! a = Some d ∧
    (∀ d', srcfiles (with_srcfiles (insert s d') w') !! a = Some d) ∧
    (∀ f text, sf_filename d = Some f →
       stored_filename p (with_chars (insert f text) w') = Ok text).
Proof.
  intros Hd Hrun.
  destruct (pitivi_timelinemedia_new_shape _ _ _ _ _ Hrun)
    as (s' & d' & cp & c & g & engine & [= <-] & -> & Hd' & Hc & -> & ->).
  rewrite Hd in Hd'. injection Hd' as <-.
  assert (srcfiles w !! fresh (dom (srcfiles w)) = None) as Hfresh.
  { apply not_elem_of_dom, is_fresh. }
  assert (fresh (dom (srcfiles w)) ≠ s) as Hne.
  { intros Heq. rewrite Heq in Hfresh. congruence. }
  eexists _, _, (fresh (dom (srcfiles w))). simpl.
  rewrite lookup_insert_eq. split; [reflexivity |]. simpl.
  split; [reflexivity |]. split; [reflexivity |].
  split; [exact Hne |]. split; [exact Hfresh |].
  rewrite lookup_insert_eq. split; [reflexivity |]. split.
  - intros d'. rewrite lookup_insert_ne by done. apply lookup_insert_eq.
  - intros f text Hf. unfold stored_filename, get_media. simpl.
    rewrite lookup_insert_eq. simpl. rewrite lookup_insert_eq. simpl.
    unfold get_chars. rewrite Hf. simpl. by rewrite lookup_insert_eq.
Qed.

End Copy.

Lemma descriptor_copy_is_shallow_witness :
  ∃ p w' a,
    pitivi_timelinemedia_new (H := demo_externals) (Some 1%positive) (Some 1%positive)
      (empty_timeline PITIVI_CURSOR_SELECT) = Ok (p, w') ∧
    a ≠ 1%positive ∧
    srcfiles w' !! a
      = Some (mkSourceFile (Some 1%positive) (Some 2%positive) 1000 (Some 7%positive) None).
Proof.
  destruct (pitivi_timelinemedia_new (H := demo_externals) (Some 1%positive)
              (Some 1%positive) (empty_timeline PITIVI_CURSOR_SELECT))
    as [[p w']| |] eqn:Hrun; [| vm_compute in Hrun; discriminate Hrun ..].
  destruct (descriptor_copy_is_shallow (H := demo_externals) 1%positive
              (mkSourceFile (Some 1%positive) (Some 2%positive) 1000 (Some 7%positive) None)
              (Some 1%positive) (empty_timeline PITIVI_CURSOR_SELECT) w' p eq_refl Hrun)
    as (m & si & a & _ & _ & _ & Hne & _ & Hcopy & _).
  exists p, w', a. split; [reflexivity |]. split; [exact Hne | exact Hcopy].
Defined.

(** ** Cutting a clip *)

(** Integral pointer coordinates are exact in binary64. *)
Lemma Qred_inject_Z (z : Z) : Qred (inject_Z z) = inject_Z z.
Proof.
  unfold Qred, inject_Z.
  pose proof (Z.ggcd_gcd z 1) as Hg.
  pose proof (Z.ggcd_correct_divisors z 1) as Hd.
  destruct (Z.ggcd z 1) as [g [aa bb]]. simpl in *.
  rewrite Z.gcd_1_r in Hg. subst g. destruct Hd as [Ha Hb].
  assert (aa = z) as -> by lia. assert (bb = 1) as -> by lia. reflexivity.
Qed.

Lemma round64_pos_integer (n : Z) :
  0 < n < 2 ^ 53 → round64_pos n 1 = inject_Z n.
Proof.
  intros Hn. unfold round64_pos.
  pose proof (Z.log2_spec n ltac:(lia)) as [Hlo Hhi].
  pose proof (Z.log2_nonneg n) as Hnn.
  assert (Z.log2 n < 53) as Hlt.
  { apply Z.log2_lt_pow2; lia. }
  assert (floor_log2 n 1 = Z.log2 n) as ->.
  { unfold floor_log2, pow2_le. change (Z.log2 1) with 0. rewrite Z.sub_0_r.
    rewrite Z.max_r by lia. rewrite Z.max_l by lia.
    destruct (Z.leb_spec (1 * 2 ^ Z.log2 n) (n * 2 ^ 0)); [reflexivity | lia]. }
  rewrite (Z.max_l (Z.log2 n - 52)) by lia.
  rewrite (Z.max_l 0 (Z.log2 n - 52)) by lia.
  rewrite (Z.max_r 0 (- (Z.log2 n - 52))) by lia.
  set (k := - (Z.log2 n - 52)).
  assert (0 < 2 ^ k) as Hk by (apply Z.pow_pos_nonneg; lia).
  assert (round_half_even (n * 2 ^ k) (1 * 2 ^ 0) = n * 2 ^ k) as ->.
  { unfold round_half_even. change (1 * 2 ^ 0) with 1.
    rewrite Z.mod_1_r, Z.div_1_r. reflexivity. }
  rewrite <- (Qred_inject_Z n). apply Qred_complete.
  unfold Qeq, inject_Z. simpl Qnum. simpl Qden.
  rewrite Z2Pos.id by lia. change (2 ^ 0) with 1. lia.
Qed.

Lemma round64_inject_Z (z : Z) :
  Z.abs z < 2 ^ 53 → round64 (inject_Z z) = Some (inject_Z z).
Proof.
  intros Hz. unfold round64.
  assert (overflows (inject_Z z) = false) as ->.
  { unfold overflows. simpl. apply Z.leb_gt.
    assert (2 ^ 53 < (2 ^ 1024 - 2 ^ 970) * 1) by (vm_compute; reflexivity). lia. }
  f_equal. destruct z as [| n | n]; cbn [Qnum Qden inject_Z].
  - reflexivity.
  - apply round64_pos_integer. lia.
  - rewrite round64_pos_integer by lia. reflexivity.
Qed.

Lemma dbl_inject_Z (z : Z) : Z.abs z < 2 ^ 53 → dbl (inject_Z z) = Ok (inject_Z z).
Proof. intros Hz. unfold dbl. by rewrite round64_inject_Z. Qed.

(** *** Rounding stays in the range of binary64 *)

Lemma pow2_pos (x : Z) : 0 < 2 ^ Z.max 0 x.
Proof. apply Z.pow_pos_nonneg; lia. Qed.

(** [2^x > n / d] stays true for a greater exponent. *)
Lemma pow2_gt_mono (n d x y : Z) :
  0 < n → 0 < d → x ≤ y →
  n * 2 ^ Z.max 0 (- x) < d * 2 ^ Z.max 0 x →
  n * 2 ^ Z.max 0 (- y) < d * 2 ^ Z.max 0 y.
Proof.
  intros Hn Hd Hxy H.
  assert (2 ^ Z.max 0 x ≤ 2 ^ Z.max 0 y) by (apply Z.pow_le_mono_r; lia).
  assert (2 ^ Z.max 0 (- y) ≤ 2 ^ Z.max 0 (- x)) by (apply Z.pow_le_mono_r; lia).
  pose proof (pow2_pos x). pose proof (pow2_pos y).
  pose proof (pow2_pos (- x)). pose proof (pow2_pos (- y)).
  nia.
Qed.

Lemma pow2_split (x k : Z) :
  0 ≤ k →
  2 ^ Z.max 0 (x + k) * 2 ^ Z.max 0 (- x)
  = 2 ^ k * 2 ^ Z.max 0 x * 2 ^ Z.max 0 (- (x + k)).
Proof.
  intros Hk. rewrite <- !Z.pow_add_r by lia. f_equal. lia.
Qed.

Lemma floor_log2_spec (n d : Z) :
  0 < n → 0 < d →
  let e := floor_log2 n d in
  d * 2 ^ Z.max 0 e ≤ n * 2 ^ Z.max 0 (- e) ∧
  n * 2 ^ Z.max 0 (- (e + 1)) < d * 2 ^ Z.max 0 (e + 1).
Proof.
  intros Hn Hd. unfold floor_log2, pow2_le.
  pose proof (Z.log2_spec n Hn) as [Hn1 Hn2].
  pose proof (Z.log2_spec d Hd) as [Hd1 Hd2].
  pose proof (Z.log2_nonneg n). pose proof (Z.log2_nonneg d).
  set (ln := Z.log2 n) in *. set (ld := Z.log2 d) in *.
  rewrite Z.pow_succ_r in Hn2, Hd2 by lia.
  assert (0 < 2 ^ ln) by (apply Z.pow_pos_nonneg; lia).
  assert (0 < 2 ^ ld) by (apply Z.pow_pos_nonneg; lia).
  destruct (Z.leb_spec (d * 2 ^ Z.max 0 (ln - ld)) (n * 2 ^ Z.max 0 (- (ln - ld))))
    as [Hle|Hgt]; cbv zeta.
  - split; [exact Hle |].
    destruct (Z.le_gt_cases 0 (ln - ld + 1)) as [Hs|Hs].
    + rewrite (Z.max_l 0 (- (ln - ld + 1))), (Z.max_r 0 (ln - ld + 1)) by lia.
      assert (2 ^ (ln - ld + 1) * 2 ^ ld = 2 * 2 ^ ln) as Hp.
      { rewrite <- Z.pow_add_r by lia. rewrite <- Z.pow_succ_r by lia. f_equal. lia. }
      assert (0 < 2 ^ (ln - ld + 1)) by (apply Z.pow_pos_nonneg; lia). nia.
    + rewrite (Z.max_r 0 (- (ln - ld + 1))), (Z.max_l 0 (ln - ld + 1)) by lia.
      assert (2 * 2 ^ ln * 2 ^ (- (ln - ld + 1)) = 2 ^ ld) as Hp.
      { rewrite <- Z.pow_succ_r by lia. rewrite <- Z.pow_add_r by lia. f_equal. lia. }
      assert (0 < 2 ^ (- (ln - ld + 1))) by (apply Z.pow_pos_nonneg; lia). nia.
  - replace (ln - ld - 1 + 1) with (ln - ld) by lia. split; [| lia].
    destruct (Z.le_gt_cases 0 (ln - ld - 1)) as [Hs|Hs].
    + rewrite (Z.max_l 0 (- (ln - ld - 1))), (Z.max_r 0 (ln - ld - 1)) by lia.
      assert (2 * 2 ^ ld * 2 ^ (ln - ld - 1) = 2 ^ ln) as Hp.
      { rewrite <- Z.pow_succ_r by lia. rewrite <- Z.pow_add_r by lia. f_equal. lia. }
      assert (0 < 2 ^ (ln - ld - 1)) by (apply Z.pow_pos_nonneg; lia). nia.
    + rewrite (Z.max_r 0 (- (ln - ld - 1))), (Z.max_l 0 (ln - ld - 1)) by lia.
      assert (2 ^ ln * 2 ^ (- (ln - ld - 1)) = 2 * 2 ^ ld) as Hp.
      { rewrite <- Z.pow_add_r by lia. rewrite <- Z.pow_succ_r by lia. f_equal. lia. }
      assert (0 < 2 ^ (- (ln - ld - 1))) by (apply Z.pow_pos_nonneg; lia). nia.
Qed.

Lemma round_half_even_le (N D K : Z) :
  0 ≤ N → 0 < D → N < K * D → 0 ≤ round_half_even N D ≤ K.
Proof.
  intros HN HD HK. unfold round_half_even.
  pose proof (Z.div_pos N D HN HD).
  assert (N / D < K) by (apply Z.div_lt_upper_bound; lia).
  destruct (2 * (N mod D) <? D); [lia |].
  destruct (D <? 2 * (N mod D)); [lia |].
  destruct (Z.even (N / D)); lia.
Qed.

Lemma round_half_even_lt (N D K : Z) :
  0 ≤ N → 0 < D → 2 * N < (2 * K - 1) * D → 0 ≤ round_half_even N D ≤ K - 1.
Proof.
  intros HN HD HK. unfold round_half_even.
  pose proof (Z.div_pos N D HN HD).
  pose proof (Z.div_mod N D ltac:(lia)) as Hdm.
  pose proof (Z.mod_pos_bound N D HD) as Hmod.
  assert (N / D < K) by (apply Z.div_lt_upper_bound; nia).
  destruct (Z.ltb_spec (2 * (N mod D)) D); [lia |].
  assert (N / D ≤ K - 2) by nia.
  destruct (D <? 2 * (N mod D)); [lia |].
  destruct (Z.even (N / D)); lia.
Qed.

Lemma in_gdouble_Qeq (q q' : Q) :
  (q == q')%Q → in_gdouble q = true → in_gdouble q' = true.
Proof.
  unfold in_gdouble, Qeq. destruct q as [n d], q' as [n' d']. simpl.
  intros Heq Hq. apply Z.leb_le in Hq. apply Z.leb_le.
  assert (0 < G_MAXDOUBLE) as HM by (vm_compute; reflexivity).
  set (M := G_MAXDOUBLE) in *. clearbody M.
  assert (Z.abs n' * Z.pos d = Z.abs n * Z.pos d') as Habs.
  { rewrite <- (Z.abs_eq (Z.pos d)), <- (Z.abs_eq (Z.pos d')) by lia.
    rewrite <- !Z.abs_mul. by f_equal. }
  nia.
Qed.

Lemma round64_pos_in_gdouble (n d : Z) :
  0 < n → 0 < d → n < (2 ^ 1024 - 2 ^ 970) * d →
  in_gdouble (round64_pos n d) = true.
Proof.
  intros Hn Hd HT. unfold round64_pos.
  eapply in_gdouble_Qeq; [symmetry; apply Qred_correct |].
  destruct (floor_log2_spec n d Hn Hd) as [Hlo Hhi].
  set (e := floor_log2 n d) in *.
  assert (e ≤ 1023) as He.
  { destruct (Z.le_gt_cases e 1023) as [|Hgt]; [done | exfalso].
    rewrite (Z.max_r 0 e), (Z.max_l 0 (- e)) in Hlo by lia.
    assert (2 ^ 1024 ≤ 2 ^ e) by (apply Z.pow_le_mono_r; lia).
    assert (2 ^ 1024 - 2 ^ 970 < 2 ^ 1024) as HT' by (vm_compute; reflexivity).
    set (P := 2 ^ 1024) in *. set (T := P - 2 ^ 970) in *.
    change (2 ^ 0) with 1 in Hlo. clearbody P T. clear Hhi. nia. }
  set (u := Z.max (e - 52) (- 1074)).
  pose proof (pow2_pos u) as Hpu. pose proof (pow2_pos (- u)) as Hnu.
  unfold in_gdouble. cbn [Qnum Qden]. rewrite Z2Pos.id by exact Hnu.
  apply Z.leb_le.
  destruct (decide (u = 971)) as [Hu|Hu].
  - rewrite Hu. change (Z.max 0 (- 971)) with 0. change (Z.max 0 971) with 971.
    change (2 ^ 0) with 1. rewrite !Z.mul_1_r.
    assert (0 < 2 ^ 971) as H971 by (vm_compute; reflexivity).
    assert (0 ≤ round_half_even n (d * 2 ^ 971) ≤ 2 ^ 53 - 1) as Hm.
    { apply round_half_even_lt; [lia | by apply Z.mul_pos_pos |].
      assert (2 * (2 ^ 1024 - 2 ^ 970) = (2 * 2 ^ 53 - 1) * 2 ^ 971) as HTK
          by (vm_compute; reflexivity).
      rewrite (Z.mul_comm d), Z.mul_assoc, <- HTK, <- Z.mul_assoc.
      apply Z.mul_lt_mono_pos_l; lia. }
    unfold G_MAXDOUBLE. rewrite Z.abs_eq by (apply Z.mul_nonneg_nonneg; lia).
    apply Z.mul_le_mono_nonneg_r; lia.
  - assert (u ≤ 970) as Hu' by lia.
    assert (e + 1 ≤ u + 53) as Heu by lia.
    pose proof (pow2_gt_mono n d (e + 1) (u + 53) Hn Hd Heu Hhi) as Hhi'.
    pose proof (pow2_split u 53 ltac:(lia)) as Hsplit.
    pose proof (pow2_pos (u + 53)) as Hpu'. pose proof (pow2_pos (- (u + 53))) as Hnu'.
    assert (0 ≤ round_half_even (n * 2 ^ Z.max 0 (- u)) (d * 2 ^ Z.max 0 u) ≤ 2 ^ 53)
      as Hm.
    { apply round_half_even_le;
        [apply Z.mul_nonneg_nonneg; lia | by apply Z.mul_pos_pos |].
      (* n b' < d a' and a' b = K a b' give n b < K d a *)
      apply (Z.mul_lt_mono_pos_r (2 ^ Z.max 0 (- (u + 53)))); [exact Hnu' |].
      replace (2 ^ 53 * (d * 2 ^ Z.max 0 u) * 2 ^ Z.max 0 (- (u + 53)))
        with (d * (2 ^ 53 * 2 ^ Z.max 0 u * 2 ^ Z.max 0 (- (u + 53)))) by ring.
      rewrite <- Hsplit.
      replace (n * 2 ^ Z.max 0 (- u) * 2 ^ Z.max 0 (- (u + 53)))
        with (n * 2 ^ Z.max 0 (- (u + 53)) * 2 ^ Z.max 0 (- u)) by ring.
      rewrite Z.mul_assoc. by apply Z.mul_lt_mono_pos_r. }
    set (m := round_half_even _ _) in *.
    rewrite Z.abs_eq by (apply Z.mul_nonneg_nonneg; lia).
    destruct (Z.le_gt_cases 0 u) as [Hs|Hs].
    + rewrite (Z.max_r 0 u), (Z.max_l 0 (- u)) by lia. change (2 ^ 0) with 1.
      rewrite Z.mul_1_r.
      assert (2 ^ u ≤ 2 ^ 970) as Hle by (apply Z.pow_le_mono_r; lia).
      assert (2 ^ 53 * 2 ^ 970 ≤ G_MAXDOUBLE) as HM by (vm_compute; discriminate).
      etrans; [| exact HM].
      apply Z.mul_le_mono_nonneg; [lia | lia | | exact Hle].
      apply Z.pow_nonneg. lia.
    + rewrite (Z.max_l 0 u) by lia. change (2 ^ 0) with 1. rewrite Z.mul_1_r.
      assert (2 ^ 53 ≤ G_MAXDOUBLE) as HM by (vm_compute; discriminate).
      assert (0 ≤ G_MAXDOUBLE) as HM0 by (vm_compute; discriminate).
      etrans; [apply Hm |]. etrans; [exact HM |].
      rewrite <- (Z.mul_1_r G_MAXDOUBLE) at 1.
      apply Z.mul_le_mono_nonneg_l; [exact HM0 | lia].
Qed.

Lemma round64_in_gdouble (q r : Q) : round64 q = Some r → in_gdouble r = true.
Proof.
  unfold round64, overflows. destruct q as [n d]. cbn [Qnum Qden].
  destruct (Z.leb_spec ((2 ^ 1024 - 2 ^ 970) * Z.pos d) (Z.abs n)) as [|Hlt];
    [discriminate |].
  intros [= <-]. destruct n as [| n | n].
  - reflexivity.
  - apply round64_pos_in_gdouble; lia.
  - assert (in_gdouble (round64_pos (Z.pos n) (Z.pos d)) = true) as Hr
      by (apply round64_pos_in_gdouble; lia).
    unfold in_gdouble in *. cbn [Qopp Qnum Qden]. by rewrite Z.abs_opp.
Qed.

Lemma overflows_Qeq (q q' : Q) : (q == q')%Q → overflows q = overflows q'.
Proof.
  unfold overflows, Qeq. destruct q as [n d], q' as [n' d']. cbn [Qnum Qden].
  intros Heq.
  assert (Z.abs n' * Z.pos d = Z.abs n * Z.pos d') as Habs.
  { rewrite <- (Z.abs_eq (Z.pos d)), <- (Z.abs_eq (Z.pos d')) by lia.
    rewrite <- !Z.abs_mul. by f_equal. }
  set (T := 2 ^ 1024 - 2 ^ 970). clearbody T.
  destruct (Z.leb_spec (T * Z.pos d) (Z.abs n)), (Z.leb_spec (T * Z.pos d') (Z.abs n'));
    try reflexivity; nia.
Qed.

(** A sum of a value in the range of binary64 and a [gint] does not
    reach an infinity. *)
Lemma round64_in_range (x : Q) (z : Z) :
  in_gdouble x = true → Z.abs z ≤ 2 ^ 31 →
  overflows (x + inject_Z z) = false.
Proof.
  unfold in_gdouble, overflows. intros Hx Hz. apply Z.leb_le in Hx. apply Z.leb_gt.
  destruct x as [n d]. simpl in *.
  set (M := G_MAXDOUBLE) in *. set (T := 2 ^ 1024 - 2 ^ 970).
  assert (M + 2 ^ 31 < T) as HMT by (vm_compute; reflexivity).
  rewrite Pos.mul_1_r, Z.mul_1_r.
  assert (Z.abs (n + z * Z.pos d) ≤ Z.abs n + Z.abs z * Z.pos d) as H1.
  { etrans; [apply Z.abs_triangle |]. rewrite Z.abs_mul. lia. }
  assert (Z.abs z * Z.pos d ≤ 2 ^ 31 * Z.pos d) as H2 by nia.
  clearbody M T. nia.
Qed.

(** A binary64 value and a [gint] have a sum and a difference, either
    way round, and these are binary64 values again. *)
Lemma gdouble_add_gint_r (x : Q) (z : Z) :
  in_gdouble x = true → Z.abs z ≤ 2 ^ 31 →
  ∃ r, gdouble_add x (inject_Z z) = Ok r ∧ in_gdouble r = true.
Proof.
  intros Hx Hz. unfold gdouble_add, dbl.
  destruct (round64 (x + inject_Z z)) as [r|] eqn:Hr.
  - exists r. split; [reflexivity |]. by eapply round64_in_gdouble.
  - unfold round64 in Hr. by rewrite round64_in_range in Hr.
Qed.

Lemma gdouble_add_gint_l (x : Q) (z : Z) :
  in_gdouble x = true → Z.abs z ≤ 2 ^ 31 →
  ∃ r, gdouble_add (inject_Z z) x = Ok r ∧ in_gdouble r = true.
Proof.
  intros Hx Hz. unfold gdouble_add, dbl.
  destruct (round64 (inject_Z z + x)) as [r|] eqn:Hr.
  - exists r. split; [reflexivity |]. by eapply round64_in_gdouble.
  - unfold round64 in Hr.
    rewrite (overflows_Qeq _ (x + inject_Z z)), round64_in_range in Hr
      by (done || apply Qplus_comm). discriminate.
Qed.

Lemma gdouble_sub_gint_l (x : Q) (z : Z) :
  in_gdouble x = true → Z.abs z ≤ 2 ^ 31 →
  ∃ r, gdouble_sub (inject_Z z) x = Ok r ∧ in_gdouble r = true.
Proof.
  intros Hx Hz. unfold gdouble_sub, dbl.
  destruct (round64 (inject_Z z - x)) as [r|] eqn:Hr.
  - exists r. split; [reflexivity |]. by eapply round64_in_gdouble.
  - unfold round64 in Hr.
    assert (in_gdouble (- x) = true) as Hx'.
    { unfold in_gdouble in *. destruct x as [n d]. simpl in *.
      by rewrite Z.abs_opp. }
    rewrite (overflows_Qeq _ (- x + inject_Z z)), round64_in_range in Hr
      by (done || apply Qplus_comm). discriminate.
Qed.

Lemma gdouble_add_inject_Z (a b : Z) :
  Z.abs (a + b) < 2 ^ 53 →
  gdouble_add (inject_Z a) (inject_Z b) = Ok (inject_Z (a + b)).
Proof.
  intros Hz. unfold gdouble_add. rewrite <- inject_Z_plus. by apply dbl_inject_Z.
Qed.

Lemma gdouble_sub_inject_Z (a b : Z) :
  Z.abs (a - b) < 2 ^ 53 →
  gdouble_sub (inject_Z a) (inject_Z b) = Ok (inject_Z (a - b)).
Proof.
  intros Hz. unfold gdouble_sub.
  change (inject_Z a - inject_Z b)%Q with (inject_Z a + inject_Z (- b))%Q.
  rewrite <- inject_Z_plus. by apply dbl_inject_Z.
Qed.

Lemma Qtrunc_inject_Z (z : Z) : Qtrunc (inject_Z z) = z.
Proof. unfold Qtrunc. simpl. apply Z.quot_1_r. Qed.

Lemma gdouble_to_guint_inject_Z (z : Z) :
  0 ≤ z < 2 ^ 32 → gdouble_to_guint (inject_Z z) = Ok z.
Proof.
  intros Hz. unfold gdouble_to_guint. rewrite Qtrunc_inject_Z. unfold in_guint.
  destruct (Z.leb_spec 0 z); [| lia]. destruct (Z.ltb_spec z (2 ^ 32)); [done | lia].
Qed.

Lemma gdouble_to_gint_inject_Z (z : Z) :
  - 2 ^ 31 ≤ z < 2 ^ 31 → gdouble_to_gint (inject_Z z) = Ok z.
Proof.
  intros Hz. unfold gdouble_to_gint. rewrite Qtrunc_inject_Z. unfold in_gint.
  destruct (Z.leb_spec (- 2 ^ 31) z); [| lia].
  destruct (Z.ltb_spec z (2 ^ 31)); [done | lia].
Qed.

Lemma guint_to_gint_small (z : Z) : z < 2 ^ 31 → guint_to_gint z = z.
Proof. intros Hz. unfold guint_to_gint. destruct (Z.ltb_spec z (2 ^ 31)); [done | lia]. Qed.

Lemma fresh_media_None (w : World) : medias w !! fresh (dom (medias w)) = None.
Proof. apply not_elem_of_dom, is_fresh. Qed.

Lemma fresh_media_ne (w : World) (p : ptr) (m : PitiviTimelineMedia) :
  medias w !! p = Some m → p ≠ fresh (dom (medias w)).
Proof. intros Hp ->. rewrite fresh_media_None in Hp. discriminate. Qed.

Section Split.
Context `{Externals}.

(** The first half of a split: a new clip [m0] at a fresh address, put on
    the clip's track at [pos] with the requested width [width], and the
    clip itself requested to shrink to the cut. *)
Lemma split_self_Ok (container srcfile : option ptr) (widget m0 : ptr)
    (a : PitiviTimelineMedia) (pos width : Z) (cut : gdouble) (w w2 : World) :
  medias w !! widget = Some a →
  split_self container widget srcfile pos width cut w = Ok (m0, w2) →
  ∃ cp c c2 M0 cutw,
    container = Some cp ∧ cells w !! cp = Some c ∧
    m0 = fresh (dom (medias w)) ∧ gdouble_to_gint cut = Ok cutw ∧
    medias w2 = <[widget := set_size (cutw, FIXED_HEIGHT) a]> (<[m0 := M0]> (medias w)) ∧
    size_request M0 = (guint_to_gint width, FIXED_HEIGHT) ∧
    parent M0 = Some cp ∧ linked M0 = None ∧ selected M0 = false ∧
    cells w2 = <[cp := c2]> (cells w) ∧
    children c2 = children c ++ [(m0, guint_to_gint pos, 0)] ∧
    linked_track c2 = linked_track c.
Proof.
  intros Ha Hrun. unfold split_self in Hrun.
  apply bind_Ok in Hrun as ([m w1] & Hnew & Hrun).
  destruct (pitivi_timelinemedia_new_shape _ _ _ _ _ Hnew)
    as (s & d & cp & c & g & engine & -> & -> & Hd & Hc & -> & ->).
  pose proof (fresh_media_ne w widget a Ha) as Hne.
  unfold gtk_layout_put in Hrun.
  erewrite update_cell_hit in Hrun by (simpl; apply lookup_insert_eq).
  simpl in Hrun.
  erewrite update_media_hit in Hrun by (simpl; apply lookup_insert_eq).
  simpl in Hrun. unfold gtk_widget_set_size_request in Hrun.
  erewrite update_media_hit in Hrun by (simpl; apply lookup_insert_eq).
  simpl in Hrun.
  destruct (gdouble_to_gint cut) as [cutw| |] eqn:Hcut; simpl in Hrun; try discriminate.
  erewrite update_media_hit in Hrun
    by (world_simpl; rewrite !lookup_insert_ne by done; exact Ha).
  simpl in Hrun. unfold bump_nb_added in Hrun.
  erewrite update_cell_hit in Hrun by (world_simpl; apply lookup_insert_eq).
  simpl in Hrun. injection Hrun as <- <-. world_simpl.
  eexists cp, c, _, _, cutw. split; [done |]. split; [done |].
  split; [done |]. split; [done |].
  rewrite !insert_insert_eq. split; [reflexivity |]. simpl.
  repeat split; reflexivity.
Qed.

End Split.

Section SplitLinked.
Context `{Externals}.

(** The mirrored half: a new clip [m1] at a fresh address, put on the
    track linked to the clip's track, the sibling requested to shrink to
    the cut, and the two new clips linked to each other. *)
Lemma split_linked_Ok (container : option ptr) (m0 l : ptr) (M0 : PitiviTimelineMedia)
    (pos width : Z) (cut : gdouble) (w w1 : World) :
  medias w !! m0 = Some M0 →
  l ≠ m0 →
  split_linked container m0 l pos width cut w = Ok w1 →
  ∃ cp c L M1 cutw m1,
    container = Some cp ∧ cells w !! cp = Some c ∧ medias w !! l = Some L ∧
    gdouble_to_gint cut = Ok cutw ∧ m1 = fresh (dom (medias w)) ∧
    medias w1 !! m0 = Some (set_linked (Some m1) M0) ∧
    medias w1 !! m1 = Some M1 ∧
    medias w1 !! l = Some (set_size (cutw, FIXED_HEIGHT) L) ∧
    (∀ q, q ≠ m0 → q ≠ m1 → q ≠ l → medias w1 !! q = medias w !! q) ∧
    linked M1 = Some m0 ∧ size_request M1 = (guint_to_gint width, FIXED_HEIGHT) ∧
    parent M1 = linked_track c ∧ selected M1 = false ∧
    (∀ lt, linked_track c = Some lt →
       ∃ C, cells w1 !! lt = Some C ∧ (m1, guint_to_gint pos, 0) ∈ children C) ∧
    (∃ C, cells w1 !! cp = Some C ∧ ∀ ch, ch ∈ children c → ch ∈ children C).
Proof.
  intros HM0 Hlm0 Hrun. unfold split_linked in Hrun.
  apply bind_Ok in Hrun as (L & HL & Hrun). apply get_media_Ok in HL.
  apply bind_Ok in Hrun as (si & _ & Hrun).
  apply bind_Ok in Hrun as ([m w2] & Hnew & Hrun).
  destruct (pitivi_timelinemedia_new_shape _ _ _ _ _ Hnew)
    as (s & d & cp & c & g & engine & _ & -> & Hd & Hc & -> & ->).
  pose proof (fresh_media_ne w m0 M0 HM0) as Hne0.
  pose proof (fresh_media_ne w l L HL) as Hnel.
  set (m1 := fresh (dom (medias w))) in *.
  unfold get_cell in Hrun. simpl in Hrun. rewrite lookup_insert_eq in Hrun.
  simpl in Hrun.
  apply bind_Ok in Hrun as (w3 & Hput & Hrun).
  assert (∃ M C3,
            medias w3 = <[m1 := M]> (medias w) ∧ linked M = None ∧
            selected M = false ∧ parent M = linked_track c ∧
            cells w3 !! cp = Some C3 ∧ linked_track C3 = linked_track c ∧
            (∀ ch, ch ∈ children c → ch ∈ children C3) ∧
            (∀ lt, linked_track c = Some lt →
               ∃ C, cells w3 !! lt = Some C ∧ (m1, guint_to_gint pos, 0) ∈ children C))
    as (M & C3 & Hm3 & HlM & HsM & HpM & HC3 & Hlt3 & Hch3 & Hput3).
  { unfold gtk_layout_put in Hput.
    destruct (linked_track c) as [lt|] eqn:Hlt.
    - apply bind_Ok in Hput as (w4 & Hcell & Hput).
      apply update_cell_Ok in Hcell as (lt' & Clt & [= <-] & HClt & ->).
      erewrite update_media_hit in Hput by (simpl; apply lookup_insert_eq).
      injection Hput as <-. world_simpl. rewrite insert_insert_eq.
      destruct (decide (lt = cp)) as [->|Hne].
      + rewrite lookup_insert_eq in HClt. injection HClt as <-.
        eexists _, _. split; [reflexivity |]. simpl.
        split; [done |]. split; [done |]. split; [done |].
        rewrite lookup_insert_eq. split; [reflexivity |]. simpl.
        split; [done |]. split.
        * intros ch Hch. apply elem_of_app. by left.
        * intros lt' [= <-]. rewrite lookup_insert_eq. eexists. split; [done |].
          simpl. apply elem_of_app. right. by apply list_elem_of_singleton.
      + rewrite lookup_insert_ne in HClt by done.
        eexists _, _. split; [reflexivity |]. simpl.
        split; [done |]. split; [done |]. split; [done |].
        rewrite lookup_insert_ne, lookup_insert_eq by done.
        split; [reflexivity |]. simpl. split; [done |]. split; [done |].
        intros lt' [= <-]. rewrite lookup_insert_eq. eexists. split; [done |].
        simpl. apply elem_of_app. right. by apply list_elem_of_singleton.
    - injection Hput as <-. simpl.
      eexists _, _. split; [reflexivity |]. simpl.
      split; [done |]. split; [done |]. split; [done |].
      rewrite lookup_insert_eq. split; [reflexivity |]. simpl.
      split; [done |]. split; [done | discriminate]. }
  unfold gtk_widget_set_size_request in Hrun.
  erewrite update_media_hit in Hrun by (rewrite Hm3; apply lookup_insert_eq).
  simpl in Hrun.
  destruct (gdouble_to_gint cut) as [cutw| |] eqn:Hcut; simpl in Hrun; try discriminate.
  erewrite update_media_hit in Hrun
    by (world_simpl; rewrite Hm3, !lookup_insert_ne by done; exact HL).
  simpl in Hrun.
  erewrite update_media_hit in Hrun
    by (world_simpl; rewrite lookup_insert_ne, lookup_insert_eq by done; reflexivity).
  simpl in Hrun.
  erewrite update_media_hit in Hrun
    by (world_simpl; rewrite Hm3, !lookup_insert_ne by done; exact HM0).
  simpl in Hrun. unfold bump_nb_added in Hrun.
  erewrite update_cell_hit in Hrun by (world_simpl; exact HC3).
  injection Hrun as <-. world_simpl.
  exists cp, c, L, (set_linked (Some m0) (set_size (guint_to_gint width, FIXED_HEIGHT) M)),
    cutw, m1.
  split; [done |]. split; [done |]. split; [done |]. split; [done |].
  split; [done |]. rewrite Hm3.
  split; [by rewrite lookup_insert_eq |].
  split; [by rewrite lookup_insert_ne, lookup_insert_eq by done |].
  split; [by rewrite !lookup_insert_ne, lookup_insert_eq by done |].
  split; [intros q ? ? ?; by rewrite !lookup_insert_ne by done |].
  simpl. split; [done |]. split; [done |]. split; [done |]. split; [done |].
  split.
  - intros lt Hlt. destruct (Hput3 lt Hlt) as (C & HC & Hin).
    destruct (decide (cp = lt)) as [->|Hne].
    + rewrite lookup_insert_eq. rewrite HC3 in HC. injection HC as ->.
      eexists. split; [done |]. exact Hin.
    + rewrite lookup_insert_ne by done. eauto.
  - rewrite lookup_insert_eq. eexists. split; [done |]. exact Hch3.
Qed.

End SplitLinked.

Section SplitWhole.
Context `{Externals}.

(** The world a successful split hands to the handlers of "source-cut". *)
Lemma split_Ok (container : option ptr) (widget : ptr) (a : PitiviTimelineMedia)
    (event : GdkEventButton) (w w1 : World) :
  medias w !! widget = Some a →
  (∀ l, linked a = Some l → is_Some (medias w !! l)) →
  split container widget event w = Ok w1 →
  ∃ cp c pos width cutw m0 M0 C,
    container = Some cp ∧ cells w !! cp = Some c ∧
    cut_values a event pos width cutw ∧
    m0 = fresh (dom (medias w)) ∧
    (∀ q, is_Some (medias w !! q) →
          linked <$> medias w1 !! q = linked <$> medias w !! q) ∧
    size_request <$> medias w1 !! widget = Some (cutw, FIXED_HEIGHT) ∧
    medias w1 !! m0 = Some M0 ∧
    size_request M0 = (guint_to_gint width, FIXED_HEIGHT) ∧ parent M0 = Some cp ∧
    cells w1 !! cp = Some C ∧ (m0, guint_to_gint pos, 0) ∈ children C ∧
    (linked a = None →
     linked M0 = None ∧
     ∀ q, is_Some (medias w1 !! q) → q = m0 ∨ is_Some (medias w !! q)) ∧
    (∀ l, linked a = Some l →
     ∃ m1 M1,
       m1 ≠ m0 ∧ medias w !! m1 = None ∧ medias w1 !! m1 = Some M1 ∧
       linked M0 = Some m1 ∧ linked M1 = Some m0 ∧
       size_request M1 = (guint_to_gint width, FIXED_HEIGHT) ∧
       parent M1 = linked_track c ∧
       size_request <$> medias w1 !! l = Some (cutw, FIXED_HEIGHT) ∧
       (∀ lt, linked_track c = Some lt →
          ∃ Clt, cells w1 !! lt = Some Clt ∧ (m1, guint_to_gint pos, 0) ∈ children Clt) ∧
       ∀ q, is_Some (medias w1 !! q) → q = m0 ∨ q = m1 ∨ is_Some (medias w !! q)).
Proof.
  intros Ha Hlive Hrun. unfold split in Hrun.
  apply bind_Ok in Hrun as (self & Hself & Hrun). apply get_media_Ok in Hself.
  rewrite Ha in Hself. injection Hself as <-.
  apply bind_Ok in Hrun as (t1 & Ht1 & Hrun).
  apply bind_Ok in Hrun as (t2 & Ht2 & Hrun).
  apply bind_Ok in Hrun as (pos & Hpos & Hrun).
  apply bind_Ok in Hrun as (cut & Hcut & Hrun).
  apply bind_Ok in Hrun as (t3 & Ht3 & Hrun).
  apply bind_Ok in Hrun as (width & Hwidth & Hrun).
  apply bind_Ok in Hrun as (si & _ & Hrun).
  apply bind_Ok in Hrun as ([m0 w2] & Hself & Hrun).
  destruct (split_self_Ok _ _ _ _ _ _ _ _ _ _ Ha Hself)
    as (cp & c & c2 & M0 & cutw & -> & Hc & -> & Hcutw & Hm2 & HsM0 & HpM0 & HlM0 & _ &
        Hc2 & Hch2 & Hlt2).
  pose proof (fresh_media_ne w widget a Ha) as Hne.
  pose proof (fresh_media_None w) as Hfresh.
  set (m0 := fresh (dom (medias w))) in *.
  apply bind_Ok in Hrun as (self2 & Hself2 & Hrun). apply get_media_Ok in Hself2.
  rewrite Hm2, lookup_insert_eq in Hself2. injection Hself2 as <-. simpl in Hrun.
  assert (medias w2 !! m0 = Some M0) as HM0.
  { by rewrite Hm2, lookup_insert_ne, lookup_insert_eq. }
  assert (cells w2 !! cp = Some c2) as HC2.
  { rewrite Hc2. apply lookup_insert_eq. }
  assert (cut_values a event pos width cutw) as Hvalues.
  { exists t1, t2, cut, t3. done. }
  destruct (linked a) as [l|] eqn:Hl.
  - destruct (Hlive l eq_refl) as [L0 HL0].
    pose proof (fresh_media_ne w l L0 HL0) as Hlm0. fold m0 in Hlm0.
    destruct (split_linked_Ok _ _ _ _ _ _ _ _ _ HM0 Hlm0 Hrun)
      as (cp' & c' & L & M1 & cutw' & m1 & [= <-] & Hc' & HL & Hcutw' & Hm1 & Hw1m0 &
          Hw1m1 & Hw1l & Hothers & HlM1 & HsM1 & HpM1 & _ & Hplaced & C & HC & Hkept).
    rewrite HC2 in Hc'. injection Hc' as <-.
    rewrite Hcutw in Hcutw'. injection Hcutw' as <-.
    assert (medias w2 !! m1 = None) as Hm1w2.
    { rewrite Hm1. apply fresh_media_None. }
    assert (m1 ≠ m0) as Hm10.
    { intros ->. rewrite HM0 in Hm1w2. discriminate. }
    assert (m1 ≠ widget) as Hm1w.
    { intros ->. rewrite Hm2, lookup_insert_eq in Hm1w2. discriminate. }
    assert (medias w !! m1 = None) as Hm1old.
    { rewrite Hm2, !lookup_insert_ne in Hm1w2 by done. exact Hm1w2. }
    assert (m1 ≠ l) as Hm1l.
    { intros ->. rewrite HL0 in Hm1old. discriminate. }
    exists cp, c, pos, width, cutw, m0, (set_linked (Some m1) M0), C.
    split; [done |]. split; [done |]. split; [done |]. split; [done |].
    split.
    { intros q [Q HQ].
      assert (q ≠ m0) as Hq0 by (intros ->; rewrite Hfresh in HQ; discriminate).
      assert (q ≠ m1) as Hq1 by (intros ->; rewrite Hm1old in HQ; discriminate).
      destruct (decide (q = l)) as [->|Hql].
      - rewrite Hw1l, HL0. simpl. f_equal.
        rewrite Hm2 in HL. destruct (decide (widget = l)) as [->|Hwl].
        + rewrite lookup_insert_eq in HL. injection HL as <-.
          rewrite Ha in HL0. injection HL0 as <-. reflexivity.
        + rewrite !lookup_insert_ne in HL by done. congruence.
      - rewrite Hothers, Hm2 by done.
        destruct (decide (widget = q)) as [->|Hwq].
        + rewrite lookup_insert_eq, Ha. reflexivity.
        + by rewrite !lookup_insert_ne. }
    split.
    { destruct (decide (widget = l)) as [->|Hwl].
      - rewrite Hw1l. reflexivity.
      - rewrite Hothers, Hm2, lookup_insert_eq by done. reflexivity. }
    split; [done |]. split; [done |]. split; [done |]. split; [done |].
    split.
    { apply Hkept. rewrite Hch2. apply elem_of_app. right.
      by apply list_elem_of_singleton. }
    split; [discriminate |].
    intros l' [= <-]. exists m1, M1.
    split; [done |]. split; [done |]. split; [done |]. split; [done |].
    split; [done |]. split; [done |]. split; [by rewrite HpM1 |].
    split; [by rewrite Hw1l |]. split.
    { intros lt Hlt. apply Hplaced. by rewrite Hlt2. }
    intros q [Q HQ].
    destruct (decide (q = m0)) as [|Hq0]; [by left |].
    destruct (decide (q = m1)) as [|Hq1]; [by right; left |].
    right. right.
    destruct (decide (q = l)) as [->|Hql]; [eauto |].
    rewrite Hothers, Hm2 in HQ by done.
    destruct (decide (widget = q)) as [->|Hwq]; [eauto |].
    rewrite !lookup_insert_ne in HQ by done. eauto.
  - injection Hrun as <-.
    exists cp, c, pos, width, cutw, m0, M0, c2.
    split; [done |]. split; [done |]. split; [done |]. split; [done |].
    split.
    { intros q [Q HQ].
      assert (q ≠ m0) as Hq0 by (intros ->; rewrite Hfresh in HQ; discriminate).
      rewrite Hm2. destruct (decide (widget = q)) as [->|Hwq].
      - rewrite lookup_insert_eq, Ha. reflexivity.
      - by rewrite !lookup_insert_ne. }
    split; [by rewrite Hm2, lookup_insert_eq |].
    split; [done |]. split; [done |]. split; [done |]. split; [done |].
    split.
    { rewrite Hch2. apply elem_of_app. right. by apply list_elem_of_singleton. }
    split; [| discriminate].
    intros _. split; [done |].
    intros q [Q HQ]. rewrite Hm2 in HQ.
    destruct (decide (q = m0)) as [|Hq0]; [by left |]. right.
    destruct (decide (widget = q)) as [->|Hwq]; [eauto |].
    rewrite !lookup_insert_ne in HQ by done. eauto.
Qed.

End SplitWhole.

(** The claim of C3 fails for a pointer offset with a fraction, which
    each conversion to an integer drops on its own: the clip of width 100
    cut at the offset 10.5 is requested to shrink to 12 and the new clip
    to be 87 wide, 99 in all. *)
Lemma split_at_fraction_loses_a_pixel :
  alloc_width <$> (allocation <$> medias (single_clip false PITIVI_CURSOR_CUT) !! 1%positive)
    = Some 100 ∧
  ∃ w' a1 m0,
    pitivi_timelinemedia_button_release_event (H := demo_externals) 1%positive
      (mkButton 1 (21 # 2) 0) (single_clip false PITIVI_CURSOR_CUT) = Ok (true, w') ∧
    medias w' !! 1%positive = Some a1 ∧ size_request a1 = (12, 50) ∧
    medias w' !! 2%positive = Some m0 ∧ size_request m0 = (87, 50) ∧
    ¬ (inject_Z (fst (size_request a1)) == (21 # 2) + 2)%Q ∧
    fst (size_request a1) + fst (size_request m0) ≠ 100.
Proof.
  split; [reflexivity |]. eexists _, _, _.
  split; [vm_compute; reflexivity |].
  split; [reflexivity |]. split; [reflexivity |].
  split; [reflexivity |]. split; [reflexivity |].
  split; [| discriminate]. intros Heq. vm_compute in Heq. discriminate Heq.
Qed.

Section Cut.
Context `{Externals}.

(** C3 (amended). A split (button release in cut mode) of a clip of
    width W at x, at a whole pointer offset X with 0 <= X + 2 <= W and
    x + X + 2 not negative (all below 2^31), hands to the handlers of
    "source-cut" a world in which the clip is requested to have the width
    X + 2 and the new clip, at a fresh address, the width W - (X + 2), the
    two summing to W, and the new clip is put on the clip's track at
    x + X + 2. *)
Theorem split_widths_sum_to_width
    (widget : ptr) (a : PitiviTimelineMedia) (X : Z) (event : GdkEventButton)
    (w w' : World) (r : bool) :
  cursor w = PITIVI_CURSOR_CUT →
  medias w !! widget = Some a →
  (∀ l, linked a = Some l → is_Some (medias w !! l)) →
  button_x event = inject_Z X →
  0 ≤ X + 2 ≤ alloc_width (allocation a) →
  alloc_width (allocation a) < 2 ^ 31 →
  0 ≤ alloc_x (allocation a) + X + 2 < 2 ^ 31 →
  pitivi_timelinemedia_button_release_event widget event w = Ok (r, w') →
  ∃ w1 cp m0 a1 M0 C,
    r = true ∧
    w' = g_signal_emit_by_name (source_cut (parent a) (button_x event) widget) w1 ∧
    parent a = Some cp ∧ medias w !! m0 = None ∧
    medias w1 !! widget = Some a1 ∧ size_request a1 = (X + 2, FIXED_HEIGHT) ∧
    medias w1 !! m0 = Some M0 ∧
    size_request M0 = (alloc_width (allocation a) - (X + 2), FIXED_HEIGHT) ∧
    fst (size_request a1) + fst (size_request M0) = alloc_width (allocation a) ∧
    parent M0 = Some cp ∧ cells w1 !! cp = Some C ∧
    (m0, alloc_x (allocation a) + X + 2, 0) ∈ children C.
Proof.
  intros Hcur Ha Hlive HX HXW HW Hpos Hrun.
  unfold pitivi_timelinemedia_button_release_event in Hrun. rewrite Hcur in Hrun.
  apply bind_Ok in Hrun as (self & Hself & Hrun). apply get_media_Ok in Hself.
  rewrite Ha in Hself. injection Hself as <-.
  apply bind_Ok in Hrun as (w1 & Hsplit & Hrun). injection Hrun as <- <-.
  destruct (split_Ok _ _ _ _ _ _ Ha Hlive Hsplit)
    as (cp & c & pos & width & cutw & m0 & M0 & C & Hcp & Hc & Hvalues & -> & _ &
        Hsize & HM0 & HsM0 & HpM0 & HC & Hchild & _).
  destruct Hvalues as (t1 & t2 & cut & t3 & Ht1 & Ht2 & Hp & Hcut & Ht3 & Hwd & Hcw).
  unfold gdouble_of_gint in *. rewrite HX in *.
  rewrite gdouble_add_inject_Z in Ht1 by lia. injection Ht1 as <-.
  change 2%Q with (inject_Z 2) in *.
  rewrite gdouble_add_inject_Z in Ht2 by lia. injection Ht2 as <-.
  rewrite gdouble_to_guint_inject_Z in Hp by lia. injection Hp as <-.
  rewrite gdouble_add_inject_Z in Hcut by lia. injection Hcut as <-.
  rewrite gdouble_sub_inject_Z in Ht3 by lia. injection Ht3 as <-.
  rewrite gdouble_to_guint_inject_Z in Hwd by lia. injection Hwd as <-.
  rewrite gdouble_to_gint_inject_Z in Hcw by lia. injection Hcw as <-.
  rewrite guint_to_gint_small in HsM0, Hchild by lia.
  destruct (medias w1 !! widget) as [a1|] eqn:Ha1; [| discriminate].
  injection Hsize as Hsize.
  exists w1, cp, (fresh (dom (medias w))), a1, M0, C.
  split; [done |]. split; [done |]. split; [done |].
  split; [apply fresh_media_None |]. split; [done |]. split; [done |].
  split; [done |]. split; [done |].
  split; [rewrite Hsize, HsM0; simpl; lia |]. done.
Qed.

End Cut.

Lemma split_widths_sum_to_width_witness :
  ∃ r w' w1 m0 a1 M0,
    pitivi_timelinemedia_button_release_event (H := demo_externals) 1%positive
      (mkButton 1 (inject_Z 10) 0) (linked_pair false PITIVI_CURSOR_CUT) = Ok (r, w') ∧
    medias w1 !! 1%positive = Some a1 ∧ size_request a1 = (12, 50) ∧
    medias w1 !! m0 = Some M0 ∧ size_request M0 = (88, 50).
Proof.
  destruct (pitivi_timelinemedia_button_release_event (H := demo_externals) 1%positive
              (mkButton 1 (inject_Z 10) 0) (linked_pair false PITIVI_CURSOR_CUT))
    as [[r w']| |] eqn:Hrun; [| vm_compute in Hrun; discriminate Hrun ..].
  destruct (split_widths_sum_to_width (H := demo_externals) 1%positive
              (demo_clip 0 100 1%positive false (Some 2%positive) 1%positive) 10
              (mkButton 1 (inject_Z 10) 0) (linked_pair false PITIVI_CURSOR_CUT) w' r)
    as (w1 & cp & m0 & a1 & M0 & C & _ & _ & _ & _ & Ha1 & Hs1 & HM0 & HsM0 & _).
  - reflexivity.
  - reflexivity.
  - intros l Hl. simpl in Hl. injection Hl as <-. vm_compute. eauto.
  - reflexivity.
  - simpl. lia.
  - simpl. lia.
  - simpl. lia.
  - exact Hrun.
  - exists r, w', w1, m0, a1, M0. split; [reflexivity |].
    split; [exact Ha1 |]. split; [exact Hs1 |]. split; [exact HM0 | exact HsM0].
Defined.

(** ** Links after a split *)

Section Links.
Context `{Externals}.

Lemma split_linked_counter (container : option ptr) (m0 l : ptr) (M0 : PitiviTimelineMedia)
    (pos width : Z) (cut : gdouble) (w w1 : World) :
  medias w !! m0 = Some M0 →
  l ≠ m0 →
  split_linked container m0 l pos width cut w = Ok w1 →
  ∃ cp c C M1 si,
    container = Some cp ∧ cells w !! cp = Some c ∧ cells w1 !! cp = Some C ∧
    nb_added C = nb_added c + 2 ∧
    medias w1 !! fresh (dom (medias w)) = Some M1 ∧
    sourceitem M1 = Some si ∧ si_id si = nb_added c ∧
    cell (private M1) = Some cp.
Proof.
  intros HM0 Hlm0 Hrun. unfold split_linked in Hrun.
  apply bind_Ok in Hrun as (L & HL & Hrun). apply get_media_Ok in HL.
  apply bind_Ok in Hrun as (si & _ & Hrun).
  apply bind_Ok in Hrun as ([m w2] & Hnew & Hrun).
  destruct (pitivi_timelinemedia_new_shape _ _ _ _ _ Hnew)
    as (s & d & cp & c & g & engine & _ & -> & Hd & Hc & -> & ->).
  pose proof (fresh_media_ne w m0 M0 HM0) as Hne0.
  pose proof (fresh_media_ne w l L HL) as Hnel.
  set (m1 := fresh (dom (medias w))) in *.
  unfold get_cell in Hrun. simpl in Hrun. rewrite lookup_insert_eq in Hrun.
  simpl in Hrun.
  apply bind_Ok in Hrun as (w3 & Hput & Hrun).
  assert (∃ M C3 si1,
            medias w3 = <[m1 := M]> (medias w) ∧
            sourceitem M = Some si1 ∧ si_id si1 = nb_added c ∧
            cell (private M) = Some cp ∧
            cells w3 !! cp = Some C3 ∧ nb_added C3 = nb_added c + 1)
    as (M & C3 & si1 & Hm3 & HsM & Hid & HcM & HC3 & Hn3).
  { unfold gtk_layout_put in Hput.
    destruct (linked_track c) as [lt|] eqn:Hlt.
    - apply bind_Ok in Hput as (w4 & Hcell & Hput).
      apply update_cell_Ok in Hcell as (lt' & Clt & [= <-] & HClt & ->).
      erewrite update_media_hit in Hput by (simpl; apply lookup_insert_eq).
      injection Hput as <-. world_simpl. rewrite insert_insert_eq.
      destruct (decide (lt = cp)) as [->|Hne].
      + rewrite lookup_insert_eq in HClt. injection HClt as <-.
        eexists _, _, _. split; [reflexivity |]. simpl.
        split; [reflexivity |]. simpl. split; [reflexivity |].
        split; [reflexivity |].
        rewrite lookup_insert_eq. split; reflexivity.
      + eexists _, _, _. split; [reflexivity |]. simpl.
        split; [reflexivity |]. simpl. split; [reflexivity |].
        split; [reflexivity |].
        rewrite lookup_insert_ne, lookup_insert_eq by done. split; reflexivity.
    - injection Hput as <-. simpl.
      eexists _, _, _. split; [reflexivity |]. simpl.
      split; [reflexivity |]. simpl. split; [reflexivity |].
      split; [reflexivity |].
      rewrite lookup_insert_eq. split; reflexivity. }
  unfold gtk_widget_set_size_request in Hrun.
  erewrite update_media_hit in Hrun by (rewrite Hm3; apply lookup_insert_eq).
  simpl in Hrun.
  destruct (gdouble_to_gint cut) as [cutw| |] eqn:Hcut; simpl in Hrun; try discriminate.
  erewrite update_media_hit in Hrun
    by (world_simpl; rewrite Hm3, !lookup_insert_ne by done; exact HL).
  simpl in Hrun.
  erewrite update_media_hit in Hrun
    by (world_simpl; rewrite lookup_insert_ne, lookup_insert_eq by done; reflexivity).
  simpl in Hrun.
  erewrite update_media_hit in Hrun
    by (world_simpl; rewrite Hm3, !lookup_insert_ne by done; exact HM0).
  simpl in Hrun. unfold bump_nb_added in Hrun.
  erewrite update_cell_hit in Hrun by (world_simpl; exact HC3).
  injection Hrun as <-. world_simpl.
  eexists cp, c, _, _, si1. split; [done |]. split; [done |].
  rewrite lookup_insert_eq. split; [reflexivity |]. simpl. split; [lia |].
  rewrite lookup_insert_ne, lookup_insert_eq by done. split; [reflexivity |].
  simpl. done.
Qed.

(** The second clip a split adds beside the first is the mirrored one,
    and it was constructed on the container of the cut clip. *)
Lemma split_mirrored_cell (container : option ptr) (widget l m1 : ptr)
    (a M1 : PitiviTimelineMedia) (event : GdkEventButton) (w w1 : World) :
  medias w !! widget = Some a → linked a = Some l → is_Some (medias w !! l) →
  split container widget event w = Ok w1 →
  medias w !! m1 = None → m1 ≠ fresh (dom (medias w)) →
  medias w1 !! m1 = Some M1 →
  cell (private M1) = container.
Proof.
  intros Ha Hl [L0 HL0] Hsplit Hm1old Hm10 HM1. unfold split in Hsplit.
  apply bind_Ok in Hsplit as (self & Hself & Hsplit). apply get_media_Ok in Hself.
  rewrite Ha in Hself. injection Hself as <-.
  apply bind_Ok in Hsplit as (t1 & _ & Hsplit).
  apply bind_Ok in Hsplit as (t2 & _ & Hsplit).
  apply bind_Ok in Hsplit as (pos & _ & Hsplit).
  apply bind_Ok in Hsplit as (cut & _ & Hsplit).
  apply bind_Ok in Hsplit as (t3 & _ & Hsplit).
  apply bind_Ok in Hsplit as (width & _ & Hsplit).
  apply bind_Ok in Hsplit as (si & _ & Hsplit).
  apply bind_Ok in Hsplit as ([m0 w2] & Hself & Hsplit).
  destruct (split_self_Ok _ _ _ _ _ _ _ _ _ _ Ha Hself)
    as (cp & c & c2 & M0 & cutw & Hcp & Hc & -> & _ & Hm2 & _).
  pose proof (fresh_media_ne w widget a Ha) as Hne.
  pose proof (fresh_media_ne w l L0 HL0) as Hlm0.
  set (m0 := fresh (dom (medias w))) in *.
  apply bind_Ok in Hsplit as (self2 & Hself2 & Hsplit). apply get_media_Ok in Hself2.
  rewrite Hm2, lookup_insert_eq in Hself2. injection Hself2 as <-. simpl in Hsplit.
  rewrite Hl in Hsplit.
  assert (medias w2 !! m0 = Some M0) as HM0.
  { by rewrite Hm2, lookup_insert_ne, lookup_insert_eq. }
  destruct (split_linked_Ok _ _ _ _ _ _ _ _ _ HM0 Hlm0 Hsplit)
    as (_ & _ & _ & _ & _ & m1' & _ & _ & _ & _ & Hm1' & _ & _ & _ & Hframe & _).
  destruct (split_linked_counter _ _ _ _ _ _ _ _ _ HM0 Hlm0 Hsplit)
    as (cp' & _ & _ & M1' & _ & Hcp' & _ & _ & _ & HM1' & _ & _ & Hcell).
  rewrite <- Hm1' in HM1'.
  destruct (decide (m1 = m1')) as [->|Hne1].
  - rewrite HM1 in HM1'. injection HM1' as <-. by rewrite Hcell, Hcp'.
  - assert (m1 ≠ l) as Hm1l by (intros ->; congruence).
    assert (m1 ≠ widget) as Hm1w by (intros ->; congruence).
    rewrite (Hframe m1 Hm10 Hne1 Hm1l), Hm2, !lookup_insert_ne in HM1 by done.
    congruence.
Qed.

(** C4 (amended). A split of a clip A that has a linked sibling B hands
    to the handlers of "source-cut" a world with two new clips, at fresh
    addresses (so neither is A, B or any earlier clip), both constructed
    on A's track.  The first is put on A's track; the second, the
    mirrored one, is put at the same place with the same requested width
    on the track that A's track is linked to: that is the sibling's
    track exactly when the sibling sits on that track, and no track,
    the clip staying without a parent, when A's track is linked to none.
    B is requested to shrink as A is.  The two
    new clips are linked to each other, every earlier clip keeps its
    link, and if every link was answered before the split, every link is
    answered after it. *)
Theorem split_links_new_halves
    (A B : ptr) (a b : PitiviTimelineMedia) (event : GdkEventButton)
    (w w' : World) (r : bool) :
  cursor w = PITIVI_CURSOR_CUT →
  medias w !! A = Some a →
  linked a = Some B →
  medias w !! B = Some b →
  pitivi_timelinemedia_button_release_event A event w = Ok (r, w') →
  ∃ w1 cp c m0 m1 M0 M1,
    w' = g_signal_emit_by_name (source_cut (parent a) (button_x event) A) w1 ∧
    parent a = Some cp ∧ cells w !! cp = Some c ∧
    medias w !! m0 = None ∧ medias w !! m1 = None ∧ m0 ≠ m1 ∧
    medias w1 !! m0 = Some M0 ∧ medias w1 !! m1 = Some M1 ∧
    linked M0 = Some m1 ∧ linked M1 = Some m0 ∧
    parent M0 = Some cp ∧ parent M1 = linked_track c ∧
    cell (private M1) = Some cp ∧
    (parent M1 = parent b ↔ parent b = linked_track c) ∧
    size_request M1 = size_request M0 ∧
    (∀ lt, linked_track c = Some lt →
       ∃ C Clt pos, cells w1 !! cp = Some C ∧ (m0, pos, 0) ∈ children C ∧
                    cells w1 !! lt = Some Clt ∧ (m1, pos, 0) ∈ children Clt) ∧
    size_request <$> medias w1 !! B = size_request <$> medias w1 !! A ∧
    (∀ q, is_Some (medias w !! q) →
          linked <$> medias w1 !! q = linked <$> medias w !! q) ∧
    (symmetric_links w → symmetric_links w1).
Proof.
  intros Hcur Ha Hl HB Hrun.
  unfold pitivi_timelinemedia_button_release_event in Hrun. rewrite Hcur in Hrun.
  apply bind_Ok in Hrun as (self & Hself & Hrun). apply get_media_Ok in Hself.
  rewrite Ha in Hself. injection Hself as <-.
  apply bind_Ok in Hrun as (w1 & Hsplit & Hrun). injection Hrun as _ <-.
  assert (∀ l, linked a = Some l → is_Some (medias w !! l)) as Hlive.
  { intros l Hl'. rewrite Hl in Hl'. injection Hl' as <-. eauto. }
  destruct (split_Ok _ _ _ _ _ _ Ha Hlive Hsplit)
    as (cp & c & pos & width & cutw & m0 & M0 & C & Hcp & Hc & _ & Hm0 & Hkeep &
        Hsize & HM0 & HsM0 & HpM0 & HC & Hchild & _ & Hlinked).
  destruct (Hlinked B Hl)
    as (m1 & M1 & Hm10 & Hm1old & HM1 & HlM0 & HlM1 & HsM1 & HpM1 & HsizeB & Hplaced & Hdom).
  assert (cell (private M1) = Some cp) as HcM1.
  { rewrite <- Hcp. rewrite Hm0 in Hm10.
    exact (split_mirrored_cell _ _ _ _ _ _ _ _ _ Ha Hl (mk_is_Some _ _ HB) Hsplit
             Hm1old Hm10 HM1). }
  exists w1, cp, c, m0, m1, M0, M1.
  split; [done |]. split; [done |]. split; [done |].
  split; [rewrite Hm0; apply fresh_media_None |]. split; [done |].
  split; [done |]. split; [done |]. split; [done |]. split; [done |].
  split; [done |]. split; [done |]. split; [done |]. split; [done |].
  split; [rewrite HpM1; split; congruence |].
  split; [by rewrite HsM0, HsM1 |].
  split.
  { intros lt Hlt. destruct (Hplaced lt Hlt) as (Clt & HClt & Hin).
    exists C, Clt, (guint_to_gint pos). done. }
  split; [by rewrite HsizeB, Hsize |].
  split; [exact Hkeep |].
  intros Hsym p q P HP HPq.
  destruct (Hdom p (mk_is_Some _ _ HP)) as [-> | [-> | [P0 HP0]]].
  - rewrite HM0 in HP. injection HP as <-. rewrite HlM0 in HPq. injection HPq as <-.
    eauto.
  - rewrite HM1 in HP. injection HP as <-. rewrite HlM1 in HPq. injection HPq as <-.
    eauto.
  - pose proof (Hkeep p (mk_is_Some _ _ HP0)) as Hp. rewrite HP, HP0 in Hp.
    injection Hp as Hp. rewrite HPq in Hp.
    destruct (Hsym p q P0 HP0 (eq_sym Hp)) as (Q0 & HQ0 & HQ0p).
    pose proof (Hkeep q (mk_is_Some _ _ HQ0)) as Hq. rewrite HQ0 in Hq.
    destruct (medias w1 !! q) as [Q|]; [| discriminate].
    injection Hq as Hq. exists Q. split; [done | congruence].
Qed.

End Links.

Lemma split_links_new_halves_witness :
  ∃ r w' w1 m0 m1 M0 M1,
    pitivi_timelinemedia_button_release_event (H := demo_externals) 1%positive
      (mkButton 1 tenth 0) (linked_pair false PITIVI_CURSOR_CUT) = Ok (r, w') ∧
    m0 ≠ m1 ∧ medias w1 !! m0 = Some M0 ∧ medias w1 !! m1 = Some M1 ∧
    linked M0 = Some m1 ∧ linked M1 = Some m0 ∧
    parent M0 = Some 1%positive ∧ parent M1 = Some 2%positive ∧
    cell (private M1) = Some 1%positive.
Proof.
  destruct (pitivi_timelinemedia_button_release_event (H := demo_externals) 1%positive
              (mkButton 1 tenth 0) (linked_pair false PITIVI_CURSOR_CUT))
    as [[r w']| |] eqn:Hrun; [| vm_compute in Hrun; discriminate Hrun ..].
  destruct (split_links_new_halves (H := demo_externals) 1%positive 2%positive
              (demo_clip 0 100 1%positive false (Some 2%positive) 1%positive)
              (demo_clip 0 100 2%positive false (Some 1%positive) 2%positive)
              (mkButton 1 tenth 0) (linked_pair false PITIVI_CURSOR_CUT) w' r)
    as (w1 & cp & c & m0 & m1 & M0 & M1 & _ & Hcp & Hc & _ & _ & Hne & HM0 & HM1 & HlM0 &
        HlM1 & HpM0 & HpM1 & HcM1 & _).
  - reflexivity.
  - reflexivity.
  - reflexivity.
  - reflexivity.
  - exact Hrun.
  - exists r, w', w1, m0, m1, M0, M1. split; [reflexivity |].
    simpl in Hcp. injection Hcp as <-.
    vm_compute in Hc. injection Hc as <-. simpl in HpM1.
    split; [exact Hne |]. split; [exact HM0 |]. split; [exact HM1 |].
    split; [exact HlM0 |]. split; [exact HlM1 |]. split; [exact HpM0 |].
    split; [exact HpM1 | exact HcM1].
Defined.

(** On [crossed_tracks] the video track is linked to the transition
    track while the sibling of clip 1, clip 2, sits on the audio track:
    the split of clip 1 puts the mirrored clip, clip 4, on the transition
    track, and the sibling's track gets no child; the clip was
    constructed on the track of clip 1. *)
Lemma split_mirrors_on_linked_track_not_siblings :
  linked <$> medias crossed_tracks !! 1%positive = Some (Some 2%positive) ∧
  medias crossed_tracks !! 4%positive = None ∧
  ∃ w' b M1 C2 C3,
    pitivi_timelinemedia_button_release_event (H := demo_externals) 1%positive
      (mkButton 1 (inject_Z 10) 0) crossed_tracks = Ok (true, w') ∧
    medias w' !! 2%positive = Some b ∧ parent b = Some 2%positive ∧
    medias w' !! 4%positive = Some M1 ∧
    linked M1 = Some 3%positive ∧
    parent M1 = Some 3%positive ∧ parent M1 ≠ parent b ∧
    cell (private M1) = Some 1%positive ∧
    cells w' !! 2%positive = Some C2 ∧ children C2 = [] ∧
    cells w' !! 3%positive = Some C3 ∧ children C3 = [(4%positive, 12, 0)].
Proof.
  split; [reflexivity |]. split; [reflexivity |]. eexists _, _, _, _, _.
  split; [vm_compute; reflexivity |].
  split; [reflexivity |]. split; [reflexivity |]. split; [reflexivity |].
  split; [reflexivity |]. split; [reflexivity |]. split; [discriminate |].
  split; [reflexivity |]. split; [reflexivity |]. split; [reflexivity |].
  split; reflexivity.
Qed.



(** * Further properties *)

(** ** Construction: the new clip, the counter, and what is left alone *)

Section NewClip.
Context `{Externals}.

(** X1. A successful construction takes the identifier of the clip from the
    track's counter as it was before the call and leaves the counter one
    higher; the clip starts unselected, unlinked, without a parent, not
    disposed, flagged as audio exactly on an audio track, and holds the
    descriptor and track it was built from. *)
Theorem new_clip_takes_counter
    (descriptor track : option ptr) (w w' : World) (p : ptr) :
  pitivi_timelinemedia_new descriptor track w = Ok (p, w') →
  ∃ cp c c' m si,
    track = Some cp ∧ cells w !! cp = Some c ∧ cells w' !! cp = Some c' ∧
    nb_added c' = nb_added c + 1 ∧ track_type c' = track_type c ∧
    linked_track c' = linked_track c ∧ children c' = children c ∧
    medias w !! p = None ∧ medias w' !! p = Some m ∧
    sourceitem m = Some si ∧ si_id si = nb_added c ∧
    si_isaudio si = bool_decide (track_type c = PITIVI_AUDIO_TRACK) ∧
    selected m = false ∧ linked m = None ∧ parent m = None ∧
    dispose_has_run (private m) = false ∧
    sf (private m) = descriptor ∧ cell (private m) = track.
Proof.
  intros Hrun.
  destruct (pitivi_timelinemedia_new_shape _ _ _ _ _ Hrun)
    as (s & d & cp & c & g & engine & -> & -> & Hd & Hc & -> & ->).
  eexists cp, c, _, _, _. split; [done |]. split; [done |]. simpl.
  rewrite !lookup_insert_eq. split; [reflexivity |]. simpl.
  split; [done |]. split; [done |]. split; [done |]. split; [done |].
  split; [apply fresh_media_None |]. split; [reflexivity |]. simpl.
  split; [reflexivity |]. simpl. done.
Qed.

(** X2. A construction leaves every earlier clip, descriptor and engine
    object as it was, and the character buffers, the cursor and every
    other track too; it emits no signal: the calls it adds are the five
    of [instance_init] on the new clip. *)
Theorem new_leaves_the_rest
    (sf cell : option ptr) (w w' : World) (p : ptr) :
  pitivi_timelinemedia_new sf cell w = Ok (p, w') →
  (∀ q, is_Some (medias w !! q) → medias w' !! q = medias w !! q) ∧
  (∀ q, is_Some (srcfiles w !! q) → srcfiles w' !! q = srcfiles w !! q) ∧
  (∀ q, is_Some (gnl w !! q) → gnl w' !! q = gnl w !! q) ∧
  (∀ q, cell ≠ Some q → cells w' !! q = cells w !! q) ∧
  chars w' = chars w ∧ cursor w' = cursor w ∧
  calls w' = calls w ++ init_calls p ∧
  size (medias w') = S (size (medias w)) ∧
  size (srcfiles w') = S (size (srcfiles w)).
Proof.
  intros Hrun.
  destruct (pitivi_timelinemedia_new_Ok _ _ _ _ _ Hrun)
    as (s & d & cp & c & -> & Hd & -> & Hc).
  rewrite (pitivi_timelinemedia_new_eq s cp d c w Hd Hc) in Hrun.
  assert (∀ (A : Type) (m : gmap ptr A) (q : ptr),
            is_Some (m !! q) → q ≠ fresh (dom m)) as Hfresh.
  { intros A m q [x Hx] ->.
    assert (m !! fresh (dom m) = None) as Hn by apply not_elem_of_dom, is_fresh.
    congruence. }
  assert (∀ g engine,
            (∀ q, is_Some (gnl w !! q) → engine !! q = gnl w !! q) →
            w' = after_new s cp d c g engine w →
            p = fresh (dom (medias w)) →
            (∀ q, is_Some (medias w !! q) → medias w' !! q = medias w !! q) ∧
            (∀ q, is_Some (srcfiles w !! q) → srcfiles w' !! q = srcfiles w !! q) ∧
            (∀ q, is_Some (gnl w !! q) → gnl w' !! q = gnl w !! q) ∧
            (∀ q, Some cp ≠ Some q → cells w' !! q = cells w !! q) ∧
            chars w' = chars w ∧ cursor w' = cursor w ∧
            calls w' = calls w ++ init_calls p ∧
            size (medias w') = S (size (medias w)) ∧
            size (srcfiles w') = S (size (srcfiles w))) as Hshape.
  { intros g engine Hengine -> ->. simpl.
    split; [intros q Hq; apply lookup_insert_ne; by apply not_eq_sym, Hfresh |].
    split; [intros q Hq; apply lookup_insert_ne; by apply not_eq_sym, Hfresh |].
    split; [exact Hengine |].
    split; [intros q Hq; apply lookup_insert_ne; congruence |].
    split; [done |]. split; [done |]. split; [done |].
    split; apply map_size_insert_None, not_elem_of_dom, is_fresh. }
  destruct (decide (track_type c ≠ PITIVI_TRANSITION_TRACK)).
  - apply bind_Ok in Hrun as (filename & _ & Hrun).
    apply bind_Ok in Hrun as (mediatype & _ & Hrun).
    destruct (name_fits filename mediatype (nb_added c)); [| discriminate].
    injection Hrun as <- <-. eapply Hshape; [| reflexivity | reflexivity].
    intros q Hq. apply lookup_insert_ne. by apply not_eq_sym, Hfresh.
  - injection Hrun as <- <-. eapply Hshape; [| reflexivity | reflexivity]. done.
Qed.

(** X3. Without a descriptor, or without a track, the construction has no
    defined outcome: [pitivi_timelinemedia_new] accepts a NULL descriptor
    (it tests [if (sf)]), and the constructor then copies from it. *)
Theorem new_needs_descriptor_and_track (sf cell : option ptr) (w : World) :
  sf = None ∨ cell = None ∨
  (∃ s, sf = Some s ∧ srcfiles w !! s = None) ∨
  (∃ cp, cell = Some cp ∧ cells w !! cp = None) →
  pitivi_timelinemedia_new sf cell w = Undefined.
Proof.
  intros Hbad.
  destruct (pitivi_timelinemedia_new sf cell w) as [[p w']| |] eqn:Hrun.
  - destruct (pitivi_timelinemedia_new_Ok _ _ _ _ _ Hrun)
      as (s & d & cp & c & -> & Hd & -> & Hc).
    destruct Hbad as [? | [? | [(s' & [= <-] & Hs) | (cp' & [= <-] & Hcp)]]];
      congruence.
  - exfalso. revert Hrun. unfold pitivi_timelinemedia_new.
    match goal with |- context [g_object_new [_; (_, GInt ?t); _] w] =>
      change (g_object_new [("source_file", GPointer sf); ("media_type", GInt t);
                            ("cell", GPointer cell)] w)
        with ('(object, w1) ← pitivi_timelinemedia_constructor
                                [(PROP_SOURCEFILE, GPointer sf); (PROP_CELL, GPointer cell)] w;
              w2 ← set_properties object [(PROP_MEDIA_TYPE, GInt t)] w1;
              Ok (object, w2))
    end.
    unfold pitivi_timelinemedia_constructor.
    rewrite set_construct_properties. simpl.
    unfold get_media. simpl. rewrite lookup_insert_eq. simpl.
    destruct sf as [s|]; simpl; [| discriminate].
    destruct (srcfiles w !! s) as [d|] eqn:Hd; simpl; [| discriminate].
    unfold get_cell.
    destruct cell as [cp|]; simpl; [| discriminate]. world_simpl.
    destruct (cells w !! cp) as [c|] eqn:Hc; simpl; [| discriminate].
    destruct (decide (track_type c ≠ PITIVI_TRANSITION_TRACK)).
    + unfold get_chars.
      destruct (sf_filename d) as [fa|]; simpl; [| discriminate].
      destruct (chars w !! fa) as [filename|]; simpl; [| discriminate].
      destruct (sf_mediatype d) as [ma|]; simpl; [| discriminate].
      destruct (chars w !! ma) as [mediatype|]; simpl; [| discriminate].
      destruct (name_fits filename mediatype (nb_added c)); [| discriminate].
      unfold gnl_object_set_media_start_stop, update_gnl. simpl.
      rewrite lookup_insert_eq. simpl.
      erewrite update_media_hit by (simpl; apply lookup_insert_eq). simpl.
      unfold pitivi_timelinemedia_set_property. simpl.
      erewrite update_media_hit by (simpl; apply lookup_insert_eq). simpl.
      erewrite update_cell_hit by exact Hc. discriminate.
    + erewrite update_media_hit by (simpl; apply lookup_insert_eq). simpl.
      unfold pitivi_timelinemedia_set_property. simpl.
      erewrite update_media_hit by (simpl; apply lookup_insert_eq). simpl.
      erewrite update_cell_hit by exact Hc. discriminate.
  - reflexivity.
Qed.

End NewClip.

Lemma new_clip_takes_counter_witness :
  ∃ p w' c' m si,
    pitivi_timelinemedia_new (H := demo_externals) (Some 1%positive) (Some 2%positive)
      (linked_pair false PITIVI_CURSOR_SELECT) = Ok (p, w') ∧
    cells w' !! 2%positive = Some c' ∧ nb_added c' = 1 ∧
    medias w' !! p = Some m ∧ sourceitem m = Some si ∧ si_id si = 0 ∧
    si_isaudio si = true.
Proof.
  destruct (pitivi_timelinemedia_new (H := demo_externals) (Some 1%positive)
              (Some 2%positive) (linked_pair false PITIVI_CURSOR_SELECT))
    as [[p w']| |] eqn:Hrun; [| vm_compute in Hrun; discriminate Hrun ..].
  destruct (new_clip_takes_counter (H := demo_externals) _ _ _ _ _ Hrun)
    as (cp & c & c' & m & si & Hcp & Hc & Hc' & Hn & _ & _ & _ & _ & Hm & Hsi & Hid &
        Haudio & _).
  injection Hcp as <-. vm_compute in Hc. injection Hc as <-.
  exists p, w', c', m, si. split; [reflexivity |]. split; [exact Hc' |].
  split; [exact Hn |]. split; [exact Hm |]. split; [exact Hsi |].
  split; [exact Hid | exact Haudio].
Defined.

Lemma new_leaves_the_rest_witness :
  ∃ p w',
    pitivi_timelinemedia_new (H := demo_externals) (Some 1%positive) (Some 2%positive)
      (linked_pair true PITIVI_CURSOR_SELECT) = Ok (p, w') ∧
    medias w' !! 1%positive = medias (linked_pair true PITIVI_CURSOR_SELECT) !! 1%positive ∧
    calls w' = init_calls p.
Proof.
  destruct (pitivi_timelinemedia_new (H := demo_externals) (Some 1%positive)
              (Some 2%positive) (linked_pair true PITIVI_CURSOR_SELECT))
    as [[p w']| |] eqn:Hrun; [| vm_compute in Hrun; discriminate Hrun ..].
  destruct (new_leaves_the_rest (H := demo_externals) _ _ _ _ _ Hrun)
    as (Hm & _ & _ & _ & _ & _ & Hcalls & _).
  exists p, w'. split; [reflexivity |]. split.
  - apply Hm. vm_compute. eauto.
  - exact Hcalls.
Defined.

Lemma new_needs_descriptor_and_track_witness :
  pitivi_timelinemedia_new (H := demo_externals) None (Some 1%positive)
    (empty_timeline PITIVI_CURSOR_SELECT) = Undefined.
Proof.
  apply (new_needs_descriptor_and_track (H := demo_externals)). left. reflexivity.
Defined.

(** ** Engine names *)

Lemma append_cancel_l (a x y : string) : a +:+ x = a +:+ y → x = y.
Proof. induction a as [|ch a IH]; simpl; [done |]. intros [= Heq]. by apply IH. Qed.

Lemma decimal_injective (i j : Z) :
  NilZero.string_of_int (Z.to_int i) = NilZero.string_of_int (Z.to_int j) → i = j.
Proof.
  intros Heq.
  assert (∀ z, Z.to_int z ≠ Decimal.Pos Decimal.Nil ∧ Z.to_int z ≠ Decimal.Neg Decimal.Nil)
    as Hnil.
  { intros z. split; intros Hz; pose proof (f_equal Z.of_int Hz) as Hz';
      rewrite DecimalZ.of_to in Hz'; simpl in Hz'; subst z; vm_compute in Hz;
      discriminate Hz. }
  apply DecimalZ.to_int_inj.
  assert (Some (Z.to_int i) = Some (Z.to_int j)) as Hsome; [| by injection Hsome].
  rewrite <- (NilZero.isi (Z.to_int i)), <- (NilZero.isi (Z.to_int j));
    try apply Hnil.
  by rewrite Heq.
Qed.

(** X4. For one file name and media kind, the name built for the engine
    object determines the identifier: two identifiers never print to the
    same name. *)
Theorem sprintf_name_injective (filename mediatype : string) (i j : Z) :
  sprintf_name filename mediatype i = sprintf_name filename mediatype j → i = j.
Proof.
  unfold sprintf_name. intros Heq.
  apply append_cancel_l, append_cancel_l, append_cancel_l, append_cancel_l in Heq.
  by apply decimal_injective.
Qed.

Lemma sprintf_name_injective_witness :
  sprintf_name "a.avi" "video" 7 = sprintf_name "a.avi" "video" (3 + 4) ∧ 7 = 3 + 4.
Proof.
  split; [reflexivity |].
  apply (sprintf_name_injective "a.avi" "video" 7 (3 + 4)). reflexivity.
Defined.

Section Names.
Context `{Externals}.

(** X5. Two constructions in a row from one descriptor on one track, not a
    transition track, give the second clip the next identifier and a
    second engine object, at another address and under another name. *)
Theorem consecutive_clips_get_distinct_names
    (s cp : ptr) (c : PitiviTimelineCellRenderer) (w w1 w2 : World) (p1 p2 : ptr) :
  cells w !! cp = Some c →
  track_type c ≠ PITIVI_TRANSITION_TRACK →
  pitivi_timelinemedia_new (Some s) (Some cp) w = Ok (p1, w1) →
  pitivi_timelinemedia_new (Some s) (Some cp) w1 = Ok (p2, w2) →
  ∃ m1 m2 si1 si2 g1 g2 o1 o2,
    p1 ≠ p2 ∧ medias w2 !! p1 = Some m1 ∧ medias w2 !! p2 = Some m2 ∧
    sourceitem m1 = Some si1 ∧ sourceitem m2 = Some si2 ∧
    si_id si1 = nb_added c ∧ si_id si2 = nb_added c + 1 ∧
    si_gnlsource si1 = Some g1 ∧ si_gnlsource si2 = Some g2 ∧ g1 ≠ g2 ∧
    gnl w2 !! g1 = Some o1 ∧ gnl w2 !! g2 = Some o2 ∧
    gnl_name o1 ≠ gnl_name o2.
Proof.
  intros Hc Hne Hrun1 Hrun2.
  destruct (pitivi_timelinemedia_new_Ok _ _ _ _ _ Hrun1)
    as (s' & d & cp' & c' & [= <-] & Hd & [= <-] & Hc').
  rewrite Hc in Hc'. injection Hc' as <-.
  rewrite (pitivi_timelinemedia_new_eq s cp d c w Hd Hc) in Hrun1.
  destruct (decide (track_type c ≠ PITIVI_TRANSITION_TRACK)) as [_|]; [| done].
  apply bind_Ok in Hrun1 as (filename & Hf & Hrun1).
  apply bind_Ok in Hrun1 as (mediatype & Hm & Hrun1).
  destruct (name_fits filename mediatype (nb_added c)); [| discriminate].
  injection Hrun1 as <- <-.
  assert (srcfiles w !! fresh (dom (srcfiles w)) = None) as Hfs
    by apply not_elem_of_dom, is_fresh.
  assert (gnl w !! fresh (dom (gnl w)) = None) as Hfg
    by apply not_elem_of_dom, is_fresh.
  set (g1 := fresh (dom (gnl w))) in *.
  set (w1 := after_new s cp d c (Some g1)
               (<[g1 := engine_object filename mediatype d (nb_added c)]> (gnl w)) w) in *.
  assert (srcfiles w1 !! s = Some d) as Hd1.
  { simpl. rewrite lookup_insert_ne; [done |]. intros Heq. congruence. }
  assert (cells w1 !! cp = Some (set_nb_added (nb_added c + 1) c)) as Hc1.
  { simpl. apply lookup_insert_eq. }
  rewrite (pitivi_timelinemedia_new_eq s cp d _ w1 Hd1 Hc1) in Hrun2. simpl in Hrun2.
  destruct (decide (track_type c ≠ PITIVI_TRANSITION_TRACK)) as [_|]; [| done].
  change (get_chars (sf_filename d) w1) with (get_chars (sf_filename d) w) in Hrun2.
  rewrite Hf in Hrun2. simpl in Hrun2.
  change (get_chars (sf_mediatype d) w1) with (get_chars (sf_mediatype d) w) in Hrun2.
  rewrite Hm in Hrun2. simpl in Hrun2.
  destruct (name_fits filename mediatype (nb_added c + 1)); [| discriminate].
  injection Hrun2 as <- <-.
  pose proof (fresh_media_None w) as Hp1.
  pose proof (fresh_media_None w1) as Hp2.
  assert (gnl w1 !! fresh (dom (gnl w1)) = None) as Hg2
    by apply not_elem_of_dom, is_fresh.
  set (p1 := fresh (dom (medias w))) in *.
  set (p2 := fresh (dom (medias w1))) in *.
  set (g2 := fresh (dom (gnl w1))) in *.
  assert (p1 ≠ p2) as Hp.
  { intros Heq. rewrite <- Heq in Hp2. simpl in Hp2.
    rewrite lookup_insert_eq in Hp2. discriminate. }
  assert (g1 ≠ g2) as Hg.
  { intros Heq. rewrite <- Heq in Hg2. simpl in Hg2.
    rewrite lookup_insert_eq in Hg2. discriminate. }
  eexists _, _, _, _, g1, g2, _, _. split; [exact Hp |]. simpl.
  rewrite lookup_insert_ne, lookup_insert_eq by done. split; [reflexivity |].
  rewrite lookup_insert_eq. split; [reflexivity |]. simpl.
  split; [reflexivity |]. split; [reflexivity |]. simpl.
  split; [reflexivity |]. split; [reflexivity |]. split; [reflexivity |].
  split; [reflexivity |]. split; [exact Hg |].
  rewrite lookup_insert_ne, lookup_insert_eq by done. split; [reflexivity |].
  rewrite lookup_insert_eq. split; [reflexivity |]. simpl.
  intros Heq. apply sprintf_name_injective in Heq. lia.
Qed.

End Names.

Lemma consecutive_clips_get_distinct_names_witness :
  ∃ p1 w1 p2 w2 g1 g2 o1 o2,
    pitivi_timelinemedia_new (H := demo_externals) (Some 1%positive) (Some 1%positive)
      (empty_timeline PITIVI_CURSOR_SELECT) = Ok (p1, w1) ∧
    pitivi_timelinemedia_new (H := demo_externals) (Some 1%positive) (Some 1%positive) w1
      = Ok (p2, w2) ∧
    gnl w2 !! g1 = Some o1 ∧ gnl w2 !! g2 = Some o2 ∧ gnl_name o1 ≠ gnl_name o2.
Proof.
  destruct (pitivi_timelinemedia_new (H := demo_externals) (Some 1%positive)
              (Some 1%positive) (empty_timeline PITIVI_CURSOR_SELECT))
    as [[p1 w1]| |] eqn:Hrun1; [| vm_compute in Hrun1; discriminate Hrun1 ..].
  destruct (pitivi_timelinemedia_new (H := demo_externals) (Some 1%positive)
              (Some 1%positive) w1)
    as [[p2 w2]| |] eqn:Hrun2;
    [| vm_compute in Hrun1; injection Hrun1 as _ <-; vm_compute in Hrun2;
       discriminate Hrun2 ..].
  destruct (consecutive_clips_get_distinct_names (H := demo_externals) 1%positive
              1%positive (mkCell PITIVI_VIDEO_TRACK 0 (Some 2%positive) [])
              (empty_timeline PITIVI_CURSOR_SELECT) w1 w2 p1 p2)
    as (m1 & m2 & si1 & si2 & g1 & g2 & o1 & o2 & _ & _ & _ & _ & _ & _ & _ & _ & _ & _ &
        Ho1 & Ho2 & Hne).
  - reflexivity.
  - discriminate.
  - exact Hrun1.
  - exact Hrun2.
  - exists p1, w1, p2, w2, g1, g2, o1, o2. split; [reflexivity |].
    split; [exact Hrun2 |]. split; [exact Ho1 |]. split; [exact Ho2 | exact Hne].
Defined.

(** ** Writing a property *)

(** X6. Writing a property of a live clip stops in the assertion exactly for
    the ids other than 1, 2 and 3.  For those three it returns, and what
    it changes is the private part of that clip alone: selection, link,
    geometry and source item of the clip, the other clips and the rest of
    the world are as before.  The value is read as an integer for id 1
    and as a pointer for ids 2 and 3. *)
Theorem set_property_aborts_on_unknown_id
    (object : ptr) (m : PitiviTimelineMedia) (id : Z) (v : GValue) (w : World) :
  medias w !! object = Some m →
  (pitivi_timelinemedia_set_property object id v w = Abort ↔ id ≠ 1 ∧ id ≠ 2 ∧ id ≠ 3) ∧
  (id = 1 ∨ id = 2 ∨ id = 3 →
   ∃ priv,
     pitivi_timelinemedia_set_property object id v w
       = Ok (put_media object (set_private (fun _ => priv) m) w) ∧
     (id = 1 → priv = set_media_type (g_value_get_int v) (private m)) ∧
     (id = 2 → priv = set_sf (g_value_get_pointer v) (private m)) ∧
     (id = 3 → priv = set_cell (g_value_get_pointer v) (private m))).
Proof.
  intros Hm. unfold pitivi_timelinemedia_set_property, PROP_MEDIA_TYPE,
    PROP_SOURCEFILE, PROP_CELL.
  destruct (decide (id = 1)) as [->|H1]; [| destruct (decide (id = 2)) as [->|H2];
    [| destruct (decide (id = 3)) as [->|H3]]].
  - rewrite (update_media_hit _ _ _ _ Hm). split; [split; [discriminate | lia] |].
    intros _. eexists. split; [reflexivity |].
    split; [done |]. split; intros; discriminate.
  - rewrite (update_media_hit _ _ _ _ Hm). split; [split; [discriminate | lia] |].
    intros _. eexists. split; [reflexivity |].
    split; [intros; discriminate |]. split; [done | intros; discriminate].
  - rewrite (update_media_hit _ _ _ _ Hm). split; [split; [discriminate | lia] |].
    intros _. eexists. split; [reflexivity |].
    split; [intros; discriminate |]. split; [intros; discriminate | done].
  - split; [split; [done | done] | lia].
Qed.

Lemma set_property_aborts_on_unknown_id_witness :
  pitivi_timelinemedia_set_property 1%positive 4 (GInt 0)
    (single_clip false PITIVI_CURSOR_SELECT) = Abort.
Proof.
  apply (set_property_aborts_on_unknown_id 1%positive
           (demo_clip 0 100 1%positive false None 1%positive) 4 (GInt 0)
           (single_clip false PITIVI_CURSOR_SELECT) eq_refl).
  lia.
Defined.

(** ** Dispose and delete *)

Lemma pitivi_timelinemedia_dispose_log (object : ptr) (c : Call) (w : World) :
  pitivi_timelinemedia_dispose object (log c w)
  = log c (pitivi_timelinemedia_dispose object w).
Proof.
  change (medias w !! object) with (medias (log c w) !! object).
  destruct (medias w !! object) as [m|] eqn:Hm.
  - destruct (dispose_has_run (private m)) eqn:Hd.
    + by rewrite !(pitivi_timelinemedia_dispose_again object m) by done.
    + by rewrite !(pitivi_timelinemedia_dispose_first object m) by done.
  - by rewrite !pitivi_timelinemedia_dispose_dangling by done.
Qed.


Lemma medias_gtk_widget_destroy_ne (p q : ptr) (w : World) :
  q ≠ p → medias (gtk_widget_destroy p w) !! q = medias w !! q.
Proof.
  intros Hne. unfold gtk_widget_destroy. rewrite pitivi_timelinemedia_dispose_log.
  simpl. dispose_cases p w; [done | | done]. simpl. by rewrite lookup_insert_ne.
Qed.









(** X9. Dissociate, then delete: on a selected clip A linked to another live
    clip B, dissociate followed by delete repaints B and destroys A only;
    B has not run its dispose handler unless it had before.  A second
    dissociate in between changes nothing. *)
Theorem dissociate_then_delete_spares_sibling
    (A B : ptr) (a b : PitiviTimelineMedia) (w : World) :
  medias w !! A = Some a → selected a = true → linked a = Some B →
  A ≠ B → medias w !! B = Some b →
  ∃ w1 w2,
    pitivi_timelinemedia_callb_dissociate A w = Ok w1 ∧
    pitivi_timelinemedia_callb_dissociate A w1 = Ok w1 ∧
    pitivi_timelinemedia_callb_destroy A w1 = Ok w2 ∧
    calls w2 = calls w ++ [Expose B; Destroy A] ∧
    disposed A w2 ∧
    (dispose_has_run ∘ private) <$> medias w2 !! B
      = Some (dispose_has_run (private b)).
Proof.
  intros Ha Hsel Hl Hne Hb.
  unfold pitivi_timelinemedia_callb_dissociate at 1. rewrite Ha, Hl, Hsel.
  erewrite update_media_hit by exact Hb. simpl.
  erewrite update_media_hit by (simpl; apply lookup_insert_eq). simpl.
  erewrite update_media_hit
    by (simpl; rewrite !lookup_insert_ne by done; exact Ha).
  eexists _, _. split; [reflexivity |].
  split.
  { unfold pitivi_timelinemedia_callb_dissociate. simpl.
    rewrite lookup_insert_eq. reflexivity. }
  unfold pitivi_timelinemedia_callb_destroy, get_media. simpl.
  rewrite lookup_insert_eq. simpl. rewrite Hsel. split; [reflexivity |].
  rewrite calls_gtk_widget_destroy. simpl. rewrite <- app_assoc.
  split; [reflexivity |]. split.
  - apply disposed_gtk_widget_destroy. simpl. rewrite lookup_insert_eq. eauto.
  - rewrite medias_gtk_widget_destroy_ne by done. simpl.
    rewrite !lookup_insert_ne, lookup_insert_eq by done. reflexivity.
Qed.

Lemma dissociate_then_delete_spares_sibling_witness :
  ∃ w1 w2,
    pitivi_timelinemedia_callb_dissociate 1%positive
      (linked_pair true PITIVI_CURSOR_SELECT) = Ok w1 ∧
    pitivi_timelinemedia_callb_destroy 1%positive w1 = Ok w2 ∧
    calls w2 = [Expose 2%positive; Destroy 1%positive].
Proof.
  destruct (dissociate_then_delete_spares_sibling 1%positive 2%positive
              (demo_clip 0 100 1%positive true (Some 2%positive) 1%positive)
              (demo_clip 0 100 2%positive true (Some 1%positive) 2%positive)
              (linked_pair true PITIVI_CURSOR_SELECT) eq_refl eq_refl eq_refl)
    as (w1 & w2 & H1 & _ & H2 & Hcalls & _).
  - discriminate.
  - reflexivity.
  - exists w1, w2. split; [exact H1 |]. split; [exact H2 | exact Hcalls].
Defined.

(** ** Button presses *)

Lemma update_media_inv (p : ptr) (f : PitiviTimelineMedia → PitiviTimelineMedia)
    (w w' : World) :
  update_media p f w = Ok w' → ∃ m, medias w !! p = Some m ∧ w' = put_media p (f m) w.
Proof.
  unfold update_media, get_media.
  destruct (medias w !! p) as [m|]; simpl; [| discriminate].
  intros [= <-]. eauto.
Qed.

Lemma select_pair_frame (A : ptr) (b : bool) (a : PitiviTimelineMedia) (w w' : World) :
  medias w !! A = Some a →
  select_pair A b w = Ok w' →
  (∀ p, p ≠ A → linked a ≠ Some p → medias w' !! p = medias w !! p) ∧
  cells w' = cells w ∧ srcfiles w' = srcfiles w ∧ chars w' = chars w ∧
  gnl w' = gnl w ∧ cursor w' = cursor w ∧ calls w' = calls w.
Proof.
  intros Ha. unfold select_pair.
  erewrite update_media_hit by exact Ha. simpl.
  unfold get_media. simpl. rewrite lookup_insert_eq. simpl.
  destruct (linked a) as [l|].
  - intros Hrun. apply update_media_inv in Hrun as (m & _ & ->). simpl.
    split; [| done]. intros p HpA Hpl.
    rewrite !lookup_insert_ne; [done | done | congruence].
  - intros [= <-]. simpl. split; [| done].
    intros p HpA _. by rewrite lookup_insert_ne.
Qed.

Section Press.
Context `{Externals}.

(** X10. In select mode every button other than the primary one opens the
    popup menu, with the button and time of the event: the menu of the
    clip becomes the popup table, and nothing else changes; no clip is
    selected, deselected or repainted and no signal is emitted. *)
Theorem press_other_button_opens_menu
    (A : ptr) (a : PitiviTimelineMedia) (event : GdkEventButton) (w : World) :
  cursor w = PITIVI_CURSOR_SELECT →
  button event ≠ 1 →
  medias w !! A = Some a →
  ∃ w',
    pitivi_timelinemedia_button_press_event A event w = Ok (true, w') ∧
    calls w' = calls w ++ [MenuPopup A (button event) (button_time event)] ∧
    medias w' !! A = Some (set_private (set_menu (Some TimeItemPopup)) a) ∧
    (∀ p, p ≠ A → medias w' !! p = medias w !! p) ∧
    cells w' = cells w ∧ gnl w' = gnl w ∧ cursor w' = cursor w.
Proof.
  intros Hcur Hbut Ha. unfold pitivi_timelinemedia_button_press_event.
  rewrite Hcur. destruct (decide (button event = 1)) as [|_]; [done |].
  erewrite update_media_hit by exact Ha. simpl.
  eexists. split; [reflexivity |]. simpl. rewrite lookup_insert_eq.
  repeat split; try done. intros p Hp. by rewrite lookup_insert_ne.
Qed.

(** X11. A primary press in select mode on a selected clip deselects it and
    the clip it is linked to without emitting a signal: the calls are the
    focus grab and the repaint of the clip, then of the linked clip, and
    every other clip is as before. *)
Theorem press_on_selected_deselects_quietly
    (A : ptr) (a : PitiviTimelineMedia) (event : GdkEventButton)
    (w w' : World) (r : bool) :
  cursor w = PITIVI_CURSOR_SELECT →
  button event = 1 →
  medias w !! A = Some a →
  selected a = true →
  pitivi_timelinemedia_button_press_event A event w = Ok (r, w') →
  calls w' = calls w ++ [GrabFocus A; Expose A]
             ++ match linked a with Some B => [Expose B] | None => [] end ∧
  selected <$> medias w' !! A = Some false ∧
  (∀ B, linked a = Some B → selected <$> medias w' !! B = Some false) ∧
  (∀ p, p ≠ A → linked a ≠ Some p → medias w' !! p = medias w !! p).
Proof.
  intros Hcur Hbut Ha Hsel. unfold pitivi_timelinemedia_button_press_event.
  rewrite Hcur. destruct (decide (button event = 1)) as [_|]; [| done].
  unfold get_media at 2. simpl.
  intros Hrun. apply bind_Ok in Hrun as (self & Hself & Hrun).
  apply get_media_Ok in Hself. rewrite Ha in Hself. injection Hself as <-.
  rewrite Hsel in Hrun. simpl in Hrun.
  apply bind_Ok in Hrun as (w1 & Hpair & Hrun).
  destruct (select_pair_frame _ _ _ _ _ Ha Hpair) as (Hframe & _ & _ & _ & _ & _ & Hcalls).
  destruct (select_pair_Ok _ _ _ _ Hpair)
    as (a0 & a1 & Ha0 & Ha1 & Hs1 & Hl1 & Hsib & _).
  rewrite Ha in Ha0. injection Ha0 as <-.
  unfold get_media in Hrun. simpl in Hrun. rewrite Ha1 in Hrun. simpl in Hrun.
  rewrite Hl1 in Hrun.
  destruct (linked a) as [B|] eqn:HB; injection Hrun as _ <-; simpl; rewrite Hcalls.
  - split; [by rewrite <- !app_assoc |]. split; [by rewrite Ha1; simpl; rewrite Hs1 |].
    split; [| exact Hframe].
    intros B' [= <-]. destruct (Hsib B eq_refl) as (b' & -> & Hb'). simpl. by rewrite Hb'.
  - split; [by rewrite <- !app_assoc |]. split; [by rewrite Ha1; simpl; rewrite Hs1 |].
    split; [discriminate | exact Hframe].
Qed.

(** X12. The selection is exclusive: when the handlers of the toplevel
    "deselect" signal leave every clip unselected, a primary press in
    select mode on an unselected clip A leaves selected exactly A and the
    clip A is linked to. *)
Theorem press_selects_exclusively
    (A : ptr) (a : PitiviTimelineMedia) (event : GdkEventButton)
    (w w' : World) (r : bool) :
  cursor w = PITIVI_CURSOR_SELECT →
  button event = 1 →
  medias w !! A = Some a →
  selected a = false →
  (∀ p m, medias (g_signal_emit_by_name (toplevel_deselect A) w) !! p = Some m →
          selected m = false) →
  pitivi_timelinemedia_button_press_event A event w = Ok (r, w') →
  ∃ a', medias w' !! A = Some a' ∧ selected a' = true ∧
    ∀ p m, medias w' !! p = Some m →
           (selected m = true ↔ p = A ∨ linked a' = Some p).
Proof.
  intros Hcur Hbut Ha Hsel Hdes. unfold pitivi_timelinemedia_button_press_event.
  rewrite Hcur. destruct (decide (button event = 1)) as [_|]; [| done].
  intros Hrun. apply bind_Ok in Hrun as (self & Hself & Hrun).
  apply get_media_Ok in Hself. rewrite Ha in Hself. injection Hself as <-.
  rewrite Hsel in Hrun. simpl in Hrun.
  apply bind_Ok in Hrun as (w1 & Hpair & Hrun).
  set (w0 := g_signal_emit_by_name (toplevel_deselect A) w) in *.
  destruct (select_pair_Ok _ _ _ _ Hpair)
    as (a0 & a1 & Ha0 & Ha1 & Hs1 & Hl1 & Hsib & _).
  destruct (select_pair_frame _ _ _ _ _ Ha0 Hpair) as (Hframe & _).
  unfold get_media in Hrun. simpl in Hrun. rewrite Ha1 in Hrun. simpl in Hrun.
  assert (medias w' = medias w1) as Hsame.
  { destruct (linked a1); injection Hrun as _ <-; done. }
  rewrite Hsame. exists a1. split; [done |]. split; [done |].
  intros p m Hm. split.
  - intros Hsm. destruct (decide (p = A)) as [|HpA]; [by left |]. right.
    rewrite Hl1. destruct (decide (linked a0 = Some p)) as [|Hlp]; [done |].
    rewrite (Hframe p HpA Hlp) in Hm. rewrite (Hdes p m Hm) in Hsm. discriminate.
  - intros [-> | Hlp].
    + rewrite Ha1 in Hm. by injection Hm as <-.
    + rewrite Hl1 in Hlp. destruct (Hsib p Hlp) as (b' & Hb' & Hsb').
      rewrite Hb' in Hm. by injection Hm as <-.
Qed.

End Press.

Lemma press_other_button_opens_menu_witness :
  ∃ w', pitivi_timelinemedia_button_press_event (H := demo_externals) 1%positive
          (mkButton 3 (inject_Z 5) 77) (linked_pair true PITIVI_CURSOR_SELECT)
          = Ok (true, w') ∧
        calls w' = [MenuPopup 1%positive 3 77].
Proof.
  destruct (press_other_button_opens_menu (H := demo_externals) 1%positive
              (demo_clip 0 100 1%positive true (Some 2%positive) 1%positive)
              (mkButton 3 (inject_Z 5) 77) (linked_pair true PITIVI_CURSOR_SELECT))
    as (w' & Hrun & Hcalls & _).
  - reflexivity.
  - simpl. lia.
  - reflexivity.
  - exists w'. split; [exact Hrun | exact Hcalls].
Defined.

Lemma press_on_selected_deselects_quietly_witness :
  ∃ r w', pitivi_timelinemedia_button_press_event (H := demo_externals) 1%positive
            (mkButton 1 (inject_Z 5) 0) (linked_pair true PITIVI_CURSOR_SELECT)
            = Ok (r, w') ∧
          calls w' = [GrabFocus 1%positive; Expose 1%positive; Expose 2%positive] ∧
          selected <$> medias w' !! 2%positive = Some false.
Proof.
  destruct (pitivi_timelinemedia_button_press_event (H := demo_externals) 1%positive
              (mkButton 1 (inject_Z 5) 0) (linked_pair true PITIVI_CURSOR_SELECT))
    as [[r w']| |] eqn:Hrun; [| vm_compute in Hrun; discriminate Hrun ..].
  destruct (press_on_selected_deselects_quietly (H := demo_externals) 1%positive
              (demo_clip 0 100 1%positive true (Some 2%positive) 1%positive)
              (mkButton 1 (inject_Z 5) 0) (linked_pair true PITIVI_CURSOR_SELECT) w' r
              eq_refl eq_refl eq_refl eq_refl Hrun) as (Hcalls & _ & Hsib & _).
  exists r, w'. split; [reflexivity |]. split; [exact Hcalls |].
  apply Hsib. reflexivity.
Defined.

Lemma press_selects_exclusively_witness :
  ∃ r w' m1 m2 m3,
    pitivi_timelinemedia_button_press_event (H := demo_externals) 1%positive
      (mkButton 1 (inject_Z 5) 0) three_clips = Ok (r, w') ∧
    medias w' !! 1%positive = Some m1 ∧ selected m1 = true ∧
    medias w' !! 2%positive = Some m2 ∧ selected m2 = true ∧
    medias w' !! 3%positive = Some m3 ∧ selected m3 ≠ true.
Proof.
  destruct (pitivi_timelinemedia_button_press_event (H := demo_externals) 1%positive
              (mkButton 1 (inject_Z 5) 0) three_clips)
    as [[r w']| |] eqn:Hrun; [| vm_compute in Hrun; discriminate Hrun ..].
  destruct (press_selects_exclusively (H := demo_externals) 1%positive
              (demo_clip 0 100 1%positive false (Some 2%positive) 1%positive)
              (mkButton 1 (inject_Z 5) 0) three_clips w' r)
    as (a' & Ha' & Hsa' & Hiff).
  - reflexivity.
  - reflexivity.
  - reflexivity.
  - reflexivity.
  - intros p m Hm. simpl in Hm. unfold deselect_all in Hm. simpl in Hm.
    rewrite lookup_fmap in Hm. destruct (_ !! p); [| discriminate].
    simpl in Hm. by injection Hm as <-.
  - exact Hrun.
  - assert (linked a' = Some 2%positive) as Hl.
    { vm_compute in Hrun. injection Hrun as _ <-. vm_compute in Ha'.
      injection Ha' as <-. reflexivity. }
    assert (∃ m2, medias w' !! 2%positive = Some m2) as [m2 Hm2].
    { vm_compute in Hrun. injection Hrun as _ <-. vm_compute. eauto. }
    assert (∃ m3, medias w' !! 3%positive = Some m3) as [m3 Hm3].
    { vm_compute in Hrun. injection Hrun as _ <-. vm_compute. eauto. }
    exists r, w', a', m2, m3. split; [reflexivity |].
    split; [exact Ha' |]. split; [exact Hsa' |]. split; [exact Hm2 |].
    split; [apply (Hiff _ _ Hm2); right; exact Hl |]. split; [exact Hm3 |].
    intros Hs3. apply (Hiff _ _ Hm3) in Hs3 as [Heq | Heq].
    + discriminate Heq.
    + rewrite Hl in Heq. discriminate Heq.
Defined.

(** ** What the handlers report *)

Section Handled.
Context `{Externals}.

(** X13. The press, release and key-release handlers report as handled
    every event they return from, whatever the tool mode, the button or
    the state of the clip; outside select mode a press, and outside cut
    mode a release, leaves the world as it is, and does not even look at
    the clip.  The motion and configure handlers report their event as
    not handled.  On a live clip the key-release, the configure and the
    motion handler return for every event, the last for every pointer
    coordinate within the range of binary64, whether the sum rounds or
    not. *)
Theorem handlers_report
    (widget : ptr) (event : GdkEventButton) (key : GdkEventKey)
    (motion : GdkEventMotion) (w : World) :
  (∀ r w', pitivi_timelinemedia_button_press_event widget event w = Ok (r, w') →
           r = true) ∧
  (∀ r w', pitivi_timelinemedia_button_release_event widget event w = Ok (r, w') →
           r = true) ∧
  (∀ r w', pitivi_timelinemedia_callb_key_release_event widget key w = Ok (r, w') →
           r = true) ∧
  (∀ r e, pitivi_timelinemedia_motion_notify_event widget motion w = Ok (r, e) →
          r = false ∧ motion_time e = motion_time motion) ∧
  (∀ r w', pitivi_timelinemedia_configure_event widget w = Ok (r, w') →
           r = false ∧
           (cursor_type ∘ private) <$> medias w' !! widget = Some (Some (cursor w))) ∧
  (cursor w ≠ PITIVI_CURSOR_SELECT →
   pitivi_timelinemedia_button_press_event widget event w = Ok (true, w)) ∧
  (cursor w ≠ PITIVI_CURSOR_CUT →
   pitivi_timelinemedia_button_release_event widget event w = Ok (true, w)) ∧
  (∀ self, medias w !! widget = Some self →
     (∃ w', pitivi_timelinemedia_callb_key_release_event widget key w = Ok (true, w')) ∧
     (∃ w', pitivi_timelinemedia_configure_event widget w = Ok (false, w')) ∧
     (in_gdouble (motion_x motion) = true →
      in_gint (alloc_x (allocation self)) = true →
      ∃ x, round64 (motion_x motion + inject_Z (alloc_x (allocation self)))%Q = Some x ∧
           pitivi_timelinemedia_motion_notify_event widget motion w
           = Ok (false, mkMotion x (motion_time motion)))).
Proof.
  split.
  { unfold pitivi_timelinemedia_button_press_event. intros r w'.
    destruct (cursor w); [| by intros [= <- _] ..].
    destruct (decide (button event = 1)).
    - intros Hrun. apply bind_Ok in Hrun as (self & _ & Hrun).
      apply bind_Ok in Hrun as (w1 & _ & Hrun).
      apply bind_Ok in Hrun as (self' & _ & Hrun).
      destruct (linked self'); by injection Hrun as <- _.
    - intros Hrun. apply bind_Ok in Hrun as (w1 & _ & Hrun).
      by injection Hrun as <- _. }
  split.
  { unfold pitivi_timelinemedia_button_release_event. intros r w'.
    destruct (cursor w); try by intros [= <- _].
    intros Hrun. apply bind_Ok in Hrun as (self & _ & Hrun).
    apply bind_Ok in Hrun as (w1 & _ & Hrun). by injection Hrun as <- _. }
  split.
  { unfold pitivi_timelinemedia_callb_key_release_event. intros r w' Hrun.
    apply bind_Ok in Hrun as (w1 & _ & Hrun). by injection Hrun as <- _. }
  split.
  { unfold pitivi_timelinemedia_motion_notify_event. intros r e Hrun.
    apply bind_Ok in Hrun as (self & _ & Hrun).
    apply bind_Ok in Hrun as (x & _ & Hrun). by injection Hrun as <- <-. }
  split.
  { unfold pitivi_timelinemedia_configure_event. intros r w' Hrun.
    apply bind_Ok in Hrun as (w1 & Hupd & Hrun). injection Hrun as <- <-.
    apply update_media_inv in Hupd as (m & _ & ->). simpl.
    by rewrite lookup_insert_eq. }
  split.
  { intros Hcur. unfold pitivi_timelinemedia_button_press_event.
    by destruct (cursor w). }
  split.
  { intros Hcur. unfold pitivi_timelinemedia_button_release_event.
    by destruct (cursor w). }
  intros self Hself. split; [| split].
  - unfold pitivi_timelinemedia_callb_key_release_event,
      pitivi_timelinemedia_callb_destroy, get_media.
    rewrite Hself. simpl. destruct (selected self); simpl; eauto.
  - unfold pitivi_timelinemedia_configure_event.
    erewrite update_media_hit by exact Hself. simpl. eauto.
  - intros Hx Hz. unfold pitivi_timelinemedia_motion_notify_event, get_media.
    rewrite Hself. simpl. unfold gdouble_add, gdouble_of_gint, dbl, round64.
    rewrite round64_in_range; [eauto | exact Hx |].
    unfold in_gint in Hz. apply andb_prop in Hz as [Hlo Hhi].
    apply Z.leb_le in Hlo. apply Z.ltb_lt in Hhi. lia.
Qed.

End Handled.

Lemma handlers_report_witness :
  pitivi_timelinemedia_button_press_event (H := demo_externals) 9%positive
    (mkButton 1 (inject_Z 5) 0) (single_clip true PITIVI_CURSOR_CUT)
    = Ok (true, single_clip true PITIVI_CURSOR_CUT) ∧
  pitivi_timelinemedia_button_release_event (H := demo_externals) 9%positive
    (mkButton 1 (inject_Z 5) 0) (single_clip true PITIVI_CURSOR_SELECT)
    = Ok (true, single_clip true PITIVI_CURSOR_SELECT) ∧
  ∃ x, pitivi_timelinemedia_motion_notify_event 3%positive (mkMotion tenth 7)
         three_clips = Ok (false, mkMotion x 7) ∧
       x = 7040392854975283 # 35184372088832 ∧ ¬ (x == tenth + inject_Z 200)%Q.
Proof.
  destruct (handlers_report (H := demo_externals) 9%positive (mkButton 1 (inject_Z 5) 0)
              (mkKey 0 0) (mkMotion (inject_Z 0) 0) (single_clip true PITIVI_CURSOR_CUT))
    as (_ & _ & _ & _ & _ & Hpress & _).
  destruct (handlers_report (H := demo_externals) 9%positive (mkButton 1 (inject_Z 5) 0)
              (mkKey 0 0) (mkMotion (inject_Z 0) 0) (single_clip true PITIVI_CURSOR_SELECT))
    as (_ & _ & _ & _ & _ & _ & Hrelease & _).
  destruct (handlers_report (H := demo_externals) 3%positive (mkButton 1 (inject_Z 5) 0)
              (mkKey 0 0) (mkMotion tenth 7) three_clips)
    as (_ & _ & _ & _ & _ & _ & _ & Hlive).
  destruct (Hlive (demo_clip 200 100 1%positive true None 1%positive) eq_refl)
    as (_ & _ & Hmotion).
  destruct (Hmotion eq_refl eq_refl) as (x & Hx & Hrun).
  split; [apply Hpress; discriminate |]. split; [apply Hrelease; discriminate |].
  exists x. split; [exact Hrun |].
  vm_compute in Hx. injection Hx as <-. split; [reflexivity |].
  intros Heq. vm_compute in Heq. discriminate Heq.
Defined.

(** ** What a split leaves alone *)

Lemma set_size_back (Q : PitiviTimelineMedia) (r : Z * Z) :
  set_size (size_request Q) (set_size r Q) = Q.
Proof. by destruct Q. Qed.

Section SplitFrame.
Context `{Externals}.

(** X14. A split changes nothing of the earlier clips but the requested size
    of the cut clip and of the clip it is linked to: selection, link,
    geometry, source item and private part of every earlier clip are as
    before, and the clips it adds are unselected.  So a split never
    changes which clips are selected. *)
Theorem split_changes_only_size_requests
    (A : ptr) (a : PitiviTimelineMedia) (event : GdkEventButton)
    (w w' : World) (r : bool) :
  cursor w = PITIVI_CURSOR_CUT →
  medias w !! A = Some a →
  (∀ l, linked a = Some l → is_Some (medias w !! l)) →
  pitivi_timelinemedia_button_release_event A event w = Ok (r, w') →
  ∃ w1,
    w' = g_signal_emit_by_name (source_cut (parent a) (button_x event) A) w1 ∧
    (∀ q Q, medias w !! q = Some Q →
       ∃ Q', medias w1 !! q = Some Q' ∧ set_size (size_request Q) Q' = Q ∧
             (q ≠ A → linked a ≠ Some q → Q' = Q)) ∧
    (∀ q Q', medias w1 !! q = Some Q' → medias w !! q = None → selected Q' = false).
Proof.
  intros Hcur Ha Hlive Hrun.
  unfold pitivi_timelinemedia_button_release_event in Hrun. rewrite Hcur in Hrun.
  apply bind_Ok in Hrun as (self & Hself & Hrun). apply get_media_Ok in Hself.
  rewrite Ha in Hself. injection Hself as <-.
  apply bind_Ok in Hrun as (w1 & Hsplit & Hrun). injection Hrun as _ <-.
  exists w1. split; [done |].
  unfold split in Hsplit.
  apply bind_Ok in Hsplit as (self & Hself & Hsplit). apply get_media_Ok in Hself.
  rewrite Ha in Hself. injection Hself as <-.
  apply bind_Ok in Hsplit as (t1 & _ & Hsplit).
  apply bind_Ok in Hsplit as (t2 & _ & Hsplit).
  apply bind_Ok in Hsplit as (pos & _ & Hsplit).
  apply bind_Ok in Hsplit as (cut & _ & Hsplit).
  apply bind_Ok in Hsplit as (t3 & _ & Hsplit).
  apply bind_Ok in Hsplit as (width & _ & Hsplit).
  apply bind_Ok in Hsplit as (si & _ & Hsplit).
  apply bind_Ok in Hsplit as ([m0 w2] & Hself & Hsplit).
  destruct (split_self_Ok _ _ _ _ _ _ _ _ _ _ Ha Hself)
    as (cp & c & c2 & M0 & cutw & _ & _ & -> & _ & Hm2 & _ & _ & _ & HselM0 & _).
  pose proof (fresh_media_ne w A a Ha) as Hne.
  pose proof (fresh_media_None w) as Hfresh.
  set (m0 := fresh (dom (medias w))) in *.
  apply bind_Ok in Hsplit as (self2 & Hself2 & Hsplit). apply get_media_Ok in Hself2.
  rewrite Hm2, lookup_insert_eq in Hself2. injection Hself2 as <-. simpl in Hsplit.
  assert (medias w2 !! m0 = Some M0) as HM0.
  { by rewrite Hm2, lookup_insert_ne, lookup_insert_eq. }
  destruct (linked a) as [l|] eqn:Hl.
  - destruct (Hlive l eq_refl) as [L0 HL0].
    pose proof (fresh_media_ne w l L0 HL0) as Hlm0. fold m0 in Hlm0.
    destruct (split_linked_Ok _ _ _ _ _ _ _ _ _ HM0 Hlm0 Hsplit)
      as (cp' & c' & L & M1 & cutw' & m1 & _ & _ & HL & _ & Hm1 & Hw1m0 &
          Hw1m1 & Hw1l & Hothers & _ & _ & _ & HselM1 & _).
    assert (medias w2 !! m1 = None) as Hm1w2.
    { rewrite Hm1. apply fresh_media_None. }
    assert (m1 ≠ m0) as Hm10.
    { intros ->. rewrite HM0 in Hm1w2. discriminate. }
    assert (m1 ≠ A) as Hm1A.
    { intros ->. rewrite Hm2, lookup_insert_eq in Hm1w2. discriminate. }
    assert (medias w !! m1 = None) as Hm1old.
    { rewrite Hm2, !lookup_insert_ne in Hm1w2 by done. exact Hm1w2. }
    split.
    + intros q Q HQ.
      assert (q ≠ m0) as Hq0 by (intros ->; rewrite Hfresh in HQ; discriminate).
      assert (q ≠ m1) as Hq1 by (intros ->; rewrite Hm1old in HQ; discriminate).
      destruct (decide (q = l)) as [->|Hql].
      * rewrite Hw1l. eexists. split; [reflexivity |].
        rewrite Hm2 in HL. destruct (decide (A = l)) as [->|HAl].
        -- rewrite lookup_insert_eq in HL. injection HL as <-.
           rewrite Ha in HQ. injection HQ as <-. split; [by destruct a | done].
        -- rewrite !lookup_insert_ne in HL by done.
           rewrite HQ in HL. injection HL as <-.
           split; [apply set_size_back | done].
      * rewrite Hothers, Hm2 by done.
        destruct (decide (A = q)) as [->|HAq].
        -- rewrite lookup_insert_eq. eexists. split; [reflexivity |].
           rewrite Ha in HQ. injection HQ as <-. split; [apply set_size_back | done].
        -- rewrite !lookup_insert_ne by done. exists Q. split; [done |].
           split; [by destruct Q | done].
    + intros q Q' HQ' Hnew.
      destruct (decide (q = m0)) as [->|Hq0].
      { rewrite Hw1m0 in HQ'. injection HQ' as <-. exact HselM0. }
      destruct (decide (q = m1)) as [->|Hq1].
      { rewrite Hw1m1 in HQ'. injection HQ' as <-. exact HselM1. }
      exfalso. destruct (decide (q = l)) as [->|Hql]; [congruence |].
      rewrite Hothers, Hm2 in HQ' by done.
      destruct (decide (A = q)) as [->|HAq]; [congruence |].
      rewrite !lookup_insert_ne in HQ' by done. congruence.
  - injection Hsplit as <-. split.
    + intros q Q HQ.
      assert (q ≠ m0) as Hq0 by (intros ->; rewrite Hfresh in HQ; discriminate).
      rewrite Hm2. destruct (decide (A = q)) as [->|HAq].
      * rewrite lookup_insert_eq. eexists. split; [reflexivity |].
        rewrite Ha in HQ. injection HQ as <-. split; [apply set_size_back | done].
      * rewrite !lookup_insert_ne by done. exists Q. split; [done |].
        split; [by destruct Q | done].
    + intros q Q' HQ' Hnew. rewrite Hm2 in HQ'.
      destruct (decide (q = m0)) as [->|Hq0].
      * rewrite lookup_insert_ne, lookup_insert_eq in HQ' by done.
        injection HQ' as <-. exact HselM0.
      * exfalso. destruct (decide (A = q)) as [->|HAq]; [congruence |].
        rewrite !lookup_insert_ne in HQ' by done. congruence.
Qed.

End SplitFrame.

Lemma split_changes_only_size_requests_witness :
  ∃ r w' w1 Q1 Q2,
    pitivi_timelinemedia_button_release_event (H := demo_externals) 1%positive
      (mkButton 1 tenth 0) (linked_pair true PITIVI_CURSOR_CUT) = Ok (r, w') ∧
    medias w1 !! 1%positive = Some Q1 ∧ selected Q1 = true ∧
    medias w1 !! 2%positive = Some Q2 ∧ selected Q2 = true.
Proof.
  destruct (pitivi_timelinemedia_button_release_event (H := demo_externals) 1%positive
              (mkButton 1 tenth 0) (linked_pair true PITIVI_CURSOR_CUT))
    as [[r w']| |] eqn:Hrun; [| vm_compute in Hrun; discriminate Hrun ..].
  destruct (split_changes_only_size_requests (H := demo_externals) 1%positive
              (demo_clip 0 100 1%positive true (Some 2%positive) 1%positive)
              (mkButton 1 tenth 0) (linked_pair true PITIVI_CURSOR_CUT) w' r)
    as (w1 & _ & Hold & _).
  - reflexivity.
  - reflexivity.
  - intros l Hl. simpl in Hl. injection Hl as <-. vm_compute. eauto.
  - exact Hrun.
  - destruct (Hold 1%positive _ eq_refl) as (Q1 & HQ1 & Heq1 & _).
    destruct (Hold 2%positive _ eq_refl) as (Q2 & HQ2 & Heq2 & _).
    exists r, w', w1, Q1, Q2. split; [reflexivity |].
    apply (f_equal selected) in Heq1, Heq2. simpl in Heq1, Heq2.
    split; [exact HQ1 |]. split; [exact Heq1 |]. split; [exact HQ2 | exact Heq2].
Defined.

(** ** The insertion counter across a split *)

Section SplitCounter.
Context `{Externals}.

Lemma split_self_counter (container srcfile : option ptr) (widget m0 : ptr)
    (a : PitiviTimelineMedia) (pos width : Z) (cut : gdouble) (w w2 : World) :
  medias w !! widget = Some a →
  split_self container widget srcfile pos width cut w = Ok (m0, w2) →
  ∃ cp c c2 M0 si,
    container = Some cp ∧ cells w !! cp = Some c ∧ cells w2 !! cp = Some c2 ∧
    nb_added c2 = nb_added c + 2 ∧
    medias w2 !! m0 = Some M0 ∧ sourceitem M0 = Some si ∧ si_id si = nb_added c.
Proof.
  intros Ha Hrun. unfold split_self in Hrun.
  apply bind_Ok in Hrun as ([m w1] & Hnew & Hrun).
  destruct (pitivi_timelinemedia_new_shape _ _ _ _ _ Hnew)
    as (s & d & cp & c & g & engine & -> & -> & Hd & Hc & -> & ->).
  pose proof (fresh_media_ne w widget a Ha) as Hne.
  unfold gtk_layout_put in Hrun.
  erewrite update_cell_hit in Hrun by (simpl; apply lookup_insert_eq).
  simpl in Hrun.
  erewrite update_media_hit in Hrun by (simpl; apply lookup_insert_eq).
  simpl in Hrun. unfold gtk_widget_set_size_request in Hrun.
  erewrite update_media_hit in Hrun by (simpl; apply lookup_insert_eq).
  simpl in Hrun.
  destruct (gdouble_to_gint cut) as [cutw| |] eqn:Hcut; simpl in Hrun; try discriminate.
  erewrite update_media_hit in Hrun
    by (world_simpl; rewrite !lookup_insert_ne by done; exact Ha).
  simpl in Hrun. unfold bump_nb_added in Hrun.
  erewrite update_cell_hit in Hrun by (world_simpl; apply lookup_insert_eq).
  simpl in Hrun. injection Hrun as <- <-. world_simpl.
  eexists cp, c, _, _, _. split; [done |]. split; [done |].
  rewrite lookup_insert_eq. split; [reflexivity |]. simpl. split; [lia |].
  rewrite lookup_insert_ne, lookup_insert_eq by done. split; [reflexivity |].
  simpl. split; reflexivity.
Qed.

(** X15. Each clip a split creates uses up two values of the track's counter:
    the construction and the release handler both increment it.  The new
    clip on the clip's track takes the counter as its identifier; with no
    linked sibling the counter ends two higher; with one, the mirrored
    clip takes the identifier two above (it is constructed on the
    clip's track, not on the sibling's) and the counter ends four
    higher. *)
Theorem split_advances_counter
    (A : ptr) (a : PitiviTimelineMedia) (event : GdkEventButton)
    (w w' : World) (r : bool) :
  cursor w = PITIVI_CURSOR_CUT →
  medias w !! A = Some a →
  (∀ l, linked a = Some l → is_Some (medias w !! l)) →
  pitivi_timelinemedia_button_release_event A event w = Ok (r, w') →
  ∃ w1 cp c C m0 M0 si0,
    w' = g_signal_emit_by_name (source_cut (parent a) (button_x event) A) w1 ∧
    parent a = Some cp ∧ cells w !! cp = Some c ∧ cells w1 !! cp = Some C ∧
    medias w !! m0 = None ∧ medias w1 !! m0 = Some M0 ∧
    sourceitem M0 = Some si0 ∧ si_id si0 = nb_added c ∧
    (linked a = None → nb_added C = nb_added c + 2) ∧
    (∀ l, linked a = Some l →
       nb_added C = nb_added c + 4 ∧
       ∃ m1 M1 si1,
         m1 ≠ m0 ∧ medias w !! m1 = None ∧ medias w1 !! m1 = Some M1 ∧
         sourceitem M1 = Some si1 ∧ si_id si1 = nb_added c + 2 ∧
         cell (private M1) = Some cp).
Proof.
  intros Hcur Ha Hlive Hrun.
  unfold pitivi_timelinemedia_button_release_event in Hrun. rewrite Hcur in Hrun.
  apply bind_Ok in Hrun as (self & Hself & Hrun). apply get_media_Ok in Hself.
  rewrite Ha in Hself. injection Hself as <-.
  apply bind_Ok in Hrun as (w1 & Hsplit & Hrun). injection Hrun as _ <-.
  exists w1. unfold split in Hsplit.
  apply bind_Ok in Hsplit as (self & Hself & Hsplit). apply get_media_Ok in Hself.
  rewrite Ha in Hself. injection Hself as <-.
  apply bind_Ok in Hsplit as (t1 & _ & Hsplit).
  apply bind_Ok in Hsplit as (t2 & _ & Hsplit).
  apply bind_Ok in Hsplit as (pos & _ & Hsplit).
  apply bind_Ok in Hsplit as (cut & _ & Hsplit).
  apply bind_Ok in Hsplit as (t3 & _ & Hsplit).
  apply bind_Ok in Hsplit as (width & _ & Hsplit).
  apply bind_Ok in Hsplit as (si & _ & Hsplit).
  apply bind_Ok in Hsplit as ([m0 w2] & Hself & Hsplit).
  destruct (split_self_Ok _ _ _ _ _ _ _ _ _ _ Ha Hself)
    as (cp & c & c2' & M0' & cutw & Hcp & Hc & Hm0 & _ & Hm2 & _).
  destruct (split_self_counter _ _ _ _ _ _ _ _ _ _ Ha Hself)
    as (cp' & c' & c2 & M0 & si0 & Hcp' & Hc' & Hc2 & Hn2 & HM0 & HsM0 & Hid0).
  rewrite Hcp in Hcp'. injection Hcp' as <-. rewrite Hc in Hc'. injection Hc' as <-.
  subst m0.
  pose proof (fresh_media_ne w A a Ha) as Hne.
  pose proof (fresh_media_None w) as Hfresh.
  set (m0 := fresh (dom (medias w))) in *.
  apply bind_Ok in Hsplit as (self2 & Hself2 & Hsplit). apply get_media_Ok in Hself2.
  rewrite Hm2, lookup_insert_eq in Hself2. injection Hself2 as <-. simpl in Hsplit.
  destruct (linked a) as [l|] eqn:Hl.
  - destruct (Hlive l eq_refl) as [L0 HL0].
    pose proof (fresh_media_ne w l L0 HL0) as Hlm0. fold m0 in Hlm0.
    destruct (split_linked_Ok _ _ _ _ _ _ _ _ _ HM0 Hlm0 Hsplit)
      as (_ & _ & _ & M1' & _ & m1 & _ & _ & _ & _ & Hm1 & Hw1m0 & Hw1m1 & _).
    destruct (split_linked_counter _ _ _ _ _ _ _ _ _ HM0 Hlm0 Hsplit)
      as (cp' & c' & C & M1 & si1 & Hcp' & Hc' & HC & Hn & HM1 & HsM1 & Hid1 & Hcell1).
    rewrite Hcp in Hcp'. injection Hcp' as <-. rewrite Hc2 in Hc'. injection Hc' as <-.
    rewrite <- Hm1 in HM1.
    assert (medias w2 !! m1 = None) as Hm1w2.
    { rewrite Hm1. apply fresh_media_None. }
    assert (m1 ≠ m0) as Hm10.
    { intros ->. rewrite HM0 in Hm1w2. discriminate. }
    assert (m1 ≠ A) as Hm1A.
    { intros ->. rewrite Hm2, lookup_insert_eq in Hm1w2. discriminate. }
    assert (medias w !! m1 = None) as Hm1old.
    { rewrite Hm2, !lookup_insert_ne in Hm1w2 by done. exact Hm1w2. }
    exists cp, c, C, m0, (set_linked (Some m1) M0), si0.
    split; [done |]. split; [done |]. split; [done |]. split; [done |].
    split; [done |]. split; [done |]. split; [done |]. split; [done |].
    split; [discriminate |].
    intros l' _. split; [lia |].
    exists m1, M1, si1. split; [done |]. split; [done |]. split; [done |].
    split; [done |]. split; [lia |]. done.
  - injection Hsplit as <-.
    exists cp, c, c2, m0, M0, si0.
    split; [done |]. split; [done |]. split; [done |]. split; [done |].
    split; [done |]. split; [done |]. split; [done |]. split; [done |].
    split; [done | discriminate].
Qed.

End SplitCounter.

Lemma split_advances_counter_witness :
  ∃ r w' w1 C,
    pitivi_timelinemedia_button_release_event (H := demo_externals) 1%positive
      (mkButton 1 tenth 0) (linked_pair false PITIVI_CURSOR_CUT) = Ok (r, w') ∧
    cells w1 !! 1%positive = Some C ∧ nb_added C = 4.
Proof.
  destruct (pitivi_timelinemedia_button_release_event (H := demo_externals) 1%positive
              (mkButton 1 tenth 0) (linked_pair false PITIVI_CURSOR_CUT))
    as [[r w']| |] eqn:Hrun; [| vm_compute in Hrun; discriminate Hrun ..].
  destruct (split_advances_counter (H := demo_externals) 1%positive
              (demo_clip 0 100 1%positive false (Some 2%positive) 1%positive)
              (mkButton 1 tenth 0) (linked_pair false PITIVI_CURSOR_CUT) w' r)
    as (w1 & cp & c & C & m0 & M0 & si0 & _ & Hcp & Hc & HC & _ & _ & _ & _ & _ & Hlinked).
  - reflexivity.
  - reflexivity.
  - intros l Hl. simpl in Hl. injection Hl as <-. vm_compute. eauto.
  - exact Hrun.
  - simpl in Hcp. injection Hcp as <-. vm_compute in Hc. injection Hc as <-.
    destruct (Hlinked 2%positive eq_refl) as (Hn & _).
    exists r, w', w1, C. split; [reflexivity |]. split; [exact HC | exact Hn].
Defined.

(** ** Passthrough operations together *)

(** X16. Trim, then reposition: after the media offsets of a clip are set to
    (a, b), put at s sets the play interval to [s, s + (b - a)] and keeps
    the offsets (a, b), provided the sums fit 64 bits. *)
Theorem trim_then_put
    (media g : ptr) (o : GnlObject) (a b s : Z) (w : World) :
  gnlsource_of media w = Ok (Some g) →
  gnl w !! g = Some o →
  in_gint64 (s + b) = true →
  in_gint64 (s + b - a) = true →
  ∃ w1 w2 o2,
    pitivi_timelinemedia_set_media_start_stop media a b w = Ok w1 ∧
    pitivi_timelinemedia_put media s w1 = Ok w2 ∧
    gnl w2 !! g = Some o2 ∧
    gnl_media_start_stop o2 = Some (a, b) ∧
    gnl_start_stop o2 = Some (s, s + (b - a)) ∧
    gnl_priority o2 = gnl_priority o ∧ gnl_name o2 = gnl_name o ∧
    medias w2 = medias w.
Proof.
  intros Hg Ho H1 H2.
  unfold pitivi_timelinemedia_set_media_start_stop. rewrite Hg. simpl.
  unfold gnl_object_set_media_start_stop, update_gnl. simpl. rewrite Ho. simpl.
  eexists _, _, _. split; [reflexivity |].
  unfold pitivi_timelinemedia_put.
  change (gnlsource_of media (with_gnl _ w)) with (gnlsource_of media w).
  rewrite Hg. simpl.
  unfold gnl_object_get_media_start_stop. simpl. rewrite lookup_insert_eq. simpl.
  unfold gint64_add. rewrite H1. simpl. unfold gint64_sub. rewrite H2. simpl.
  unfold gnl_object_set_start_stop, update_gnl. simpl. rewrite lookup_insert_eq. simpl.
  split; [reflexivity |]. simpl. rewrite lookup_insert_eq.
  split; [reflexivity |]. simpl. split; [reflexivity |].
  split; [do 2 f_equal; lia | done].
Qed.

Lemma trim_then_put_witness :
  ∃ w1 w2 o2,
    pitivi_timelinemedia_set_media_start_stop 1%positive 100 400
      (single_clip false PITIVI_CURSOR_SELECT) = Ok w1 ∧
    pitivi_timelinemedia_put 1%positive 50 w1 = Ok w2 ∧
    gnl w2 !! 1%positive = Some o2 ∧
    gnl_start_stop o2 = Some (50, 350).
Proof.
  destruct (trim_then_put 1%positive 1%positive
              (mkGnl "a.avi_video_0" (Some 7%positive) None (Some (0, 1000)) None)
              100 400 50 (single_clip false PITIVI_CURSOR_SELECT)
              eq_refl eq_refl eq_refl eq_refl)
    as (w1 & w2 & o2 & H1 & H2 & Ho2 & _ & Hplay & _).
  exists w1, w2, o2. split; [exact H1 |]. split; [exact H2 |].
  split; [exact Ho2 | exact Hplay].
Defined.

Lemma update_gnl_inv (object : option ptr) (f : GnlObject → GnlObject) (w w' : World) :
  update_gnl object f w = Ok w' →
  ∃ g o, object = Some g ∧ gnl w !! g = Some o ∧ w' = with_gnl (insert g (f o)) w.
Proof.
  unfold update_gnl. destruct object as [g|]; simpl; [| discriminate].
  destruct (gnl w !! g) as [o|] eqn:Ho; simpl; [| discriminate].
  intros [= <-]. exists g, o. done.
Qed.

(** X17. The last position wins: a put after a put leaves the world the
    second put alone would have left. *)
Theorem put_last_position_wins (media : ptr) (s1 s2 : Z) (w w1 w2 : World) :
  pitivi_timelinemedia_put media s1 w = Ok w1 →
  pitivi_timelinemedia_put media s2 w = Ok w2 →
  pitivi_timelinemedia_put media s2 w1 = Ok w2.
Proof.
  unfold pitivi_timelinemedia_put. intros Hrun1 Hrun2.
  apply bind_Ok in Hrun1 as (g & Hg & Hrun1).
  apply bind_Ok in Hrun1 as ([mstart mstop] & Hget & Hrun1).
  apply bind_Ok in Hrun1 as (t & _ & Hrun1).
  apply bind_Ok in Hrun1 as (stop & _ & Hrun1).
  unfold gnl_object_set_start_stop in Hrun1.
  apply update_gnl_inv in Hrun1 as (a & o & -> & Ho & ->).
  change (gnlsource_of media (with_gnl _ w)) with (gnlsource_of media w).
  rewrite Hg in *. simpl in *.
  unfold gnl_object_get_media_start_stop in *. simpl in *.
  rewrite Ho in *. simpl in *. rewrite lookup_insert_eq. simpl.
  destruct (gnl_media_start_stop o) as [[ms me]|]; simpl in *; [| discriminate].
  destruct (gint64_add s2 me) as [t2| |]; simpl in *; try discriminate.
  destruct (gint64_sub t2 ms) as [stop2| |]; simpl in *; try discriminate.
  unfold gnl_object_set_start_stop, update_gnl in *. simpl in *.
  rewrite Ho in Hrun2. simpl in Hrun2. rewrite lookup_insert_eq. simpl.
  injection Hrun2 as <-. unfold with_gnl. simpl. by rewrite insert_insert_eq.
Qed.

Lemma put_last_position_wins_witness :
  ∃ w1 w2,
    pitivi_timelinemedia_put 1%positive 10 (single_clip false PITIVI_CURSOR_SELECT)
      = Ok w1 ∧
    pitivi_timelinemedia_put 1%positive 20 (single_clip false PITIVI_CURSOR_SELECT)
      = Ok w2 ∧
    pitivi_timelinemedia_put 1%positive 20 w1 = Ok w2.
Proof.
  destruct (pitivi_timelinemedia_put 1%positive 10 (single_clip false PITIVI_CURSOR_SELECT))
    as [w1| |] eqn:H1; [| vm_compute in H1; discriminate H1 ..].
  destruct (pitivi_timelinemedia_put 1%positive 20 (single_clip false PITIVI_CURSOR_SELECT))
    as [w2| |] eqn:H2; [| vm_compute in H2; discriminate H2 ..].
  exists w1, w2. split; [reflexivity |]. split; [reflexivity |].
  exact (put_last_position_wins 1%positive 10 20 _ w1 w2 H1 H2).
Defined.

Section NoEngine.
Context `{Externals}.

(** X18. A clip constructed on a transition track has no engine object, and
    put on it has no defined outcome: the media offsets it adds up are
    read through a NULL object. *)
Theorem put_on_transition_clip_undefined
    (s cp : ptr) (c : PitiviTimelineCellRenderer) (w w' : World) (p : ptr) (start : Z) :
  cells w !! cp = Some c →
  track_type c = PITIVI_TRANSITION_TRACK →
  pitivi_timelinemedia_new (Some s) (Some cp) w = Ok (p, w') →
  gnlsource_of p w' = Ok None ∧
  pitivi_timelinemedia_put p start w' = Undefined.
Proof.
  intros Hc Htr Hrun.
  destruct (pitivi_timelinemedia_new_Ok _ _ _ _ _ Hrun)
    as (s' & d & cp' & c' & [= <-] & Hd & [= <-] & Hc').
  rewrite Hc in Hc'. injection Hc' as <-.
  rewrite (pitivi_timelinemedia_new_eq s cp d c w Hd Hc) in Hrun.
  destruct (decide (track_type c ≠ PITIVI_TRANSITION_TRACK)) as [|_]; [done |].
  injection Hrun as <- <-.
  assert (gnlsource_of (fresh (dom (medias w))) (after_new s cp d c None (gnl w) w)
          = Ok None) as Hnone.
  { unfold gnlsource_of, get_media. simpl. by rewrite lookup_insert_eq. }
  split; [exact Hnone |].
  unfold pitivi_timelinemedia_put. rewrite Hnone. reflexivity.
Qed.

End NoEngine.

Lemma put_on_transition_clip_undefined_witness :
  ∃ p w',
    pitivi_timelinemedia_new (H := demo_externals) (Some 1%positive) (Some 3%positive)
      (empty_timeline PITIVI_CURSOR_SELECT) = Ok (p, w') ∧
    pitivi_timelinemedia_put p 0 w' = Undefined.
Proof.
  destruct (pitivi_timelinemedia_new (H := demo_externals) (Some 1%positive)
              (Some 3%positive) (empty_timeline PITIVI_CURSOR_SELECT))
    as [[p w']| |] eqn:Hrun; [| vm_compute in Hrun; discriminate Hrun ..].
  exists p, w'. split; [reflexivity |].
  apply (put_on_transition_clip_undefined (H := demo_externals) 1%positive 3%positive
           (mkCell PITIVI_TRANSITION_TRACK 0 None [])
           (empty_timeline PITIVI_CURSOR_SELECT) w' p 0 eq_refl eq_refl Hrun).
Defined.

(** ** The name buffer *)

Section Overrun.
Context `{Externals}.

(** X19. The buffer for the engine name leaves ten bytes beside the file name
    and the media kind: on a track that is not a transition track, a
    construction whose identifier prints in more than seven characters
    (10000000 and above, -1000000 and below) writes past the buffer and
    has no defined outcome. *)
Theorem new_overruns_name_buffer
    (s cp : ptr) (d : PitiviSourceFile) (c : PitiviTimelineCellRenderer) (w : World) :
  srcfiles w !! s = Some d →
  cells w !! cp = Some c →
  track_type c ≠ PITIVI_TRANSITION_TRACK →
  (7 < String.length (NilZero.string_of_int (Z.to_int (nb_added c))))%nat →
  pitivi_timelinemedia_new (Some s) (Some cp) w = Undefined.
Proof.
  intros Hd Hc Hne Hlong.
  rewrite (pitivi_timelinemedia_new_eq s cp d c w Hd Hc).
  destruct (decide (track_type c ≠ PITIVI_TRANSITION_TRACK)) as [_|]; [| done].
  destruct (get_chars (sf_filename d) w) as [filename| |] eqn:Hf; simpl; [| | done].
  - destruct (get_chars (sf_mediatype d) w) as [mediatype| |] eqn:Hm; simpl; [| | done].
    + rewrite name_fits_digits.
      destruct (Nat.leb_spec
                  (String.length (NilZero.string_of_int (Z.to_int (nb_added c)))) 7);
        [lia | reflexivity].
    + exfalso. unfold get_chars in Hm.
      destruct (sf_mediatype d) as [ma|]; simpl in Hm; [| discriminate].
      destruct (chars w !! ma); discriminate.
  - exfalso. unfold get_chars in Hf.
    destruct (sf_filename d) as [fa|]; simpl in Hf; [| discriminate].
    destruct (chars w !! fa); discriminate.
Qed.

End Overrun.

Lemma new_overruns_name_buffer_witness :
  pitivi_timelinemedia_new (H := demo_externals) (Some 1%positive) (Some 1%positive)
    (with_cells (insert 1%positive (mkCell PITIVI_VIDEO_TRACK 10000000 None []))
       (empty_timeline PITIVI_CURSOR_SELECT)) = Undefined.
Proof.
  apply (new_overruns_name_buffer (H := demo_externals) 1%positive 1%positive
           (mkSourceFile (Some 1%positive) (Some 2%positive) 1000 (Some 7%positive) None)
           (mkCell PITIVI_VIDEO_TRACK 10000000 None [])).
  - reflexivity.
  - reflexivity.
  - discriminate.
  - vm_compute. lia.
Defined.

(** ** The arithmetic of a cut *)

(** X20. The binary64 arithmetic of a cut always returns: for a pointer
    offset within the range of binary64 and a clip whose position and
    width are [gint]s, the two sums for the position, the sum for the
    cut and the difference for the width are binary64 values again,
    whether they round or not.  So the values of a cut are defined
    exactly when the three conversions to an integer type are: when the
    position and the width, truncated, fit a [guint] and the cut,
    truncated, fits a [gint]. *)
Theorem cut_arithmetic_returns (a : PitiviTimelineMedia) (event : GdkEventButton) :
  in_gdouble (button_x event) = true →
  in_gint (alloc_x (allocation a)) = true →
  in_gint (alloc_width (allocation a)) = true →
  ∃ t1 t2 cut t3,
    gdouble_add (gdouble_of_gint (alloc_x (allocation a))) (button_x event) = Ok t1 ∧
    gdouble_add t1 2%Q = Ok t2 ∧
    gdouble_add (button_x event) 2%Q = Ok cut ∧
    gdouble_sub (gdouble_of_gint (alloc_width (allocation a))) cut = Ok t3 ∧
    in_gdouble t2 = true ∧ in_gdouble cut = true ∧ in_gdouble t3 = true ∧
    ∀ pos width cutw,
      cut_values a event pos width cutw ↔
      (Qtrunc t2 = pos ∧ in_guint pos = true) ∧
      (Qtrunc t3 = width ∧ in_guint width = true) ∧
      (Qtrunc cut = cutw ∧ in_gint cutw = true).
Proof.
  intros Hx Hax Haw.
  assert (∀ z, in_gint z = true → Z.abs z ≤ 2 ^ 31) as Hgint.
  { intros z Hz. unfold in_gint in Hz. apply andb_prop in Hz as [Hlo Hhi].
    apply Z.leb_le in Hlo. apply Z.ltb_lt in Hhi. lia. }
  destruct (gdouble_add_gint_l (button_x event) (alloc_x (allocation a)) Hx
              (Hgint _ Hax)) as (t1 & Ht1 & Hr1).
  destruct (gdouble_add_gint_r t1 2 Hr1 ltac:(lia)) as (t2 & Ht2 & Hr2).
  destruct (gdouble_add_gint_r (button_x event) 2 Hx ltac:(lia)) as (cut & Hcut & Hrc).
  destruct (gdouble_sub_gint_l cut (alloc_width (allocation a)) Hrc (Hgint _ Haw))
    as (t3 & Ht3 & Hr3).
  exists t1, t2, cut, t3. unfold gdouble_of_gint.
  change 2%Q with (inject_Z 2).
  split; [done |]. split; [done |]. split; [done |]. split; [done |].
  split; [done |]. split; [done |]. split; [done |].
  intros pos width cutw. unfold cut_values, gdouble_of_gint.
  change 2%Q with (inject_Z 2).
  assert (∀ t v, gdouble_to_guint t = Ok v ↔ Qtrunc t = v ∧ in_guint v = true) as Hu.
  { intros t v. unfold gdouble_to_guint.
    destruct (in_guint (Qtrunc t)) eqn:Hin; split.
    - intros [= <-]. done.
    - intros [<- _]. done.
    - discriminate.
    - intros [<- Hv]. congruence. }
  assert (∀ t v, gdouble_to_gint t = Ok v ↔ Qtrunc t = v ∧ in_gint v = true) as Hi.
  { intros t v. unfold gdouble_to_gint.
    destruct (in_gint (Qtrunc t)) eqn:Hin; split.
    - intros [= <-]. done.
    - intros [<- _]. done.
    - discriminate.
    - intros [<- Hv]. congruence. }
  split.
  - intros (t1' & t2' & cut' & t3' & H1 & H2 & H3 & H4 & H5 & H6 & H7).
    rewrite Ht1 in H1. injection H1 as <-. rewrite Ht2 in H2. injection H2 as <-.
    rewrite Hcut in H4. injection H4 as <-. rewrite Ht3 in H5. injection H5 as <-.
    by rewrite <- !Hu, <- Hi.
  - rewrite <- !Hu, <- Hi. intros (H3 & H6 & H7).
    exists t1, t2, cut, t3. done.
Qed.

Lemma cut_arithmetic_returns_witness :
  cut_values (demo_clip 0 100 1%positive false None 1%positive) (mkButton 1 tenth 0)
    2 97 2.
Proof.
  destruct (cut_arithmetic_returns
              (demo_clip 0 100 1%positive false None 1%positive) (mkButton 1 tenth 0)
              eq_refl eq_refl eq_refl)
    as (t1 & t2 & cut & t3 & Ht1 & Ht2 & Hcut & Ht3 & _ & _ & _ & Hiff).
  apply Hiff.
  vm_compute in Ht1. injection Ht1 as <-.
  vm_compute in Ht2. injection Ht2 as <-.
  vm_compute in Hcut. injection Hcut as <-.
  vm_compute in Ht3. injection Ht3 as <-.
  repeat split.
Defined.
